(** * nuclino-to-confluence: the import script, embedded and verified

    A shallow embedding of [import.py]: the Hierarchy Planner
    ([is_index_file], [get_subfolder_name], [process_index]), the Content
    Transformer ([convert_info_macros], [convert_code_block],
    [process_refs], [get_body]) and the Remote Hierarchy Builder
    ([is_child], [get_page_id], [create_page], [execute_import]).

    Python [str] values are lists of characters; the file system is a tree
    of named entries; exceptions and [sys.exit] are explicit results; the
    Confluence REST service and the [markdown] renderer, which are not part
    of the script, are section variables. *)

From Stdlib Require Import Ascii String List Bool Arith Lia.
From stdpp Require Import base option list gmap strings pretty.
Import ListNotations.
Open Scope string_scope.
Open Scope list_scope.

(** Text: a Python [str], one [ascii] per character. String literals are
    read as texts through the coercion below. *)
Abbreviation text := (list ascii).
Coercion list_ascii_of_string : string >-> list.

(** Characters that are awkward inside a literal. *)
Definition dqc : ascii := Eval vm_compute in ascii_of_nat 34.
Definition dq : text := [dqc].
Definition nl : text := ["010"%char].
Definition backslash : text := Eval vm_compute in [ascii_of_nat 92].

(** ** Results of running Python code *)

Inductive exn := AttributeError | IndexError | KeyError | OSError.

(** [Exit] is [sys.exit(1)] (a [SystemExit], which [except Exception] does
    not catch); [Raise] is an ordinary exception on its way up; [OutOfFuel]
    only arises in the fuelled model of the recursive planner. *)
Inductive result (A : Type) :=
| Ok (a : A)
| Raise (e : exn)
| Exit
| OutOfFuel.
Arguments Ok {A} a.
Arguments Raise {A} e.
Arguments Exit {A}.
Arguments OutOfFuel {A}.

(** Sequencing: the first result that is not [Ok] ends the run.  With
    these instances stdpp's [x ← r; k] is Python's statement sequence. *)
Global Instance result_bind : MBind result := λ A B f r,
  match r with
  | Ok a => f a
  | Raise e => Raise e
  | Exit => Exit
  | OutOfFuel => OutOfFuel
  end.
Global Instance result_ret : MRet result := λ A a, Ok a.

(** [try: ... except Exception as err: ...; sys.exit(1)] *)
Definition try_exit {A} (r : result A) : result A :=
  match r with
  | Raise _ => Exit
  | other => other
  end.

Definition of_option {A} (e : exn) (o : option A) : result A :=
  match o with
  | Some a => Ok a
  | None => Raise e
  end.

(** ** Python string primitives *)
Module Py.

Definition eqc (a b : ascii) : bool := Ascii.eqb a b.

Fixpoint is_prefix (p s : text) : bool :=
  match p, s with
  | [], _ => true
  | _ :: _, [] => false
  | a :: p', b :: s' => eqc a b && is_prefix p' s'
  end.

Definition startswith (s p : text) : bool := is_prefix p s.

Definition endswith (s suf : text) : bool :=
  is_prefix (rev suf) (rev s).

(** [s[:-n]] for a positive literal [n]: everything but the last [n]
    characters, the empty string when [s] is shorter. *)
Definition drop_last (n : nat) (s : text) : text :=
  take (length s - n) s.

(** [s.replace(old, new)]: every occurrence, left to right, without
    overlap.  [skip] counts the characters of a match still to be passed. *)
Fixpoint replace_from (old new : text) (skip : nat) (s : text) : text :=
  match s with
  | [] => []
  | c :: s' =>
      match skip with
      | S k => replace_from old new k s'
      | O =>
          if is_prefix old s
          then new ++ replace_from old new (length old - 1) s'
          else c :: replace_from old new 0 s'
      end
  end.

Definition replace (old new s : text) : text :=
  match old with
  | [] => new ++ flat_map (fun c => c :: new) s
  | _ => replace_from old new 0 s
  end.

(** [s.split(sep)] for a non-empty separator. *)
Fixpoint split_from (sep : text) (skip : nat) (s : text) : list text :=
  match s with
  | [] => [[]]
  | c :: s' =>
      match skip with
      | S k => split_from sep k s'
      | O =>
          if is_prefix sep s
          then [] :: split_from sep (length sep - 1) s'
          else match split_from sep 0 s' with
               | h :: t => (c :: h) :: t
               | [] => [[c]]
               end
      end
  end.

Definition split (s sep : text) : list text := split_from sep 0 s.

(** [sep.join(parts)] *)
Fixpoint join (sep : text) (parts : list text) : text :=
  match parts with
  | [] => []
  | [p] => p
  | p :: rest => p ++ sep ++ join sep rest
  end.

Definition is_space (c : ascii) : bool :=
  let n := nat_of_ascii c in
  (((9 <=? n) && (n <=? 13)) || ((28 <=? n) && (n <=? 32)))%nat.

Definition is_digit (c : ascii) : bool :=
  let n := nat_of_ascii c in ((48 <=? n) && (n <=? 57))%nat.

Definition upper (c : ascii) : ascii :=
  let n := nat_of_ascii c in
  if ((97 <=? n) && (n <=? 122))%nat then ascii_of_nat (n - 32) else c.

Definition lower (c : ascii) : ascii :=
  let n := nat_of_ascii c in
  if ((65 <=? n) && (n <=? 90))%nat then ascii_of_nat (n + 32) else c.

Fixpoint lstrip (s : text) : text :=
  match s with
  | c :: s' => if is_space c then lstrip s' else s
  | [] => []
  end.

(** [s.strip()] *)
Definition strip (s : text) : text := rev (lstrip (rev (lstrip s))).

(** Iterating over an open text file: the lines, each with its newline. *)
Fixpoint readlines (s : text) : list text :=
  match s with
  | [] => []
  | c :: s' =>
      if eqc c "010"
      then [c] :: readlines s'
      else match readlines s' with
           | l :: ls => (c :: l) :: ls
           | [] => [[c]]
           end
  end.

End Py.

(** ** The fragment of Python's [re] that the script uses

    Literals, the classes [.], [\s] and [\d], greedy and lazy stars of a
    class ([.*], [.*?]), sequence, alternation, capture groups and [^],
    under the flags [re.IGNORECASE] and [re.DOTALL].  Matching is by
    backtracking in Python's order, so the match found and its groups are
    the ones [re] reports. *)
Module Re.

Inductive cclass := CAny | CSpace | CDigit.

Inductive regex :=
| Lit (l : text)
| Cls (c : cclass)
| Star (greedy : bool) (c : cclass)
| Seq (r1 r2 : regex)
| Alt (r1 r2 : regex)
| Grp (n : nat) (r : regex)
| Bol.

Record flags := { ignorecase : bool; dotall : bool }.
Definition no_flags := {| ignorecase := false; dotall := false |}.
Definition IGNORECASE := {| ignorecase := true; dotall := false |}.
Definition DOTALL := {| ignorecase := false; dotall := true |}.

(** The integer value of [re.IGNORECASE], what it means where a count is
    expected. *)
Definition IGNORECASE_value : nat := 2.

Definition chr_eq (fl : flags) (a b : ascii) : bool :=
  if ignorecase fl then Py.eqc (Py.lower a) (Py.lower b) else Py.eqc a b.

Definition cls_ok (fl : flags) (c : cclass) (a : ascii) : bool :=
  match c with
  | CAny => dotall fl || negb (Py.eqc a "010")
  | CSpace => Py.is_space a
  | CDigit => Py.is_digit a
  end.

(** Captured groups: group number, start and end position. *)
Definition caps := list (nat * (nat * nat)).
Definition cont := nat -> text -> caps -> option (nat * caps).

Fixpoint lit_match (fl : flags) (l s : text) : option text :=
  match l, s with
  | [], _ => Some s
  | _ :: _, [] => None
  | a :: l', b :: s' => if chr_eq fl a b then lit_match fl l' s' else None
  end.

Fixpoint star_match (fl : flags) (greedy : bool) (c : cclass) (k : cont)
    (i : nat) (s : text) (cs : caps) : option (nat * caps) :=
  match s with
  | [] => k i [] cs
  | a :: s' =>
      if cls_ok fl c a then
        if greedy then
          match star_match fl greedy c k (S i) s' cs with
          | Some r => Some r
          | None => k i s cs
          end
        else
          match k i s cs with
          | Some r => Some r
          | None => star_match fl greedy c k (S i) s' cs
          end
      else k i s cs
  end.

(** [rmatch fl r i s cs k]: match [r] at position [i], where [s] is the
    rest of the subject, then continue with [k]. *)
Fixpoint rmatch (fl : flags) (r : regex) (i : nat) (s : text) (cs : caps)
    (k : cont) : option (nat * caps) :=
  match r with
  | Lit l =>
      match lit_match fl l s with
      | Some s' => k (i + length l) s' cs
      | None => None
      end
  | Cls c =>
      match s with
      | a :: s' => if cls_ok fl c a then k (S i) s' cs else None
      | [] => None
      end
  | Star g c => star_match fl g c k i s cs
  | Seq r1 r2 =>
      rmatch fl r1 i s cs (fun i' s' cs' => rmatch fl r2 i' s' cs' k)
  | Alt r1 r2 =>
      match rmatch fl r1 i s cs k with
      | Some x => Some x
      | None => rmatch fl r2 i s cs k
      end
  | Grp n r' =>
      rmatch fl r' i s cs (fun i' s' cs' => k i' s' ((n, (i, i')) :: cs'))
  | Bol => if (i =? 0)%nat then k i s cs else None
  end.

(** A sequence of regexes, as they are written side by side. *)
Fixpoint cat (rs : list regex) : regex :=
  match rs with
  | [] => Lit []
  | [r] => r
  | r :: rs' => Seq r (cat rs')
  end.

Definition accept : cont := fun i _ cs => Some (i, cs).

(** A match object: where the match starts and ends, and its groups. *)
Record mobj := { m_start : nat; m_end : nat; m_caps : caps }.

Definition match_at (fl : flags) (r : regex) (i : nat) (s : text)
    : option mobj :=
  match rmatch fl r i s [] accept with
  | Some (e, cs) => Some {| m_start := i; m_end := e; m_caps := cs |}
  | None => None
  end.

Fixpoint lookup_cap (n : nat) (cs : caps) : option (nat * nat) :=
  match cs with
  | [] => None
  | (g, be) :: rest => if (g =? n)%nat then Some be else lookup_cap n rest
  end.

Definition slice (b e : nat) (s : text) : text := take (e - b) (drop b s).

(** [m.group(n)], [None] for a group that took no part in the match. *)
Definition group (subject : text) (m : mobj) (n : nat) : option text :=
  match lookup_cap n (m_caps m) with
  | Some (b, e) => Some (slice b e subject)
  | None => None
  end.

(** [m.group(0)] *)
Definition whole (subject : text) (m : mobj) : text :=
  slice (m_start m) (m_end m) subject.

(** [pattern.match(s)]: at the start only. *)
Definition match_ (fl : flags) (r : regex) (s : text) : option mobj :=
  match_at fl r 0 s.

Fixpoint search_from (fl : flags) (r : regex) (i : nat) (s : text)
    : option mobj :=
  match match_at fl r i s with
  | Some m => Some m
  | None =>
      match s with
      | [] => None
      | _ :: s' => search_from fl r (S i) s'
      end
  end.

(** [re.search(r, s, flags)]: the leftmost match. *)
Definition search (fl : flags) (r : regex) (s : text) : option mobj :=
  search_from fl r 0 s.

(** The successive matches that [re.findall] and [re.sub] visit: leftmost
    first, each search resuming where the last match ended. *)
Fixpoint matches_from (fl : flags) (r : regex) (skip i : nat) (s : text)
    : list mobj :=
  match skip with
  | S k =>
      match s with
      | [] => []
      | _ :: s' => matches_from fl r k (S i) s'
      end
  | O =>
      match match_at fl r i s with
      | Some m =>
          m :: match s with
               | [] => []
               | _ :: s' => matches_from fl r (m_end m - i - 1) (S i) s'
               end
      | None =>
          match s with
          | [] => []
          | _ :: s' => matches_from fl r 0 (S i) s'
          end
      end
  end.

Definition finditer (fl : flags) (r : regex) (s : text) : list mobj :=
  matches_from fl r 0 0 s.

(** [re.findall] for a pattern with exactly one group, and for a pattern
    with several ([ngroups]), where a group that took no part is [''] . *)
Definition findall1 (fl : flags) (r : regex) (s : text) : list text :=
  map (fun m => default [] (group s m 1)) (finditer fl r s).

Definition findall0 (fl : flags) (r : regex) (s : text) : list text :=
  map (whole s) (finditer fl r s).

Definition findall_groups (fl : flags) (r : regex) (ngroups : nat)
    (s : text) : list (list text) :=
  map (fun m => map (fun n => default [] (group s m n)) (seq 1 ngroups))
      (finditer fl r s).

(** [re.sub(r, repl, s, count, flags)] for a replacement text without
    backslashes; [count = 0] replaces every match. *)
Fixpoint sub_matches (repl : text) (ms : list mobj) (i : nat) (s : text)
    : text :=
  match ms with
  | [] => s
  | m :: ms' =>
      take (m_start m - i) s ++ repl
        ++ sub_matches repl ms' (m_end m) (drop (m_end m - i) s)
  end.

Definition sub (fl : flags) (r : regex) (repl s : text) (count : nat)
    : text :=
  let ms := finditer fl r s in
  let ms := match count with O => ms | _ => take count ms end in
  sub_matches repl ms 0 s.

End Re.


(** ** Content Transformer: the rewrite passes of [get_body] *)
Module Transformer.
Import Re.

(** [upper_chars(string, indices)] *)
Definition upper_chars (string : text) (indices : list nat) : text :=
  imap (fun i c => if bool_decide (i ∈ indices) then Py.upper c else c)
       string.

(** [<.*?>] *)
Definition any_tag : regex := cat [Lit "<"; Star false CAny; Lit ">"].
(** [<(em|strong)>] *)
Definition em_strong : regex :=
  cat [Lit "<"; Grp 1 (Alt (Lit "em") (Lit "strong")); Lit ">"].

(** The eight label patterns of [strip_type], [tagtype] spliced in. *)
Definition label_res (tagtype : text) : list regex :=
  [ cat [any_tag; Lit tagtype; Lit ":"; Cls CSpace; any_tag];
    cat [any_tag; Lit tagtype; Cls CSpace; Lit ":"; Cls CSpace; any_tag];
    cat [em_strong; Lit tagtype; Lit ":"; any_tag; Cls CSpace];
    cat [em_strong; Lit tagtype; Cls CSpace; Lit ":"; any_tag; Cls CSpace];
    cat [em_strong; Lit tagtype; any_tag; Lit ":"; Cls CSpace];
    cat [em_strong; Lit tagtype; Cls CSpace; any_tag; Lit ":"; Cls CSpace] ].

(** [strip_type(tag, tagtype)].  Every [re.sub] call passes
    [re.IGNORECASE] as its fourth positional argument, which is [count]:
    the substitutions are case-sensitive and replace at most two matches. *)
Definition strip_type (tag tagtype : text) : result text :=
  let count := IGNORECASE_value in
  let tag := sub no_flags (cat [Lit tagtype; Lit ":"; Cls CSpace]) ""
                 (Py.strip tag) count in
  let tag := sub no_flags
                 (cat [Lit tagtype; Cls CSpace; Lit ":"; Cls CSpace]) ""
                 (Py.strip tag) count in
  let tag := fold_left (fun tag r => sub no_flags r "" tag count)
                       (label_res tagtype) tag in
  string_start ← of_option AttributeError (search no_flags any_tag tag);
  mret (upper_chars tag [m_end string_start]).

Definition toc_param (name value : text) : text :=
  "      <ac:parameter ac:name=" ++ dq ++ name ++ dq ++ ">" ++ value
    ++ "</ac:parameter>" ++ nl.

Definition toc_tag : text :=
  "<p>" ++ nl
  ++ "    <ac:structured-macro ac:name=" ++ dq ++ "toc" ++ dq ++ ">" ++ nl
  ++ toc_param "printable" "true"
  ++ toc_param "style" "disc"
  ++ toc_param "maxLevel" "7"
  ++ toc_param "minLevel" "1"
  ++ toc_param "type" "list"
  ++ toc_param "outline" "clear"
  ++ toc_param "include" ".*"
  ++ "    </ac:structured-macro>" ++ nl
  ++ "    </p>".

(** [convert_doctoc(html)] *)
Definition convert_doctoc (html : text) : text :=
  sub DOTALL
      (cat [Lit "<!-- START doctoc"; Star true CAny; Lit "END doctoc -->"])
      toc_tag html 0.

Definition info_tag : text :=
  "<p><ac:structured-macro ac:name=" ++ dq ++ "info" ++ dq
    ++ "><ac:rich-text-body><p>".
Definition note_tag : text := Py.replace "info" "note" info_tag.
Definition warning_tag : text := Py.replace "info" "warning" info_tag.
Definition close_tag : text :=
  "</p></ac:rich-text-body></ac:structured-macro></p>".

(** One turn of the loop over the block quotes. *)
Definition convert_quote (html quote : text) : result text :=
  let note := search IGNORECASE
                (cat [Bol; Lit "<"; Star true CAny; Lit ">"; Lit "Note"])
                (Py.strip quote) in
  let warning := search IGNORECASE
                (cat [Bol; Lit "<"; Star true CAny; Lit ">"; Lit "Warning"])
                (Py.strip quote) in
  macro_tag ←
    match note, warning with
    | Some _, _ =>
        clean_tag ← strip_type quote "Note";
        mret (Py.strip (Py.replace "</p>" close_tag
                          (Py.replace "<p>" note_tag clean_tag)))
    | None, Some _ =>
        clean_tag ← strip_type quote "Warning";
        mret (Py.strip (Py.replace "</p>" close_tag
                          (Py.replace "<p>" warning_tag clean_tag)))
    | None, None =>
        mret (Py.strip (Py.replace "</p>" close_tag
                          (Py.replace "<p>" info_tag quote)))
    end;
  mret (Py.replace ("<blockquote>" ++ quote ++ "</blockquote>") macro_tag
                   html).

Fixpoint convert_quotes (html : text) (quotes : list text) : result text :=
  match quotes with
  | [] => Ok html
  | quote :: rest => html' ← convert_quote html quote; convert_quotes html' rest
  end.

(** [convert_info_macros(html)] *)
Definition convert_info_macros (html : text) : result text :=
  let html := Py.replace "?~</p>" close_tag (Py.replace "<p>~?" info_tag html) in
  let html := Py.replace "!~</p>" close_tag (Py.replace "<p>~!" note_tag html) in
  let html := Py.replace "%~</p>" close_tag
                (Py.replace "<p>~%" warning_tag html) in
  let quotes :=
    findall1 DOTALL
      (cat [Lit "<blockquote>"; Grp 1 (Star false CAny); Lit "</blockquote>"])
      html in
  html ← convert_quotes html quotes;
  mret (convert_doctoc html).

(** [convert_comment_block(html)] *)
Definition convert_comment_block (html : text) : text :=
  Py.replace "-->" "</ac:placeholder>"
    (Py.replace "<!--" "<ac:placeholder>" html).

Definition macro_param (name value : text) : text :=
  "<ac:parameter ac:name=" ++ dq ++ name ++ dq ++ ">" ++ value
    ++ "</ac:parameter>".

(** The entity decoding at the end of the loop body of
    [convert_code_block]. *)
Definition decode_entities (conf_ml : text) : text :=
  Py.replace "&amp;" "&"
    (Py.replace ("&quot;") dq
       (Py.replace "&gt;" ">" (Py.replace "&lt;" "<" conf_ml))).

(** The three patterns of [convert_code_block]: a code region, the class
    attribute of a code element, and a code region with its content as
    group 1. *)
Definition code_block_re : regex :=
  cat [Lit "<pre><code"; Star false CAny; Lit ">"; Star false CAny;
       Lit "</code></pre>"].

Definition lang_re : regex :=
  cat [Lit ("code class=" ++ dq); Grp 1 (Star true CAny); Lit dq].

Definition code_content_re : regex :=
  cat [Lit "<pre><code"; Star false CAny; Lit ">"; Grp 1 (Star false CAny);
       Lit "</code></pre>"].

(** The macro built for one [<pre><code>] region. *)
Definition code_macro (tag : text) : result text :=
  let conf_ml := "<ac:structured-macro ac:name=" ++ dq ++ "code" ++ dq ++ ">" in
  let conf_ml := conf_ml ++ macro_param "theme" "Midnight" in
  let conf_ml := conf_ml ++ macro_param "linenumbers" "true" in
  let lang :=
    match search no_flags lang_re tag with
    | Some m => default [] (group tag m 1)
    | None => "none"
    end in
  let conf_ml := conf_ml ++ macro_param "language" lang in
  m ← of_option AttributeError (search DOTALL code_content_re tag);
  let content := default [] (group tag m 1) in
  let content := "<ac:plain-text-body><![CDATA[" ++ content
                   ++ "]]></ac:plain-text-body>" in
  let conf_ml := conf_ml ++ content ++ "</ac:structured-macro>" in
  mret (decode_entities conf_ml).

Fixpoint convert_code_tags (html : text) (code_blocks : list text)
    : result text :=
  match code_blocks with
  | [] => Ok html
  | tag :: rest =>
      conf_ml ← code_macro tag;
      convert_code_tags (Py.replace tag conf_ml html) rest
  end.

(** [convert_code_block(html)] *)
Definition convert_code_block (html : text) : result text :=
  let code_blocks := findall0 DOTALL code_block_re html in
  convert_code_tags html code_blocks.

(** The footnote-definition pattern of [process_refs]: a newline (groups
    1, 2) or [<p>] (groups 3, 4), then a caret-and-digit marker in square
    brackets and the rest of the line. *)
Definition refs_re : regex :=
  Alt (cat [Lit nl; Grp 1 (cat [Lit "[^"; Grp 2 (Cls CDigit); Lit "]";
                                Star true CAny])])
      (cat [Lit "<p>"; Grp 3 (cat [Lit "[^"; Grp 4 (Cls CDigit); Lit "]";
                                   Star true CAny])]).

Definition href_re : regex :=
  cat [Lit ("href=" ++ dq); Grp 1 (Star false CAny); Lit dq].

Definition superscript (href ref_id : text) : text :=
  "<a id=" ++ dq ++ "test" ++ dq ++ " href=" ++ dq ++ href ++ dq
    ++ "><sup>" ++ ref_id ++ "</sup></a>".

(** One turn of the loop of [process_refs]; [ref] is the tuple of the four
    groups. *)
Definition process_ref (html : text) (ref : list text) : result text :=
  let ref0 := nth 0 ref [] in
  let '(full_ref, ref_id) :=
    if negb (bool_decide (ref0 = []))
    then (Py.replace "<p>" "" (Py.replace "</p>" "" ref0), nth 1 ref [])
    else (nth 2 ref [], nth 3 ref []) in
  let full_ref := Py.replace "<p>" "" (Py.replace "</p>" "" full_ref) in
  let html := Py.replace full_ref "" html in
  m ← of_option AttributeError (search no_flags href_re full_ref);
  let href := default [] (group full_ref m 1) in
  mret (Py.replace ("[^" ++ ref_id ++ "]") (superscript href ref_id) html).

Fixpoint process_ref_list (html : text) (refs : list (list text))
    : result text :=
  match refs with
  | [] => Ok html
  | ref :: rest => html' ← process_ref html ref; process_ref_list html' rest
  end.

(** [process_refs(html)] *)
Definition process_refs (html : text) : result text :=
  process_ref_list html (findall_groups no_flags refs_re 4 html).

(** The passes of [get_body] after the markdown rendering. *)
Definition convert (html : text) : result text :=
  html ← convert_info_macros html;
  let html := convert_comment_block html in
  html ← convert_code_block html;
  process_refs html.

End Transformer.


(** ** The file system

    A tree of named entries, in creation order.  A path string denotes the
    list of its components; empty components and [.] are dropped, as the
    kernel does ([..] and symbolic links are not modelled).  File contents
    are the text Python reads in text mode. *)
Module Fs.

#[local] Set Warnings "-register-all".
Inductive node :=
| File (content : text)
| Dir (entries : list (text * node)).

Definition path := list (list ascii).

Definition real_comp (c : text) : bool :=
  negb (bool_decide (c = [])) && negb (bool_decide (c = "." :> list ascii)).

Definition comps (p : text) : path := filter real_comp (Py.split p "/").

(** A path that ends in a slash or in [.] can only name a directory; the
    empty path names nothing. *)
Definition dir_only (p : text) : bool :=
  negb (real_comp (List.last (Py.split p "/") [])).

Fixpoint assoc (x : text) (es : list (text * node)) : option node :=
  match es with
  | [] => None
  | (y, n) :: es' => if bool_decide (x = y) then Some n else assoc x es'
  end.

Fixpoint set_entry (x : text) (v : node) (es : list (text * node))
    : list (text * node) :=
  match es with
  | [] => [(x, v)]
  | (y, n) :: es' =>
      if bool_decide (x = y) then (x, v) :: es' else (y, n) :: set_entry x v es'
  end.

Fixpoint lookup (p : path) (n : node) : option node :=
  match p with
  | [] => Some n
  | x :: p' =>
      match n with
      | Dir es => match assoc x es with
                  | Some m => lookup p' m
                  | None => None
                  end
      | File _ => None
      end
  end.

Definition isfile (fs : node) (p : text) : bool :=
  negb (dir_only p) &&
  match lookup (comps p) fs with Some (File _) => true | _ => false end.

Definition isdir (fs : node) (p : text) : bool :=
  negb (bool_decide (p = [])) &&
  match lookup (comps p) fs with Some (Dir _) => true | _ => false end.

(** [open(p).read()] *)
Definition read_file (fs : node) (p : text) : result text :=
  if dir_only p then Raise OSError
  else match lookup (comps p) fs with
       | Some (File c) => Ok c
       | _ => Raise OSError
       end.

Fixpoint mkchain (p : path) : node :=
  match p with
  | [] => Dir []
  | x :: p' => Dir [(x, mkchain p')]
  end.

(** [os.makedirs]: the missing directories of [p] are created; it is an
    error for [p] to exist already or to pass through a file. *)
Fixpoint makedirs_at (p : path) (n : node) : option node :=
  match n with
  | File _ => None
  | Dir es =>
      match p with
      | [] => None
      | x :: p' =>
          match assoc x es with
          | Some m =>
              match makedirs_at p' m with
              | Some m' => Some (Dir (set_entry x m' es))
              | None => None
              end
          | None => Some (Dir (set_entry x (mkchain p') es))
          end
      end
  end.

Definition makedirs (fs : node) (p : text) : result node :=
  if bool_decide (p = []) then Raise OSError
  else of_option OSError (makedirs_at (comps p) fs).

(** Writing a file: its directory must exist, and the name must be free or
    name a file. *)
Fixpoint write_at (p : path) (c : text) (n : node) : option node :=
  match n with
  | File _ => None
  | Dir es =>
      match p with
      | [] => None
      | x :: p' =>
          match p' with
          | [] =>
              match assoc x es with
              | Some (Dir _) => None
              | _ => Some (Dir (set_entry x (File c) es))
              end
          | _ :: _ =>
              match assoc x es with
              | Some m =>
                  match write_at p' c m with
                  | Some m' => Some (Dir (set_entry x m' es))
                  | None => None
                  end
              | None => None
              end
          end
      end
  end.

Definition write_file (fs : node) (p c : text) : result node :=
  if dir_only p then Raise OSError
  else of_option OSError (write_at (comps p) c fs).

(** [os.path.join(a, b)], [os.path.basename(p)] on POSIX. *)
Definition os_path_join (a b : text) : text :=
  if Py.startswith b "/" then b
  else if bool_decide (a = []) || Py.endswith a "/" then a ++ b
  else a ++ "/" ++ b.

Definition basename (p : text) : text := List.last (Py.split p "/") [].

(** [shutil.copy(src, dst)] *)
Definition copy (fs : node) (src dst : text) : result node :=
  let dst := if isdir fs dst then os_path_join dst (basename src) else dst in
  if bool_decide (comps src = comps dst) then Raise OSError
  else content ← read_file fs src; write_file fs dst content.

Definition dirnames (es : list (text * node)) : list text :=
  omap (fun e => match e.2 with Dir _ => Some e.1 | File _ => None end) es.

Definition filenames (es : list (text * node)) : list text :=
  omap (fun e => match e.2 with File _ => Some e.1 | Dir _ => None end) es.

(** [os.walk(top)], top-down: a directory, then the walk of each of its
    subdirectories. *)
Fixpoint walk_node (top : text) (n : node)
    : list (text * list text * list text) :=
  match n with
  | File _ => []
  | Dir es =>
      (top, dirnames es, filenames es)
        :: (fix walk_entries (es : list (text * node)) :=
              match es with
              | [] => []
              | (name, child) :: es' =>
                  walk_node (os_path_join top name) child ++ walk_entries es'
              end) es
  end.

Definition walk (fs : node) (top : text)
    : list (text * list text * list text) :=
  match lookup (comps top) fs with
  | Some n => walk_node top n
  | None => []
  end.

End Fs.

(** ** Hierarchy Planner *)
Module Planner.
Import Fs.

(** The Index Entry pattern: a star, a space, a bracketed title and a
    parenthesised path, anchored at the start of the line. *)
Definition index_entry : Re.regex :=
  Re.cat [Re.Bol; Re.Lit "* ["; Re.Star true Re.CAny; Re.Lit "]("; 
          Re.Grp 1 (Re.Star true Re.CAny); Re.Lit ")"].

(** The loop of [is_index_file]: the first line that does not match ends
    it with [False]. *)
Fixpoint all_lines_match (lines : list text) : bool :=
  match lines with
  | [] => true
  | line :: rest =>
      if negb (bool_decide (is_Some (Re.match_ Re.no_flags index_entry line)))
      then false
      else all_lines_match rest
  end.

(** [is_index_file(file_path)] *)
Definition is_index_file (fs : node) (file_path : text) : result bool :=
  try_exit (content ← read_file fs file_path;
            mret (all_lines_match (Py.readlines content))).

(** [get_subfolder_name(file_name)] *)
Definition get_subfolder_name (file_name : text) : text :=
  let file_name :=
    if Py.endswith file_name ".md" then Py.drop_last 12 file_name
    else file_name in
  Py.replace " " "_" file_name.

Section WithWorkFolder.
Variable WORK_FOLDER : text.

Definition PLAN_FOLDER : text := os_path_join WORK_FOLDER "plan".

(** [check_plan_requirements()] *)
Definition check_plan_requirements (fs : node) : result node :=
  let index_file := os_path_join WORK_FOLDER "index.md" in
  if negb (isfile fs index_file) then Exit
  else if isdir fs PLAN_FOLDER then Exit
  else makedirs fs PLAN_FOLDER.

(** The body of the loop of [process_index] for one line; [rec] is the
    recursive call. *)
Definition process_line (rec : node -> text -> text -> result node)
    (fs : node) (file_path line : text) : result node :=
  m ← of_option AttributeError (Re.search Re.no_flags index_entry line);
  let md_file := os_path_join WORK_FOLDER (default [] (Re.group line m 1)) in
  md_file ←
    (if isfile fs md_file then Ok md_file
     else
       let escaped_md_file := Py.replace backslash [] md_file in
       if isfile fs escaped_md_file then Ok escaped_md_file else Exit);
  index ← is_index_file fs md_file;
  if index : bool then
    rec fs (os_path_join file_path (get_subfolder_name (basename md_file)))
        (basename md_file)
  else
    copy fs md_file (os_path_join PLAN_FOLDER file_path).

Fixpoint process_lines (rec : node -> text -> text -> result node)
    (fs : node) (file_path : text) (lines : list text) : result node :=
  match lines with
  | [] => Ok fs
  | line :: rest =>
      fs' ← process_line rec fs file_path line;
      process_lines rec fs' file_path rest
  end.

(** [process_index(file_path, file_name)], with the depth of the recursion
    bounded by [fuel].  The index file is read when it is opened. *)
Fixpoint process_index (fuel : nat) (fs : node) (file_path file_name : text)
    : result node :=
  match fuel with
  | O => OutOfFuel
  | S fuel' =>
      fs ← (if negb (bool_decide (file_path = []))
            then makedirs fs (os_path_join PLAN_FOLDER file_path)
            else Ok fs);
      try_exit
        (content ← read_file fs (os_path_join WORK_FOLDER file_name);
         process_lines (process_index fuel') fs file_path
                       (Py.readlines content))
  end.

(** [plan_import()] *)
Definition plan_import (fuel : nat) (fs : node) : result node :=
  fs ← check_plan_requirements fs;
  process_index fuel fs "" "index.md".

(** [plan_import()] as the interpreter runs it.  Python bounds the depth
    of the call stack: the call that passes the bound raises
    [RecursionError], an [Exception], inside the [try] of the call of
    [process_index] around it, and the [except] clause there ends the run
    with [sys.exit(1)].  [limit] is the number of nested calls of
    [process_index] that the bound leaves room for. *)
Definition plan_import_limited (limit : nat) (fs : node) : result node :=
  match plan_import limit fs with
  | OutOfFuel => Exit
  | r => r
  end.

(** The file that a line of an index names, found as [process_index]
    finds it: the path as written, or with its backslashes removed. *)
Definition resolve (fs : node) (line : text) : option text :=
  match Re.search Re.no_flags index_entry line with
  | Some m =>
      let md_file :=
        os_path_join WORK_FOLDER (default [] (Re.group line m 1)) in
      if isfile fs md_file then Some md_file
      else
        let escaped_md_file := Py.replace backslash [] md_file in
        if isfile fs escaped_md_file then Some escaped_md_file else None
  | None => None
  end.

(** The index-reference relation between resolved files: the index file
    [referrer] has an entry that resolves to the index file [target]. *)
Definition refers (fs : node) (target referrer : text) : Prop :=
  is_index_file fs referrer = Ok true
  /\ exists content line,
      read_file fs referrer = Ok content
      /\ line ∈ Py.readlines content
      /\ resolve fs line = Some target
      /\ is_index_file fs target = Ok true.

(** The relation that the recursion follows: [process_index] opens the
    file named [parent] in the work folder and, for an entry that resolves
    to an index file, calls itself on the base name [child] of that file. *)
Definition follows (fs : node) (child parent : text) : Prop :=
  exists content line md_file,
    read_file fs (os_path_join WORK_FOLDER parent) = Ok content
    /\ line ∈ Py.readlines content
    /\ resolve fs line = Some md_file
    /\ is_index_file fs md_file = Ok true
    /\ child = basename md_file.

End WithWorkFolder.
End Planner.


(** ** Remote Hierarchy Builder

    The Confluence REST service is not part of the script: its four
    requests are variables.  Each returns [None] for a response that is an
    HTTP error or has a status other than 200, and the decoded field the
    script reads otherwise; only the POST changes the remote state [R]. *)
Module Builder.
Import Fs.

Section WithRemote.
Context {R : Type}.
(** GET /rest/api/space/KEY: the [_expandable.homepage] link. *)
Variable GET_space : R -> option text.
(** GET /rest/api/content?title=..&spaceKey=KEY: the ids of the results. *)
Variable GET_by_title : R -> text -> option (list text).
(** GET /rest/api/content/ID?expand=ancestors: the ids of the ancestors. *)
Variable GET_ancestors : R -> text -> option (list text).
(** POST /rest/api/content/: title, body, ancestor; the id of the page. *)
Variable POST_content : R -> text -> text -> text -> option (text * R).
(** [markdown.markdown] with the tables and fenced-code extensions. *)
Variable markdown : text -> text.
Variable WORK_FOLDER : text.

Definition PLAN_FOLDER : text := os_path_join WORK_FOLDER "plan".

(** [get_space_base_id()] *)
Definition get_space_base_id (r : R) : result text :=
  match GET_space r with
  | Some homepage => Ok (drop (length ("/rest/api/content/" : text)) homepage)
  | None => Exit
  end.

(** [is_child(child, ancestor)]: the last ancestor of [child] is compared
    with [child]. *)
Definition is_child (r : R) (child ancestor : text) : result bool :=
  match GET_ancestors r child with
  | None => Ok false
  | Some ancestors =>
      last_ancestor ← of_option IndexError (last ancestors);
      mret (bool_decide (last_ancestor = child))
  end.

Fixpoint first_child (r : R) (results : list text) (ancestor : text)
    : result text :=
  match results with
  | [] => Ok []
  | res :: rest =>
      c ← is_child r res ancestor;
      if c : bool then Ok res else first_child r rest ancestor
  end.

(** [get_page_id(title, ancestor)] *)
Definition get_page_id (r : R) (title ancestor : text) : result text :=
  match GET_by_title r title with
  | None => Ok []
  | Some results => first_child r results ancestor
  end.

(** [create_page(title, body, ancestor)]: the id of the page, and the
    remote state after the call. *)
Definition create_page (r : R) (title body ancestor : text)
    : result (text * R) :=
  existing_id ← get_page_id r title ancestor;
  if negb (bool_decide (existing_id = [])) then Ok (existing_id, r)
  else match POST_content r title body ancestor with
       | Some (page_id, r') => Ok (page_id, r')
       | None => Exit
       end.

(** [get_body(file_path)] *)
Definition get_body (fs : node) (file_path : text) : result text :=
  content ← read_file fs file_path;
  Transformer.convert (markdown content).

(** The ancestor of the page of a directory: the recorded page of the
    path one level up, or the base page for a top-level entry. *)
Definition ancestor_of (confluence_pages : gmap (list ascii) (list ascii))
    (base_id : text) (elems : list text) : result text :=
  if (1 <? length elems)%nat
  then of_option KeyError
         (confluence_pages !! ("/" ++ Py.join "/" (removelast elems)))
  else Ok base_id.

(** The loop over the files of one directory; [body_of] is [get_body]. *)
Fixpoint upload_files (body_of : text -> result text) (r : R)
    (page_id : text) (files : list text) : result R :=
  match files with
  | [] => Ok r
  | md_file :: rest =>
      body ← body_of (os_path_join WORK_FOLDER md_file);
      let file_name := Py.drop_last 12 md_file in
      created ← create_page r file_name body page_id;
      upload_files body_of created.2 page_id rest
  end.

(** One turn of the loop over [os.walk(PLAN_FOLDER)]. *)
Definition visit (body_of : text -> result text) (base_id : text)
    (st : R * gmap (list ascii) (list ascii))
    (entry : text * list text * list text)
    : result (R * gmap (list ascii) (list ascii)) :=
  let '(r, confluence_pages) := st in
  let '(paths, _, files) := entry in
  page_path ← of_option IndexError (Py.split paths PLAN_FOLDER !! 1%nat);
  let elems := tail (Py.split page_path "/") in
  ancestor_id ← ancestor_of confluence_pages base_id elems;
  cur ←
    (if negb (bool_decide (page_path = []))
     then
       title ← of_option IndexError (last elems);
       created ← create_page r title "" ancestor_id;
       mret (created.1, created.2, <[page_path := created.1]> confluence_pages)
     else mret (base_id, r, confluence_pages));
  let '(page_id, r, confluence_pages) := cur in
  r ← upload_files body_of r page_id files;
  mret (r, confluence_pages).

Fixpoint visit_all (body_of : text -> result text) (base_id : text)
    (st : R * gmap (list ascii) (list ascii))
    (entries : list (text * list text * list text))
    : result (R * gmap (list ascii) (list ascii)) :=
  match entries with
  | [] => Ok st
  | entry :: rest =>
      st' ← visit body_of base_id st entry;
      visit_all body_of base_id st' rest
  end.

Definition execute_import_with (body_of : text -> result text) (fs : node)
    (r : R) : result (R * gmap (list ascii) (list ascii)) :=
  base_id ← get_space_base_id r;
  visit_all body_of base_id (r, ∅) (walk fs PLAN_FOLDER).

(** [execute_import()] *)
Definition execute_import (fs : node) (r : R)
    : result (R * gmap (list ascii) (list ascii)) :=
  execute_import_with (get_body fs) fs r.

End WithRemote.
End Builder.

(** ** A remote space

    Modelled from the spec: the remote wiki of section 6, which is an
    external service.  A space is its home page and the pages created under
    it; a page is found by exact title, its ancestors run from the home
    page down to its parent, and creating a page under an existing page
    always succeeds and yields a fresh id. *)
Module Store.

Record page := {
  page_id : text;
  page_title : text;
  page_body : text;
  page_parent : text
}.

Record space := { home_id : text; pages : list page }.

Definition find_page (s : space) (id : text) : option page :=
  List.find (fun p => bool_decide (page_id p = id)) (pages s).

Fixpoint ancestors_upto (fuel : nat) (s : space) (id : text)
    : option (list text) :=
  if bool_decide (id = home_id s) then Some []
  else match fuel with
       | O => None
       | S fuel' =>
           match find_page s id with
           | Some p =>
               match ancestors_upto fuel' s (page_parent p) with
               | Some up => Some (up ++ [page_parent p])
               | None => None
               end
           | None => None
           end
       end.

Definition GET_space (s : space) : option text :=
  Some ("/rest/api/content/" ++ home_id s).

Definition GET_by_title (s : space) (title : text) : option (list text) :=
  Some (map page_id
          (filter (fun p => page_title p = title) (pages s))).

Definition GET_ancestors (s : space) (id : text) : option (list text) :=
  ancestors_upto (length (pages s)) s id.

Definition fresh_id (s : space) : text :=
  "p" ++ list_ascii_of_string (pretty (S (length (pages s)))).

Definition POST_content (s : space) (title body ancestor : text)
    : option (text * space) :=
  match ancestors_upto (length (pages s)) s ancestor with
  | Some _ =>
      let id := fresh_id s in
      Some (id, {| home_id := home_id s;
                   pages := pages s ++ [ {| page_id := id;
                                            page_title := title;
                                            page_body := body;
                                            page_parent := ancestor |} ] |})
  | None => None
  end.

Definition is_child := Builder.is_child GET_ancestors.
Definition get_page_id := Builder.get_page_id GET_by_title GET_ancestors.
Definition create_page :=
  Builder.create_page GET_by_title GET_ancestors POST_content.
Definition upload_files :=
  Builder.upload_files GET_by_title GET_ancestors POST_content.
Definition execute_import :=
  Builder.execute_import GET_space GET_by_title GET_ancestors POST_content.

Definition empty_space : space := {| home_id := "home"; pages := [] |}.

End Store.

(** ** Workspaces and documents used in the statements *)
Module Scenario.
Import Fs.

Definition file (name content : text) : text * node := (name, File content).
Definition dir (name : text) (es : list (text * node)) : text * node :=
  (name, Dir es).

(** A stand-in renderer for closed examples: one paragraph around the
    text.  The statements that hold for every renderer quantify over it. *)
Definition plain_markdown (s : text) : text := "<p>" ++ s ++ "</p>".

(** The workspace of the end-to-end scenario as the spec words it: the
    root index lists a leaf and the index [sub/index.md]. *)
Definition nested_workspace : node :=
  Dir [dir "ws"
         [file "index.md"
               ("* [A](a.md)" ++ nl ++ "* [B](sub/index.md)" ++ nl);
          file "a.md" ("Hello" ++ nl);
          dir "sub" [file "index.md" ("* [C](sub/c.md)" ++ nl);
                     file "c.md" ("World" ++ nl)]]].

(** The same workspace after [check_plan_requirements]. *)
Definition nested_workspace_planned : node :=
  Dir [dir "ws"
         [file "index.md"
               ("* [A](a.md)" ++ nl ++ "* [B](sub/index.md)" ++ nl);
          file "a.md" ("Hello" ++ nl);
          dir "sub" [file "index.md" ("* [C](sub/c.md)" ++ nl);
                     file "c.md" ("World" ++ nl)];
          dir "plan" []]].

(** The flat workspace: every file directly in the work folder, the
    nested index in a file named [B]. *)
Definition flat_workspace : node :=
  Dir [dir "ws"
         [file "index.md" ("* [A](a.md)" ++ nl ++ "* [B](B)" ++ nl);
          file "a.md" ("Hello" ++ nl);
          file "B" ("* [C](c.md)" ++ nl);
          file "c.md" ("World" ++ nl)]].

(** The flat workspace after [check_plan_requirements]. *)
Definition flat_workspace_ready : node :=
  Dir [dir "ws"
         [file "index.md" ("* [A](a.md)" ++ nl ++ "* [B](B)" ++ nl);
          file "a.md" ("Hello" ++ nl);
          file "B" ("* [C](c.md)" ++ nl);
          file "c.md" ("World" ++ nl);
          dir "plan" []]].

Definition flat_plan : node :=
  Dir [file "a.md" ("Hello" ++ nl); dir "B" [file "c.md" ("World" ++ nl)]].

Definition flat_workspace_planned : node :=
  Dir [dir "ws"
         [file "index.md" ("* [A](a.md)" ++ nl ++ "* [B](B)" ++ nl);
          file "a.md" ("Hello" ++ nl);
          file "B" ("* [C](c.md)" ++ nl);
          file "c.md" ("World" ++ nl);
          ("plan" : text, flat_plan)]].

(** A planned workspace in which the leaf of the plan came from
    [sub/c.md] while another [c.md] lies in the work folder. *)
Definition shadowed_workspace : node :=
  Dir [dir "ws"
         [file "index.md" ("* [C](sub/c.md)" ++ nl);
          file "c.md" ("outer" ++ nl);
          dir "sub" [file "c.md" ("inner" ++ nl)]]].

(** The first copy of the loop has been made. *)
Definition nested_workspace_copied : node :=
  Dir [dir "ws"
         [file "index.md"
               ("* [A](a.md)" ++ nl ++ "* [B](sub/index.md)" ++ nl);
          file "a.md" ("Hello" ++ nl);
          dir "sub" [file "index.md" ("* [C](sub/c.md)" ++ nl);
                     file "c.md" ("World" ++ nl)];
          dir "plan" [file "a.md" ("Hello" ++ nl)]]].

Definition shadowed_workspace_planned : node :=
  Dir [dir "ws"
         [file "index.md" ("* [C](sub/c.md)" ++ nl);
          file "c.md" ("outer" ++ nl);
          dir "sub" [file "c.md" ("inner" ++ nl)];
          dir "plan" [file "c.md" ("inner" ++ nl)]]].

(** A space that already holds the container page B under its home. *)
Definition space_with_B : Store.space :=
  {| Store.home_id := "home";
     Store.pages := [ {| Store.page_id := "p1"; Store.page_title := "B";
                         Store.page_body := "";
                         Store.page_parent := "home" |} ] |}.

Definition blockquote (inner : text) : text :=
  "<blockquote>" ++ nl ++ inner ++ nl ++ "</blockquote>".

(** A [<pre><code>] region with the given attribute text and body. *)
Definition code_region (attrs body : text) : text :=
  "<pre><code" ++ attrs ++ ">" ++ body ++ "</code></pre>".

Definition class_attr (cls : text) : text :=
  " class=" ++ dq ++ cls ++ dq.

(** The code macro for a language and a literal body. *)
Definition code_macro_text (lang body : text) : text :=
  "<ac:structured-macro ac:name=" ++ dq ++ "code" ++ dq ++ ">"
  ++ Transformer.macro_param "theme" "Midnight"
  ++ Transformer.macro_param "linenumbers" "true"
  ++ Transformer.macro_param "language" lang
  ++ "<ac:plain-text-body><![CDATA[" ++ body
  ++ "]]></ac:plain-text-body></ac:structured-macro>".

(** The entity escaping that the code-block pass undoes, restricted to
    the characters of [live]; [html_escape] escapes all four. *)
Definition escape_in (live : list ascii) (c : ascii) : text :=
  if existsb (Py.eqc c) live then
    if Py.eqc c "&" then "&amp;"
    else if Py.eqc c "<" then "&lt;"
    else if Py.eqc c ">" then "&gt;"
    else if Py.eqc c dqc then "&quot;"
    else [c]
  else [c].

Definition escape (live : list ascii) (s : text) : text :=
  flat_map (escape_in live) s.
Arguments escape : simpl never.

Definition html_escape (s : text) : text :=
  escape ["&"; "<"; ">"; dqc]%char s.

(** A paragraph with a footnote marker, followed by the paragraph that
    defines the footnote. *)
Definition footnote_doc (before ref_id after href label : text) : text :=
  "<p>" ++ before ++ "[^" ++ ref_id ++ "]" ++ after ++ "</p>" ++ nl
  ++ "<p>[^" ++ ref_id ++ "]: <a href=" ++ dq ++ href ++ dq ++ ">" ++ label
  ++ "</a></p>".

Definition footnote_done (before ref_id after href : text) : text :=
  "<p>" ++ before ++ Transformer.superscript href ref_id ++ after ++ "</p>"
  ++ nl ++ "<p></p>".

End Scenario.

(** The Index Entry as the spec writes it: a star, a space, the title in
    square brackets and the path in parentheses, neither running over a
    line end; the line may go on after the closing parenthesis. *)
Definition no_newline (s : list ascii) : Prop :=
  Forall (fun c => c <> "010"%char) s.
Definition index_entry_shape (line : list ascii) : Prop :=
  exists title path rest,
    line = "* [" ++ title ++ "](" ++ path ++ ")" ++ rest
    /\ no_newline title /\ no_newline path.

(** ** Predicates used in the statements about the builder *)

(** The first piece of [s.split(sep)]. *)
Definition first_piece (sep s : list ascii) : list ascii :=
  hd [] (Py.split s sep).

Definition no_slash (x : list ascii) : Prop :=
  Forall (fun c => c <> "/"%char) x.

(** The path of a directory below the plan folder, from the names on the
    way down. *)
Definition relpath (names : list (list ascii)) : list ascii :=
  flat_map (fun n => "/"%char :: n) names.

(** A name that a directory entry can bear: not empty, no slash. *)
Definition valid_name (x : list ascii) : bool :=
  negb (bool_decide (x = [])) && forallb (fun c => negb (Py.eqc c "/")) x.

Fixpoint names_ok (n : Fs.node) : bool :=
  match n with
  | Fs.File _ => true
  | Fs.Dir es =>
      (fix entries_ok (es : list (list ascii * Fs.node)) : bool :=
         match es with
         | [] => true
         | (x, m) :: es' => valid_name x && names_ok m && entries_ok es'
         end) es
  end.

(** A result that is not the [KeyError] of a failed dictionary lookup. *)
Definition safe {A} (r : result A) : Prop := r <> Raise KeyError.

Definition grows (m m' : gmap (list ascii) (list ascii)) : Prop :=
  forall k, is_Some (m !! k) -> is_Some (m' !! k).

(** The page-record map holds the page path of every directory strictly
    above [names] (and of [names] itself, for [recorded_upto]) whose page
    path is its path below the plan folder [plan]. *)
Definition recorded_below (plan : list ascii) (names : list (list ascii))
    (pages : gmap (list ascii) (list ascii)) : Prop :=
  forall pre suf,
    names = pre ++ suf -> pre <> [] -> suf <> [] ->
    first_piece plan (relpath pre) = relpath pre ->
    is_Some (pages !! relpath pre).

Definition recorded_upto (plan : list ascii) (names : list (list ascii))
    (pages : gmap (list ascii) (list ascii)) : Prop :=
  recorded_below plan names pages
  /\ (names <> [] -> first_piece plan (relpath names) = relpath names ->
      is_Some (pages !! relpath names)).

(** ** The pages that a run posts *)

(** A remote that keeps the list of the pages posted: title, body and
    ancestor of each POST, in order. *)
Definition post_log := list (list ascii * list ascii * list ascii).

Definition view {R X} (GET : R -> X) (st : R * post_log) : X := GET st.1.

Definition logged {R}
    (POST : R -> list ascii -> list ascii -> list ascii -> option (list ascii * R))
    (st : R * post_log) (title body ancestor : list ascii)
    : option (list ascii * (R * post_log)) :=
  match POST st.1 title body ancestor with
  | Some (id, r') => Some (id, (r', st.2 ++ [(title, body, ancestor)]))
  | None => None
  end.

(** What the builder may post for the files [files]: the transformed
    content of the file of that name in the work folder, under the name
    less its last twelve characters. *)
Definition leaf_post (body_of : list ascii -> result (list ascii))
    (WORK_FOLDER : list ascii) (files : list (list ascii))
    (e : list ascii * list ascii * list ascii) : Prop :=
  exists md_file,
    md_file ∈ files
    /\ body_of (Fs.os_path_join WORK_FOLDER md_file) = Ok e.1.2
    /\ e.1.1 = Py.drop_last 12 md_file.


(** The three pages of the flat scenario, in the order of creation. *)
Definition flat_pages (title_a body_a title_c body_c : list ascii)
    : list Store.page :=
  [ {| Store.page_id := "p1"; Store.page_title := title_a;
       Store.page_body := body_a; Store.page_parent := "home" |};
    {| Store.page_id := "p2"; Store.page_title := "B";
       Store.page_body := []; Store.page_parent := "home" |};
    {| Store.page_id := "p3"; Store.page_title := title_c;
       Store.page_body := body_c; Store.page_parent := "p2" |} ].


(** ** Predicates used in the statements about the planner *)

(** A path that does not start at the root. *)
Definition nostart (p : list ascii) : Prop :=
  Py.startswith p ["/"%char] = false.

(** A path strictly below the plan folder. *)
Definition under (plan : Fs.path) (p : Fs.path) : Prop :=
  exists r, r <> [] /\ p = plan ++ r.

Definition nonindex (c : list ascii) : Prop :=
  Planner.all_lines_match (Py.readlines c) = false.

(** What planning keeps of the workspace [ws]: a file of the current tree
    is a file of [ws], or a leaf copied below the plan folder; and a file
    of [ws] is still a file. *)
Definition kept (plan : Fs.path) (ws fs : Fs.node) : Prop :=
  (forall p c, Fs.lookup p fs = Some (Fs.File c) ->
     Fs.lookup p ws = Some (Fs.File c) \/ (under plan p /\ nonindex c))
  /\ (forall p c, Fs.lookup p ws = Some (Fs.File c) ->
        exists c', Fs.lookup p fs = Some (Fs.File c')).

(** More fuel does not change a result that was reached. *)
Definition mono (rec1 rec2 : Fs.node -> list ascii -> list ascii -> result Fs.node)
    : Prop :=
  forall fs fp nm, rec1 fs fp nm <> OutOfFuel -> rec2 fs fp nm = rec1 fs fp nm.

(** The call returns with some fuel, and keeps the workspace. *)
Definition finishes (W : list ascii) (ws fs : Fs.node)
    (fp name : list ascii) : Prop :=
  exists n r, Planner.process_index W n fs fp name = r
              /\ r <> OutOfFuel
              /\ forall fs', r = Ok fs' ->
                   kept (Fs.comps (Planner.PLAN_FOLDER W)) ws fs'.

(** ** Predicates used in the statements about code blocks *)

(** [pat in s] *)
Fixpoint occurs (pat s : list ascii) : bool :=
  match s with
  | [] => Py.is_prefix pat []
  | _ :: s' => Py.is_prefix pat s || occurs pat s'
  end.

(** No character of [s] is [c]. *)
Definition lacks (c : ascii) (s : list ascii) : Prop := Forall (fun x => x <> c) s.

(** The suffixes of [a], each followed by [s]. *)
Definition tails_fail (P : list ascii -> Prop) (a s : list ascii) : Prop :=
  forall u t, a = u ++ t -> t <> [] -> P (t ++ s).

(** A class attribute value that the patterns read back whole. *)
Definition class_ok (cls : list ascii) : Prop :=
  Forall (fun c => c <> ">"%char /\ c <> "&"%char /\ c <> "010"%char) cls.

(** ** Predicates used in the statements about footnotes *)

(** Text that holds no tag, no bracket, no line end and no quote. *)
Definition plain (s : list ascii) : Prop :=
  Forall (fun c => c <> "<"%char /\ c <> "["%char /\ c <> "010"%char
                   /\ c <> dqc) s.

(** The full text of the footnote definition that [process_refs] works
    with: group 1 or group 3 of the pattern, without paragraph tags. *)
Definition ref_text (ref : list (list ascii)) : list ascii :=
  let ref0 := nth 0 ref [] in
  let full_ref :=
    if negb (bool_decide (ref0 = []))
    then Py.replace "<p>" "" (Py.replace "</p>" "" ref0)
    else nth 2 ref [] in
  Py.replace "<p>" "" (Py.replace "</p>" "" full_ref).

(** ** Predicates used in the statements about page reuse *)

(** No page is listed as its own parent. *)
Definition no_self_parent {R : Type}
    (GET_ancestors : R -> list ascii -> option (list (list ascii))) (r : R)
    : Prop :=
  forall id ancestors,
    GET_ancestors r id = Some ancestors -> last ancestors <> Some id.

(** The definition of a footnote, from its marker to the end of its
    link. *)
Definition footnote_tail (href label : list ascii) : list ascii :=
  ": <a href=" ++ dq ++ href ++ dq ++ ">" ++ label ++ "</a>".
Definition footnote_defn (d : ascii) (href label : list ascii) : list ascii :=
  "[^" ++ [d] ++ "]" ++ footnote_tail href label.

(** A document with the marker of a footnote and, further on, its
    definition: [sep] is what the definition follows (a line end or
    [<p>]), [close] what ends its line. *)
Definition footnote_text (before : list ascii) (d : ascii)
    (after sep href label close rest : list ascii) : list ascii :=
  before ++ "[^" ++ [d] ++ "]" ++ after ++ sep
    ++ footnote_defn d href label ++ close ++ rest.

Definition footnote_result (before : list ascii) (d : ascii)
    (after sep href close rest : list ascii) : list ascii :=
  before ++ Transformer.superscript href [d] ++ after ++ sep ++ close ++ rest.

(** ** The script as a whole: [main()] *)
Module Script.
Section WithRemote.
Context {R : Type}.
Variable GET_space : R -> option (list ascii).
Variable GET_by_title : R -> list ascii -> option (list (list ascii)).
Variable GET_ancestors : R -> list ascii -> option (list (list ascii)).
Variable POST_content :
  R -> list ascii -> list ascii -> list ascii -> option (list ascii * R).
Variable markdown : list ascii -> list ascii.
Variable WORK_FOLDER : list ascii.
Variable IMPORT_COMMAND : list ascii.

(** [main()]: the file system and the remote space after the run.  The
    planner's recursion is bounded by [fuel]. *)
Definition main (fuel : nat) (fs : Fs.node) (r : R) : result (Fs.node * R) :=
  if negb (bool_decide (IMPORT_COMMAND ∈ ["plan" : list ascii; "execute" : list ascii]))
  then Exit
  else if bool_decide (IMPORT_COMMAND = "plan")
  then fs' ← Planner.plan_import WORK_FOLDER fuel fs; mret (fs', r)
  else st ← Builder.execute_import GET_space GET_by_title GET_ancestors
              POST_content markdown WORK_FOLDER fs r;
       mret (fs, st.1).

End WithRemote.
End Script.

(** ** Predicates and examples used in the further statements *)

(** Every directory of [fs] is a directory of [fs']. *)
Definition dirs_kept (fs fs' : Fs.node) : Prop :=
  forall p es, Fs.lookup p fs = Some (Fs.Dir es) ->
               exists es', Fs.lookup p fs' = Some (Fs.Dir es').

(** A remote with one page that has no ancestors, found under every
    title; nothing can be posted. *)
Definition rootless_by_title (_ : unit) (_ : list ascii)
    : option (list (list ascii)) := Some ["home" : list ascii].
Definition rootless_ancestors (_ : unit) (_ : list ascii)
    : option (list (list ascii)) := Some [].
Definition rootless_post (_ : unit) (_ _ _ : list ascii)
    : option (list ascii * unit) := None.

(** A work folder whose root index holds an entry and a heading. *)
Definition headed_workspace : Fs.node :=
  Fs.Dir [Scenario.dir "ws"
            [Scenario.file "index.md"
               ("* [A](a.md)" ++ nl ++ "# Notes" ++ nl);
             Scenario.file "a.md" ("Hello" ++ nl);
             Scenario.dir "plan" []]].

Definition headed_workspace_copied : Fs.node :=
  Fs.Dir [Scenario.dir "ws"
            [Scenario.file "index.md"
               ("* [A](a.md)" ++ nl ++ "# Notes" ++ nl);
             Scenario.file "a.md" ("Hello" ++ nl);
             Scenario.dir "plan" [Scenario.file "a.md" ("Hello" ++ nl)]]].

(** A work folder whose root index lists an empty file. *)
Definition empty_leaf_workspace : Fs.node :=
  Fs.Dir [Scenario.dir "ws"
            [Scenario.file "index.md" ("* [E](e.md)" ++ nl);
             Scenario.file "e.md" "";
             Scenario.dir "plan" []]].

(** A workspace whose plan nests a directory in a directory: the root
    index lists the index [B], which lists the index [D], which lists the
    leaf [c.md]. *)
Definition deep_workspace : Fs.node :=
  Fs.Dir [Scenario.dir "ws"
            [Scenario.file "index.md" ("* [B](B)" ++ nl);
             Scenario.file "B" ("* [D](D)" ++ nl);
             Scenario.file "D" ("* [C](c.md)" ++ nl);
             Scenario.file "c.md" ("World" ++ nl)]].

Definition deep_workspace_planned : Fs.node :=
  Fs.Dir [Scenario.dir "ws"
            [Scenario.file "index.md" ("* [B](B)" ++ nl);
             Scenario.file "B" ("* [D](D)" ++ nl);
             Scenario.file "D" ("* [C](c.md)" ++ nl);
             Scenario.file "c.md" ("World" ++ nl);
             Scenario.dir "plan"
               [Scenario.dir "B"
                  [Scenario.dir "D"
                     [Scenario.file "c.md" ("World" ++ nl)]]]]].

(** The space after the page of [B] has been created under the home
    page. *)
Definition space_after_B : Store.space :=
  {| Store.home_id := "home";
     Store.pages := [ {| Store.page_id := "p1"; Store.page_title := "B";
                         Store.page_body := [];
                         Store.page_parent := "home" |} ] |}.


(** The pattern of [convert_doctoc]. *)
Definition doctoc_re : Re.regex :=
  Re.Seq (Re.Lit "<!-- START doctoc")
         (Re.Seq (Re.Star true Re.CAny) (Re.Lit "END doctoc -->")).

(** * Theorems *)

(** ** Facts about the string and regex primitives *)

Lemma eqc_true a b : Py.eqc a b = true <-> a = b.
Proof. unfold Py.eqc. apply Ascii.eqb_eq. Qed.

Lemma eqc_refl a : Py.eqc a a = true.
Proof. by apply eqc_true. Qed.

Lemma eqc_false a b : Py.eqc a b = false <-> a <> b.
Proof. unfold Py.eqc. apply Ascii.eqb_neq. Qed.

Lemma lit_match_Some l s s' :
  Re.lit_match Re.no_flags l s = Some s' <-> s = l ++ s'.
Proof.
  revert s. induction l as [|a l IH]; intros s; simpl.
  - split; [by intros [= ->]|by intros ->].
  - destruct s as [|b s]; [done|].
    unfold Re.chr_eq; simpl. destruct (Py.eqc a b) eqn:E.
    + apply eqc_true in E as ->. rewrite IH. split; [by intros ->|by intros [= ->]].
    + apply eqc_false in E. split; [done|]. by intros [= -> _].
Qed.

Lemma star_match_cons fl g c k i x s cs :
  Re.star_match fl g c k i (x :: s) cs =
  if Re.cls_ok fl c x then
    if g then
      match Re.star_match fl g c k (S i) s cs with
      | Some r => Some r
      | None => k i (x :: s) cs
      end
    else
      match k i (x :: s) cs with
      | Some r => Some r
      | None => Re.star_match fl g c k (S i) s cs
      end
  else k i (x :: s) cs.
Proof. reflexivity. Qed.

Lemma star_match_is_Some fl g c k i s cs :
  is_Some (Re.star_match fl g c k i s cs) <->
  exists a b, s = a ++ b /\ Forall (fun x => Re.cls_ok fl c x = true) a
              /\ is_Some (k (i + length a) b cs).
Proof.
  revert i. induction s as [|x s IH]; intros i; [simpl|rewrite star_match_cons].
  - split.
    + intros H. exists [], []. simpl. by rewrite Nat.add_0_r.
    + intros (a & b & Hab & _ & H). symmetry in Hab.
      apply app_eq_nil in Hab as [-> ->]. simpl in H. by rewrite Nat.add_0_r in H.
  - assert (Hnil : is_Some (k i (x :: s) cs) ->
       exists a b, x :: s = a ++ b /\ Forall (fun x => Re.cls_ok fl c x = true) a
              /\ is_Some (k (i + length a) b cs)).
    { intros H. exists [], (x :: s). simpl. by rewrite Nat.add_0_r. }
    assert (Hcons : is_Some (Re.star_match fl g c k (S i) s cs) -> Re.cls_ok fl c x = true ->
       exists a b, x :: s = a ++ b /\ Forall (fun x => Re.cls_ok fl c x = true) a
              /\ is_Some (k (i + length a) b cs)).
    { intros H Hx. apply IH in H as (a & b & -> & Ha & H).
      exists (x :: a), b. simpl. split; [done|]. split; [by constructor|].
      by rewrite Nat.add_succ_r. }
    split.
    + destruct (Re.cls_ok fl c x) eqn:Ex; [|done].
      destruct g.
      * destruct (Re.star_match fl true c k (S i) s cs) eqn:E; [|apply Hnil].
        intros _. by apply Hcons.
      * destruct (k i (x :: s) cs) eqn:E; [intros _; by apply Hnil|].
        intros H. by apply Hcons.
    + intros (a & b & Hab & Ha & H). destruct a as [|y a]; simpl in *.
      * subst b. rewrite Nat.add_0_r in H.
        destruct (Re.cls_ok fl c x); [|done].
        destruct g.
        -- by destruct (Re.star_match fl true c k (S i) s cs).
        -- destruct (k i (x :: s) cs); [done|]. by destruct H.
      * injection Hab as <- ->. apply Forall_cons in Ha as [Hx Ha]. rewrite Hx.
        assert (is_Some (Re.star_match fl g c k (S i) (a ++ b) cs)) as [r Hr].
        { apply IH. exists a, b. split; [done|]. split; [done|].
          by rewrite Nat.add_succ_r in H. }
        destruct g; rewrite Hr; [done|]. by destruct (k i (x :: a ++ b) cs).
Qed.

Lemma any_ok_no_newline a :
  Forall (fun x => Re.cls_ok Re.no_flags Re.CAny x = true) a <-> no_newline a.
Proof.
  unfold no_newline. apply Forall_iff. intros x. simpl.
  rewrite negb_true_iff. apply eqc_false.
Qed.

Lemma is_Some_lit_then {A} l s (K : list ascii -> option A) :
  is_Some (match Re.lit_match Re.no_flags l s with Some s' => K s' | None => None end)
  <-> exists s', s = l ++ s' /\ is_Some (K s').
Proof.
  destruct (Re.lit_match Re.no_flags l s) as [s'|] eqn:E.
  - apply lit_match_Some in E as ->. split.
    + intros H. by exists s'.
    + intros (s'' & Hs & H). by apply app_inv_head in Hs as ->.
  - split; [by intros []|]. intros (s' & -> & _).
    assert (Re.lit_match Re.no_flags l (l ++ s') = Some s') by by apply lit_match_Some.
    congruence.
Qed.

Lemma index_entry_match line :
  is_Some (Re.match_ Re.no_flags Planner.index_entry line) <-> index_entry_shape line.
Proof.
  unfold Re.match_, Re.match_at.
  transitivity (is_Some (Re.rmatch Re.no_flags Planner.index_entry 0 line [] Re.accept)).
  { destruct (Re.rmatch _ _ _ _ _ _) as [[e cs]|]; split; intros H; try done; by destruct H. }
  unfold Planner.index_entry, index_entry_shape. simpl Re.cat. cbn [Re.rmatch Nat.eqb].
  rewrite is_Some_lit_then. split.
  - intros (s1 & -> & H). apply star_match_is_Some in H as (title & b & -> & Ht & H).
    apply is_Some_lit_then in H as (s2 & -> & H).
    apply star_match_is_Some in H as (path & b2 & -> & Hp & H).
    apply is_Some_lit_then in H as (rest & -> & _).
    exists title, path, rest. split; [done|]. by rewrite <-!any_ok_no_newline.
  - intros (title & path & rest & -> & Ht & Hp).
    eexists. split; [reflexivity|]. apply star_match_is_Some.
    exists title, ("](" ++ path ++ ")" ++ rest). split; [done|].
    split; [by apply any_ok_no_newline|].
    apply is_Some_lit_then. eexists. split; [reflexivity|].
    apply star_match_is_Some. exists path, (")" ++ rest). split; [done|].
    split; [by apply any_ok_no_newline|].
    apply is_Some_lit_then. eexists. split; [reflexivity|]. done.
Qed.


(** ** C5: index files *)

Lemma all_lines_match_true lines :
  Planner.all_lines_match lines = true <-> Forall index_entry_shape lines.
Proof.
  induction lines as [|l ls IH]; simpl; [by split|].
  rewrite Forall_cons, <-IH, <-index_entry_match.
  case_bool_decide; simpl; [tauto|]. split; [done|tauto].
Qed.

Lemma all_lines_match_false lines :
  Planner.all_lines_match lines = false
  <-> Exists (fun l => ~ index_entry_shape l) lines.
Proof.
  induction lines as [|l ls IH]; simpl.
  - split; [done|]. by intros ?%Exists_nil.
  - rewrite Exists_cons, <-IH, <-index_entry_match.
    case_bool_decide; simpl; [|tauto]. split; [tauto|]. by intros [?|?].
Qed.

Lemma is_index_file_read fs file_path b :
  Planner.is_index_file fs file_path = Ok b <->
  exists content, Fs.read_file fs file_path = Ok content
                  /\ Planner.all_lines_match (Py.readlines content) = b.
Proof.
  unfold Planner.is_index_file.
  destruct (Fs.read_file fs file_path) as [c| | |]; simpl.
  - split; [intros [= <-]; by exists c|]. by intros (? & [= <-] & ->).
  - split; [done|]. by intros (? & ? & _).
  - split; [done|]. by intros (? & ? & _).
  - split; [done|]. by intros (? & ? & _).
Qed.

(** C5.  [is_index_file] answers [True] exactly when the file can be read
    and every line has the shape of an Index Entry, [False] exactly when it
    can be read and some line has not; a file without lines is an index. *)
Theorem is_index_file_iff_every_line_is_entry (fs : Fs.node)
    (file_path : list ascii) :
  (Planner.is_index_file fs file_path = Ok true <->
     exists content, Fs.read_file fs file_path = Ok content
                     /\ Forall index_entry_shape (Py.readlines content))
  /\ (Planner.is_index_file fs file_path = Ok false <->
     exists content, Fs.read_file fs file_path = Ok content
                     /\ Exists (fun line => ~ index_entry_shape line)
                               (Py.readlines content))
  /\ Planner.all_lines_match (Py.readlines []) = true.
Proof.
  split; [|split; [|done]].
  - rewrite is_index_file_read. by setoid_rewrite all_lines_match_true.
  - rewrite is_index_file_read. by setoid_rewrite all_lines_match_false.
Qed.


(** ** C1: sanitized names *)

(** C1.  On the file name [Release notes.md] the planner's
    [get_subfolder_name] and the builder's title derivation both remove
    the last twelve characters, not the three of [.md]: the results are
    [Rele], where removing the extension and replacing the space gives
    [Release_notes]. *)
Theorem suffix_strip_removes_twelve_characters :
  Planner.get_subfolder_name "Release notes.md" = "Rele" :> list ascii
  /\ (exists r, Store.upload_files "ws" (fun _ => Ok []) Store.empty_space
                  "home" ["Release notes.md" : list ascii] = Ok r
               /\ map Store.page_title (Store.pages r) = ["Rele" : list ascii])
  /\ Py.replace " " "_" (Py.drop_last 3 "Release notes.md")
     = "Release_notes" :> list ascii.
Proof.
  split; [by vm_compute|]. split; [|by vm_compute].
  eexists. split; by vm_compute.
Qed.

(** ** C2: page reuse *)

Section Reuse.
Context {R : Type}.
Variable GET_by_title : R -> text -> option (list text).
Variable GET_ancestors : R -> text -> option (list text).

Lemma is_child_false r child ancestor b :
  no_self_parent GET_ancestors r ->
  Builder.is_child GET_ancestors r child ancestor = Ok b -> b = false.
Proof.
  intros Hr. unfold Builder.is_child.
  destruct (GET_ancestors r child) as [anc|] eqn:E; [|by intros [= <-]].
  specialize (Hr _ _ E). destruct (last anc) as [a|]; simpl; [|done].
  intros [= <-]. apply bool_decide_eq_false. by intros ->.
Qed.

(** Whatever the titles and parents of the pages of the space,
    [get_page_id] finds none of them. *)
Lemma get_page_id_never_finds r title ancestor id :
  no_self_parent GET_ancestors r ->
  Builder.get_page_id GET_by_title GET_ancestors r title ancestor = Ok id ->
  id = [].
Proof.
  intros Hr. unfold Builder.get_page_id.
  destruct (GET_by_title r title) as [results|]; [|by intros [= <-]].
  induction results as [|res rest IH]; simpl; [by intros [= <-]|].
  destruct (Builder.is_child GET_ancestors r res ancestor) as [b| | |] eqn:E;
    simpl; try done.
  by rewrite (is_child_false _ _ _ _ Hr E).
Qed.

End Reuse.

(** C2.  In a space that already holds the page B directly under the home
    page, the reuse check for title B under the home page finds nothing
    ([is_child] compares the parent of the candidate with the candidate
    itself), and [create_page] posts a second page B under the same
    parent. *)
Theorem create_page_duplicates_existing_child :
  Store.is_child Scenario.space_with_B "p1" "home" = Ok false
  /\ Store.get_page_id Scenario.space_with_B "B" "home" = Ok []
  /\ exists r, Store.create_page Scenario.space_with_B "B" "" "home"
               = Ok ("p2" : list ascii, r)
      /\ map (fun p => (Store.page_title p, Store.page_parent p))
             (Store.pages r)
         = [("B" : list ascii, "home" : list ascii); ("B" : list ascii, "home" : list ascii)].
Proof.
  split; [by vm_compute|]. split; [by vm_compute|].
  eexists. split; by vm_compute.
Qed.

(** ** C6: admonitions *)

(** C6.  A block quote labelled [NOTE: ] becomes a note callout, but its
    label stays in the body: [strip_type] passes [re.IGNORECASE] where
    [re.sub] expects a count, so only the spelling [Note] is removed. *)
Theorem uppercase_note_label_is_kept :
  Transformer.convert_info_macros
    (Scenario.blockquote "<p>NOTE: be careful</p>")
  = Ok (Transformer.note_tag ++ "NOTE: be careful" ++ Transformer.close_tag)
  /\ Transformer.convert_info_macros
       (Scenario.blockquote "<p>Note: be careful</p>")
     = Ok (Transformer.note_tag ++ "Be careful" ++ Transformer.close_tag).
Proof. split; by vm_compute. Qed.

(** ** C3: the end-to-end scenario *)

Lemma process_index_S W fuel fs file_path file_name :
  Planner.process_index W (S fuel) fs file_path file_name =
  (fs ← (if negb (bool_decide (file_path = []))
         then Fs.makedirs fs (Fs.os_path_join (Planner.PLAN_FOLDER W) file_path)
         else Ok fs);
   try_exit
     (content ← Fs.read_file fs (Fs.os_path_join W file_name);
      Planner.process_lines W (Planner.process_index W fuel) fs file_path
                            (Py.readlines content))).
Proof. reflexivity. Qed.

(** On the nested workspace the root index calls for the root index
    again, whatever the depth allowed. *)
Lemma nested_copied_out_of_fuel fuel :
  Planner.process_index "ws" fuel Scenario.nested_workspace_copied
                        [] "index.md" = OutOfFuel.
Proof.
  induction fuel as [|fuel IH]; [done|].
  rewrite process_index_S. revert IH.
  generalize (Planner.process_index "ws" fuel). intros rec IH.
  vm_compute in IH. vm_compute. by rewrite IH.
Qed.

Lemma nested_planned_out_of_fuel fuel :
  Planner.process_index "ws" fuel Scenario.nested_workspace_planned
                        [] "index.md" = OutOfFuel.
Proof.
  destruct fuel as [|fuel]; [done|].
  rewrite process_index_S.
  pose proof (nested_copied_out_of_fuel fuel) as IH. revert IH.
  generalize (Planner.process_index "ws" fuel). intros rec IH.
  vm_compute in IH. vm_compute. by rewrite IH.
Qed.

(** C3, as stated, fails: on the workspace whose root index lists
    [a.md] and [sub/index.md], planning never completes, so no plan
    folder with a subfolder B is produced. *)
Lemma nested_scenario_is_never_planned :
  ~ exists fuel plan,
      Planner.plan_import "ws" fuel Scenario.nested_workspace = Ok plan.
Proof.
  intros (fuel & plan & H). unfold Planner.plan_import in H.
  change (Planner.check_plan_requirements "ws" Scenario.nested_workspace)
    with (Ok Scenario.nested_workspace_planned) in H.
  simpl in H. by rewrite nested_planned_out_of_fuel in H.
Qed.

(** ** C4: the file that is transformed *)

(** C4.  The script says of itself that the execute mode traverses the
    plan folder and uploads the files; the loop of [execute_import] passes
    [os.path.join(WORK_FOLDER, md_file)] to [get_body], not the path of
    the file that the walk met.  Planning the workspace below copies
    [sub/c.md] into the plan; the transformation of that copy is the body
    the claim promises; the body uploaded is the transformation of the
    other [c.md], the one that lies directly in the work folder. *)
Theorem uploaded_body_comes_from_work_folder :
  Planner.plan_import "ws" 1 Scenario.shadowed_workspace
    = Ok Scenario.shadowed_workspace_planned
  /\ Builder.get_body Scenario.plain_markdown
       Scenario.shadowed_workspace_planned "ws/plan/c.md"
     = Ok ("<p>inner" ++ nl ++ "</p>")
  /\ exists r m,
      Store.execute_import Scenario.plain_markdown "ws"
        Scenario.shadowed_workspace_planned Store.empty_space = Ok (r, m)
      /\ map Store.page_body (Store.pages r) = ["<p>outer" ++ nl ++ "</p>"].
Proof.
  split; [by vm_compute|]. split; [by vm_compute|].
  eexists _, _. split; by vm_compute.
Qed.

(** ** C7: code blocks *)


(** ** C8: footnotes *)


(** ** Splitting paths *)

Lemma is_prefix_spec p s : Py.is_prefix p s = true <-> p `prefix_of` s.
Proof.
  revert s. induction p as [|a p IH]; intros s; simpl.
  - split; [intros _; apply prefix_nil|done].
  - destruct s as [|b s]; [split; [done|]; by intros ?%prefix_nil_inv|].
    rewrite andb_true_iff, eqc_true, IH. split.
    + intros [-> H]. by apply prefix_cons.
    + intros H. split; [by apply prefix_cons_inv_1 in H|by apply prefix_cons_inv_2 in H].
Qed.

Lemma is_prefix_app p s : Py.is_prefix p (p ++ s) = true.
Proof. apply is_prefix_spec. by apply prefix_app_r. Qed.

Lemma split_from_0_cons sep c s :
  Py.split_from sep 0 (c :: s) =
  if Py.is_prefix sep (c :: s) then [] :: Py.split_from sep (length sep - 1) s
  else match Py.split_from sep 0 s with h :: t => (c :: h) :: t | [] => [[c]] end.
Proof. reflexivity. Qed.

(** Passing over the rest of a separator. *)
Lemma split_from_skip sep a c s :
  Py.split_from sep (length a) (a ++ c :: s) = Py.split_from sep 0 (c :: s).
Proof. induction a as [|x a IH]; simpl; [done|]. apply IH. Qed.

Lemma split_from_skip_nil sep a :
  Py.split_from sep (length a) a = [[]].
Proof. induction a as [|x a IH]; simpl; [done|]. apply IH. Qed.

Lemma split_sep_app sep s :
  sep <> [] -> Py.split (sep ++ s) sep = [] :: Py.split s sep.
Proof.
  intros Hsep. unfold Py.split. destruct sep as [|c sep]; [done|].
  change ((c :: sep) ++ s) with (c :: (sep ++ s)).
  rewrite split_from_0_cons.
  replace (Py.is_prefix (c :: sep) (c :: sep ++ s)) with true
    by (symmetry; apply (is_prefix_app (c :: sep) s)).
  f_equal. simpl. rewrite Nat.sub_0_r.
  destruct s as [|x s]; [|apply split_from_skip].
  rewrite app_nil_r. apply split_from_skip_nil.
Qed.

Lemma first_piece_cons sep c s :
  first_piece sep (c :: s) =
  if Py.is_prefix sep (c :: s) then [] else c :: first_piece sep s.
Proof.
  unfold first_piece, Py.split. rewrite split_from_0_cons.
  destruct (Py.is_prefix sep (c :: s)); [done|].
  by destruct (Py.split_from sep 0 s).
Qed.

Lemma first_piece_prefix sep s : first_piece sep s `prefix_of` s.
Proof.
  induction s as [|c s IH]; [done|]. rewrite first_piece_cons.
  destruct (Py.is_prefix sep (c :: s)); [apply prefix_nil|by apply prefix_cons].
Qed.

Lemma first_piece_of_prefix sep s u :
  sep <> [] -> u `prefix_of` first_piece sep s -> first_piece sep u = u.
Proof.
  intros Hsep. revert u. induction s as [|c s IH]; intros u Hu.
  - apply prefix_nil_inv in Hu as ->. done.
  - rewrite first_piece_cons in Hu.
    destruct (Py.is_prefix sep (c :: s)) eqn:E.
    { apply prefix_nil_inv in Hu as ->. done. }
    destruct u as [|d u]; [done|].
    pose proof (prefix_cons_inv_1 _ _ _ _ Hu) as ->.
    apply prefix_cons_inv_2 in Hu.
    rewrite first_piece_cons.
    destruct (Py.is_prefix sep (c :: u)) eqn:E'.
    + exfalso. apply is_prefix_spec in E'.
      assert (sep `prefix_of` c :: s) as H%is_prefix_spec; [|congruence].
      etrans; [exact E'|]. apply prefix_cons. etrans; [exact Hu|]. apply first_piece_prefix.
    + f_equal. by apply IH.
Qed.

Lemma split_nth1 sep s :
  sep <> [] -> Py.split (sep ++ s) sep !! 1%nat = Some (first_piece sep s).
Proof.
  intros Hsep. rewrite split_sep_app by done. simpl. unfold first_piece, Py.split.
  destruct s as [|c s]; [done|]. rewrite split_from_0_cons.
  destruct (Py.is_prefix sep (c :: s)); [done|]. by destruct (Py.split_from sep 0 s).
Qed.

Lemma split_slash_cons c s :
  Py.split (c :: s) ["/"%char] =
  if Py.eqc "/" c then [] :: Py.split s ["/"%char]
  else match Py.split s ["/"%char] with h :: t => (c :: h) :: t | [] => [[c]] end.
Proof.
  unfold Py.split. rewrite split_from_0_cons. simpl.
  rewrite andb_true_r. by destruct (Py.eqc "/" c).
Qed.

Lemma split_slash_lead r :
  Py.split ("/"%char :: r) ["/"%char] = [] :: Py.split r ["/"%char].
Proof. by rewrite split_slash_cons, eqc_refl. Qed.

Lemma split_slash_app x r :
  no_slash x -> Py.split (x ++ "/"%char :: r) ["/"%char] = x :: Py.split r ["/"%char].
Proof.
  induction 1 as [|c x Hc Hx IH]; simpl.
  - by rewrite split_slash_cons.
  - rewrite split_slash_cons. simpl in IH. rewrite IH.
    assert (Py.eqc "/" c = false) as -> by by apply eqc_false.
    done.
Qed.

Lemma split_slash_name x : no_slash x -> Py.split x ["/"%char] = [x].
Proof.
  induction 1 as [|c x Hc Hx IH]; [done|].
  rewrite split_slash_cons, IH.
  by assert (Py.eqc "/" c = false) as -> by by apply eqc_false.
Qed.

Lemma split_join l :
  l <> [] -> Forall no_slash l -> Py.split (Py.join ["/"%char] l) ["/"%char] = l.
Proof.
  induction l as [|x l IH]; [done|]. intros _ [Hx Hl]%Forall_cons.
  destruct l as [|y l]; [by apply split_slash_name|].
  change (Py.join ["/"%char] (x :: y :: l))
    with (x ++ "/"%char :: Py.join ["/"%char] (y :: l)).
  rewrite split_slash_app by done. f_equal. by apply IH.
Qed.

Lemma join_cons x y l :
  Py.join ["/"%char] (x :: y :: l) = x ++ "/"%char :: Py.join ["/"%char] (y :: l).
Proof. reflexivity. Qed.

Lemma relpath_join l : l <> [] -> relpath l = "/"%char :: Py.join ["/"%char] l.
Proof.
  induction l as [|x l IH]; [done|]. intros _.
  destruct l as [|y l]; [simpl; by rewrite app_nil_r|].
  rewrite join_cons. change (relpath (x :: y :: l)) with ("/"%char :: x ++ relpath (y :: l)).
  rewrite IH by done. done.
Qed.

Lemma relpath_app l1 l2 : relpath (l1 ++ l2) = relpath l1 ++ relpath l2.
Proof. unfold relpath. by rewrite flat_map_app. Qed.

Lemma relpath_snoc pre e : relpath (pre ++ [e]) = relpath pre ++ "/"%char :: e.
Proof. rewrite relpath_app. simpl. by rewrite app_nil_r. Qed.

Lemma prefix_relpath names u :
  Forall no_slash names -> u `prefix_of` relpath names ->
  u = [] \/ exists pre e suf,
      names = pre ++ suf /\ suf <> [] /\ no_slash e /\ u = relpath (pre ++ [e]).
Proof.
  intros Hn. revert u. induction Hn as [|n rest Hn Hrest IH]; intros u Hu.
  - left. by apply prefix_nil_inv in Hu.
  - destruct u as [|c u1]; [by left|]. right.
    change (relpath (n :: rest)) with ("/"%char :: (n ++ relpath rest)) in Hu.
    pose proof (prefix_cons_inv_1 _ _ _ _ Hu) as ->.
    apply prefix_cons_inv_2 in Hu. destruct Hu as [k Hk].
    apply List.app_eq_app in Hk as [l [[Hl1 Hl2]|[Hl1 Hl2]]].
    + (* n = u1 ++ l *)
      exists [], u1, (n :: rest). split; [done|]. split; [done|].
      split; [|simpl; by rewrite app_nil_r].
      subst n. unfold no_slash in *. by apply Forall_app in Hn as [? _].
    + (* u1 = n ++ l *)
      destruct (IH l) as [->|(pre & e & suf & -> & Hsuf & He & ->)].
      { by exists k. }
      * exists [], n, (n :: rest). rewrite app_nil_r in Hl1. subst u1.
        simpl. by rewrite app_nil_r.
      * exists (n :: pre), e, suf. split; [done|]. split; [done|]. split; [done|].
        subst u1. done.
Qed.

Lemma ancestor_key sep names :
  sep <> [] -> Forall no_slash names ->
  let elems := tail (Py.split (first_piece sep (relpath names)) ["/"%char]) in
  1 < length elems ->
  exists pre suf,
    names = pre ++ suf /\ pre <> [] /\ suf <> []
    /\ "/"%char :: Py.join ["/"%char] (removelast elems) = relpath pre
    /\ first_piece sep (relpath pre) = relpath pre.
Proof.
  intros Hsep Hn elems Hlen. subst elems.
  destruct (prefix_relpath names (first_piece sep (relpath names)) Hn
              (first_piece_prefix _ _)) as [E|(pre & e & suf & -> & Hsuf & He & E)].
  { rewrite E in Hlen. simpl in Hlen. lia. }
  apply Forall_app in Hn as [Hpre _].
  assert (Hsplit : Py.split (first_piece sep (relpath (pre ++ suf))) ["/"%char]
                   = [] :: pre ++ [e]).
  { rewrite E, relpath_join by by destruct pre.
    rewrite split_slash_lead. f_equal.
    apply split_join; [by destruct pre|]. apply Forall_app. split; [done|]. by constructor. }
  rewrite Hsplit in *. simpl tail in *. rewrite length_app in Hlen. simpl in Hlen.
  assert (pre <> []) by (destruct pre; simpl in *; [lia|done]).
  exists pre, suf. split; [done|]. split; [done|]. split; [done|].
  rewrite removelast_last. split; [by rewrite relpath_join|].
  apply (first_piece_of_prefix sep (relpath (pre ++ suf))); [done|].
  rewrite E, relpath_snoc. by apply prefix_app_r.
Qed.

(** ** C9: ancestors are recorded before they are looked up *)

Lemma valid_name_spec x : valid_name x = true -> x <> [] /\ no_slash x.
Proof.
  unfold valid_name. rewrite andb_true_iff, negb_true_iff, bool_decide_eq_false.
  intros [Hx Hall]. split; [done|]. unfold no_slash.
  rewrite forallb_forall in Hall. apply List.Forall_forall. intros c Hc.
  specialize (Hall c Hc). rewrite negb_true_iff in Hall. by apply eqc_false in Hall.
Qed.

Lemma node_ind' (P : Fs.node -> Prop) :
  (forall c, P (Fs.File c)) ->
  (forall es, Forall (fun e => P e.2) es -> P (Fs.Dir es)) ->
  forall n, P n.
Proof.
  intros Hf Hd. fix IH 1. intros [c|es]; [apply Hf|]. apply Hd.
  induction es as [|[x m] es IHes]; constructor; [apply IH|apply IHes].
Qed.

Lemma names_ok_Dir es :
  names_ok (Fs.Dir es) = true <->
  Forall (fun e => valid_name e.1 = true /\ names_ok e.2 = true) es.
Proof.
  induction es as [|[x m] es IH]; [by split|].
  rewrite Forall_cons. simpl in *. rewrite !andb_true_iff, IH. tauto.
Qed.

Lemma assoc_Some x es m : Fs.assoc x es = Some m -> (x, m) ∈ es.
Proof.
  induction es as [|[y n] es IH]; simpl; [done|].
  case_bool_decide as Hxy; [intros [= ->]; subst; apply list_elem_of_here|].
  intros Hm. apply list_elem_of_further. by apply IH.
Qed.

Lemma names_ok_lookup p n m :
  names_ok n = true -> Fs.lookup p n = Some m -> names_ok m = true.
Proof.
  revert n. induction p as [|x p IH]; intros n Hn; simpl; [by intros [= <-]|].
  destruct n as [c|es]; [done|].
  destruct (Fs.assoc x es) as [k|] eqn:E; [|done]. apply IH.
  apply names_ok_Dir in Hn. rewrite Forall_forall in Hn.
  by apply (Hn _ (assoc_Some _ _ _ E)).
Qed.

Lemma walk_node_Dir top es :
  Fs.walk_node top (Fs.Dir es) =
  (top, Fs.dirnames es, Fs.filenames es)
    :: flat_map (fun e => Fs.walk_node (Fs.os_path_join top e.1) e.2) es.
Proof.
  simpl. f_equal. induction es as [|[x m] es IH]; [done|]. simpl. by rewrite IH.
Qed.

Lemma bind_safe {A B} (r : result A) (f : A -> result B) :
  safe r -> (forall a, r = Ok a -> safe (f a)) -> safe (r ≫= f).
Proof.
  intros Hr Hf. destruct r as [a|e| |]; unfold mbind, result_bind.
  - by apply Hf.
  - intros [= ->]. by apply Hr.
  - done.
  - done.
Qed.

Lemma of_option_safe {A} e (o : option A) : e <> KeyError -> safe (of_option e o).
Proof. unfold safe. destruct o; simpl; congruence. Qed.

Lemma endswith_snoc s c : Py.endswith (s ++ [c]) ["/"%char] = Py.eqc "/" c.
Proof. unfold Py.endswith. rewrite rev_unit. simpl. apply andb_true_r. Qed.

Lemma join_plain a c b :
  c <> "/"%char -> Py.startswith b ["/"%char] = false ->
  Fs.os_path_join (a ++ [c]) b = (a ++ [c]) ++ "/"%char :: b.
Proof.
  intros Hc Hb. unfold Fs.os_path_join. cbn [list_ascii_of_string]. rewrite Hb.
  rewrite endswith_snoc.
  assert (Py.eqc "/" c = false) as -> by (apply eqc_false; congruence).
  rewrite bool_decide_eq_false_2; [done|]. by destruct a.
Qed.

Lemma PLAN_FOLDER_snoc W : exists X, Builder.PLAN_FOLDER W = X ++ ["n"%char].
Proof.
  unfold Builder.PLAN_FOLDER, Fs.os_path_join. simpl.
  destruct (_ || _).
  - exists (W ++ ["p"; "l"; "a"]%char). by rewrite <-app_assoc.
  - exists (W ++ ["/"; "p"; "l"; "a"]%char). by rewrite <-app_assoc.
Qed.

Lemma valid_startswith x : valid_name x = true -> Py.startswith x ["/"%char] = false.
Proof.
  intros [Hx Hs]%valid_name_spec. destruct x as [|c x]; [done|].
  apply Forall_cons in Hs as [Hc _]. unfold Py.startswith. cbn [Py.is_prefix].
  rewrite andb_true_r. apply eqc_false. congruence.
Qed.

Lemma top_snoc W names :
  Forall (fun x => valid_name x = true) names ->
  exists Y c, Builder.PLAN_FOLDER W ++ relpath names = Y ++ [c] /\ c <> "/"%char.
Proof.
  intros Hn. destruct (PLAN_FOLDER_snoc W) as [X HX].
  destruct names as [|n0 names0] using rev_ind.
  - exists X, "n"%char. rewrite HX. simpl. by rewrite app_nil_r.
  - apply Forall_app in Hn as [_ [Hx _]%Forall_cons].
    apply valid_name_spec in Hx as [Hne Hs].
    destruct n0 as [|c0 n1] using rev_ind; [done|].
    apply Forall_app in Hs as [_ [Hc _]%Forall_cons].
    exists (Builder.PLAN_FOLDER W ++ relpath names0 ++ "/"%char :: n1), c0.
    split; [|done]. by rewrite relpath_snoc, <-!app_assoc.
Qed.

Lemma join_child W names x :
  Forall (fun x => valid_name x = true) names -> valid_name x = true ->
  Fs.os_path_join (Builder.PLAN_FOLDER W ++ relpath names) x
  = Builder.PLAN_FOLDER W ++ relpath (names ++ [x]).
Proof.
  intros Hn Hx. destruct (top_snoc W names Hn) as (Y & c & E & Hc).
  rewrite E, join_plain by (done || by apply valid_startswith).
  by rewrite <-E, relpath_snoc, <-app_assoc.
Qed.

Lemma bind_Ok_inv {A B} (r : result A) (f : A -> result B) (b : B) :
  r ≫= f = Ok b -> exists a, r = Ok a /\ f a = Ok b.
Proof. destruct r as [a| | |]; try done. intros H. by exists a. Qed.

Lemma mret_safe {A} (a : A) : safe (mret a : result A).
Proof. done. Qed.

Lemma Ok_safe {A} (a : A) : safe (Ok a).
Proof. done. Qed.

Lemma strip_type_safe tag tagtype : safe (Transformer.strip_type tag tagtype).
Proof.
  unfold Transformer.strip_type. apply bind_safe; [by apply of_option_safe|done].
Qed.

Lemma convert_quote_safe html quote : safe (Transformer.convert_quote html quote).
Proof.
  unfold Transformer.convert_quote. apply bind_safe; [|done].
  destruct (Re.search _ _ _); [|destruct (Re.search _ _ _)];
    try done; (apply bind_safe; [apply strip_type_safe|done]).
Qed.

Lemma convert_quotes_safe quotes html : safe (Transformer.convert_quotes html quotes).
Proof.
  revert html. induction quotes as [|q quotes IH]; intros html; [done|].
  simpl. apply bind_safe; [apply convert_quote_safe|auto].
Qed.

Lemma convert_code_tags_safe tags html : safe (Transformer.convert_code_tags html tags).
Proof.
  revert html. induction tags as [|t tags IH]; intros html; [done|].
  simpl. apply bind_safe; [|auto].
  unfold Transformer.code_macro. apply bind_safe; [by apply of_option_safe|done].
Qed.

Lemma process_ref_list_safe refs html : safe (Transformer.process_ref_list html refs).
Proof.
  revert html. induction refs as [|ref refs IH]; intros html; [done|].
  simpl. apply bind_safe; [|auto].
  unfold Transformer.process_ref. destruct (if negb _ then _ else _).
  apply bind_safe; [by apply of_option_safe|done].
Qed.

Lemma convert_safe html : safe (Transformer.convert html).
Proof.
  unfold Transformer.convert. apply bind_safe.
  - unfold Transformer.convert_info_macros.
    apply bind_safe; [apply convert_quotes_safe|done].
  - intros html1 _. apply bind_safe; [apply convert_code_tags_safe|].
    intros html2 _. apply process_ref_list_safe.
Qed.

Lemma read_file_safe fs p : safe (Fs.read_file fs p).
Proof.
  unfold Fs.read_file. destruct (Fs.dir_only p); [done|].
  by destruct (Fs.lookup _ _) as [[]|].
Qed.

Section Safety.
Context {R : Type}.
Variable GET_space : R -> option text.
Variable GET_by_title : R -> text -> option (list text).
Variable GET_ancestors : R -> text -> option (list text).
Variable POST_content : R -> text -> text -> text -> option (text * R).
Variable markdown : text -> text.
Variable WORK_FOLDER : text.

Abbreviation PLAN := (Builder.PLAN_FOLDER WORK_FOLDER).
Abbreviation create_page := (Builder.create_page GET_by_title GET_ancestors POST_content).
Abbreviation upload_files :=
  (Builder.upload_files GET_by_title GET_ancestors POST_content WORK_FOLDER).
Abbreviation visit :=
  (Builder.visit GET_by_title GET_ancestors POST_content WORK_FOLDER).
Abbreviation visit_all :=
  (Builder.visit_all GET_by_title GET_ancestors POST_content WORK_FOLDER).

Lemma get_body_safe fs p : safe (Builder.get_body markdown fs p).
Proof.
  unfold Builder.get_body. apply bind_safe; [apply read_file_safe|].
  intros. apply convert_safe.
Qed.

Lemma first_child_safe r results ancestor :
  safe (Builder.first_child GET_ancestors r results ancestor).
Proof.
  induction results as [|res rest IH]; [done|]. simpl. apply bind_safe.
  - unfold Builder.is_child. destruct (GET_ancestors r res); [|done].
    apply bind_safe; [by apply of_option_safe|done].
  - intros [] _; [done|apply IH].
Qed.

Lemma create_page_safe r title body ancestor :
  safe (create_page r title body ancestor).
Proof.
  unfold Builder.create_page. apply bind_safe.
  - unfold Builder.get_page_id. destruct (GET_by_title r title); [|done].
    apply first_child_safe.
  - intros id _. destruct (negb _); [done|].
    by destruct (POST_content r title body ancestor) as [[]|].
Qed.

Lemma upload_files_safe body_of r page_id files :
  (forall p, safe (body_of p)) -> safe (upload_files body_of r page_id files).
Proof.
  intros Hb. revert r. induction files as [|f files IH]; intros r; [done|].
  simpl. apply bind_safe; [apply Hb|]. intros body _.
  apply bind_safe; [apply create_page_safe|]. intros ? _. apply IH.
Qed.

Lemma recorded_child names x pages :
  recorded_upto PLAN names pages -> recorded_below PLAN (names ++ [x]) pages.
Proof.
  intros [Hb Hn] pre suf E Hpre Hsuf Hfp.
  destruct suf as [|y suf' _] using rev_ind; [done|].
  rewrite app_assoc in E. apply app_inj_tail in E as [-> _].
  destruct suf' as [|z suf'].
  - rewrite app_nil_r in *. by apply Hn.
  - by apply (Hb pre (z :: suf')).
Qed.

Lemma recorded_upto_grows names pages pages' :
  grows pages pages' -> recorded_upto PLAN names pages -> recorded_upto PLAN names pages'.
Proof.
  intros Hg [Hb Hn]. split.
  - intros pre suf ????. apply Hg. by apply (Hb pre suf).
  - intros ??. apply Hg. by apply Hn.
Qed.

Lemma PLAN_nonempty : PLAN <> [].
Proof. destruct (PLAN_FOLDER_snoc WORK_FOLDER) as [X ->]. by destruct X. Qed.

Lemma relpath_nonempty names : names <> [] -> relpath names <> [].
Proof. by destruct names. Qed.

Lemma ancestor_of_recorded base pages names :
  Forall (fun x => valid_name x = true) names ->
  recorded_below PLAN names pages ->
  exists a,
    Builder.ancestor_of pages base
      (tail (Py.split (first_piece PLAN (relpath names)) ["/"%char])) = Ok a.
Proof.
  intros Hnames Hrec. unfold Builder.ancestor_of.
  destruct (1 <? length _)%nat eqn:Hlen; [|by eexists].
  apply Nat.ltb_lt in Hlen.
  destruct (ancestor_key PLAN names PLAN_nonempty)
    as (pre & suf & E & Hpre & Hsuf & Hkey & Hfp).
  { eapply Forall_impl; [exact Hnames|]. intros x Hx.
    by apply valid_name_spec in Hx as [_ ?]. }
  { exact Hlen. }
  cbn [list_ascii_of_string app]. rewrite Hkey.
  destruct (Hrec pre suf E Hpre Hsuf Hfp) as [a ->]. by eexists.
Qed.

Lemma visit_safe body_of base r pages names dirs files :
  (forall p, safe (body_of p)) ->
  Forall (fun x => valid_name x = true) names ->
  recorded_below PLAN names pages ->
  safe (visit body_of base (r, pages) (PLAN ++ relpath names, dirs, files)).
Proof.
  intros Hbody Hnames Hrec. unfold Builder.visit.
  cbn [list_ascii_of_string].
  rewrite (split_nth1 PLAN (relpath names) PLAN_nonempty).
  apply bind_safe; [done|]. intros pp [= <-].
  destruct (ancestor_of_recorded base pages names Hnames Hrec) as [a Ha].
  rewrite Ha. apply bind_safe; [done|]. intros ? [= <-].
  apply bind_safe.
  - destruct (negb _); [|done].
    apply bind_safe; [by apply of_option_safe|]. intros title _.
    apply bind_safe; [apply create_page_safe|done].
  - intros [[page_id r1] pages1] _.
    apply bind_safe; [by apply upload_files_safe|done].
Qed.

Lemma visit_Ok body_of base r pages names dirs files r' pages' :
  Forall (fun x => valid_name x = true) names ->
  recorded_below PLAN names pages ->
  visit body_of base (r, pages) (PLAN ++ relpath names, dirs, files)
    = Ok (r', pages') ->
  grows pages pages' /\ recorded_upto PLAN names pages'.
Proof.
  intros Hnames Hrec. unfold Builder.visit.
  cbn [list_ascii_of_string].
  rewrite (split_nth1 PLAN (relpath names) PLAN_nonempty).
  set (pp := first_piece PLAN (relpath names)).
  intros (? & [= <-] & H)%bind_Ok_inv.
  apply bind_Ok_inv in H as (a & _ & H).
  apply bind_Ok_inv in H as ([[page_id r1] pages1] & Hcur & H).
  apply bind_Ok_inv in H as (r2 & _ & [= <- <-]).
  destruct (negb (bool_decide (pp = []))) eqn:Hpp.
  - apply bind_Ok_inv in Hcur as (title & _ & Hcur).
    apply bind_Ok_inv in Hcur as ([id r3] & _ & [= <- <- <-]). cbn [fst snd].
    assert (Hg : grows pages (<[pp:=id]> pages)).
    { intros k Hk. destruct (decide (pp = k)) as [->|Hne].
      - rewrite lookup_insert_eq. by eexists.
      - by rewrite lookup_insert_ne. }
    split; [done|]. split.
    + intros pre suf ????. apply Hg. by apply (Hrec pre suf).
    + intros _ Hfp. fold pp in Hfp. rewrite <-Hfp, lookup_insert_eq. by eexists.
  - injection Hcur as <- <- <-. split; [by intros ??|]. split; [done|].
    intros Hne Hfp. fold pp in Hfp.
    apply negb_false_iff, bool_decide_eq_true in Hpp.
    exfalso. apply (relpath_nonempty names Hne). congruence.
Qed.

Lemma visit_all_app body_of base st l1 l2 :
  visit_all body_of base st (l1 ++ l2)
  = visit_all body_of base st l1 ≫= fun st' => visit_all body_of base st' l2.
Proof.
  revert st. induction l1 as [|e l1 IH]; intros st; [done|]. simpl.
  destruct (visit body_of base st e) as [st1| | |]; simpl; auto.
Qed.

Lemma subtree_safe body_of base n :
  (forall p, safe (body_of p)) ->
  forall names r pages,
    names_ok n = true ->
    Forall (fun x => valid_name x = true) names ->
    recorded_below PLAN names pages ->
    safe (visit_all body_of base (r, pages)
            (Fs.walk_node (PLAN ++ relpath names) n))
    /\ forall r' pages',
        visit_all body_of base (r, pages)
          (Fs.walk_node (PLAN ++ relpath names) n) = Ok (r', pages') ->
        grows pages pages'.
Proof.
  intros Hbody. induction n as [c|es IHes] using node_ind';
    intros names r pages Hok Hnames Hrec.
  - simpl. split; [done|]. intros ?? [= <- <-]. by intros ??.
  - rewrite walk_node_Dir. cbn [Builder.visit_all].
    pose proof (visit_safe body_of base r pages names (Fs.dirnames es)
                  (Fs.filenames es) Hbody Hnames Hrec) as Hs.
    destruct (visit body_of base (r, pages) _) as [[r1 pages1]|e| |] eqn:Ev;
      try (split; [done|by intros ??]).
    destruct (visit_Ok _ _ _ _ _ _ _ _ _ Hnames Hrec Ev) as [Hg Hup].
    apply names_ok_Dir in Hok. simpl.
    assert (Hkids : forall r1 pages1,
      recorded_upto PLAN names pages1 ->
      safe (visit_all body_of base (r1, pages1)
              (flat_map (fun e => Fs.walk_node
                    (Fs.os_path_join (PLAN ++ relpath names) e.1) e.2) es))
      /\ forall r' pages',
          visit_all body_of base (r1, pages1)
            (flat_map (fun e => Fs.walk_node
                    (Fs.os_path_join (PLAN ++ relpath names) e.1) e.2) es)
          = Ok (r', pages') -> grows pages1 pages').
    { clear Ev Hs Hg Hup r1 pages1.
      induction es as [|[x m] es IH]; intros r1 pages1 Hup.
      - simpl. split; [done|]. intros ?? [= <- <-]. by intros ??.
      - apply Forall_cons in IHes as [IHm IHes].
        apply Forall_cons in Hok as [[Hx Hm] Hok]. simpl in Hx, Hm, IHm.
        cbn [flat_map fst snd]. rewrite visit_all_app.
        rewrite join_child by done.
        destruct (IHm (names ++ [x]) r1 pages1 Hm) as [Hsafe Hgrow].
        { apply Forall_app. split; [done|]. by constructor. }
        { by apply recorded_child. }
        split.
        + apply bind_safe; [done|]. intros [r2 pages2] E2.
          apply (IH IHes Hok). eapply recorded_upto_grows; [|exact Hup]. eauto.
        + intros r' pages' ([r2 pages2] & E2 & E3)%bind_Ok_inv.
          specialize (Hgrow _ _ E2).
          destruct (IH IHes Hok r2 pages2) as [_ Hgrow'].
          { by eapply recorded_upto_grows. }
          intros k Hk. eapply Hgrow'; [exact E3|]. by apply Hgrow. }
    destruct (Hkids r1 pages1 Hup) as [Hsafe Hgrow]. split; [done|].
    intros r' pages' E. intros k Hk. eapply Hgrow; [exact E|]. by apply Hg.
Qed.

End Safety.

(** ** The order of the walk *)

Lemma flat_map_split {A B} (f : A -> list B) l before x after :
  flat_map f l = before ++ x :: after ->
  exists l1 e l2 b a,
    l = l1 ++ e :: l2 /\ f e = b ++ x :: a
    /\ before = flat_map f l1 ++ b /\ after = a ++ flat_map f l2.
Proof.
  revert before. induction l as [|e l IH]; intros before E; simpl in E.
  - by destruct before.
  - apply List.app_eq_app in E as [k [[E1 E2]|[E1 E2]]].
    + (* f e = before ++ k *)
      destruct k as [|y k].
      * simpl in E2. rewrite app_nil_r in E1.
        destruct (IH [] (eq_sym E2)) as (l1 & e' & l2 & b & a & -> & Hf & Hb & ->).
        exists (e :: l1), e', l2, b, a. simpl.
        rewrite <-E1, <-app_assoc, <-Hb. by rewrite app_nil_r.
      * injection E2 as <- ->.
        exists [], e, l, before, k. by rewrite E1.
    + (* before = f e ++ k *)
      destruct (IH k E2) as (l1 & e' & l2 & b & a & -> & Hf & -> & ->).
      exists (e :: l1), e', l2, b, a. simpl. by rewrite E1, <-app_assoc.
Qed.

Lemma dirnames_valid es :
  names_ok (Fs.Dir es) = true ->
  Forall (fun x => valid_name x = true) (Fs.dirnames es).
Proof.
  intros H%names_ok_Dir. unfold Fs.dirnames.
  induction H as [|[x m] es [Hx _] _ IH]; [constructor|].
  simpl. destruct m; simpl; [done|by constructor].
Qed.

Lemma dirnames_elem es1 x es' es2 :
  x ∈ Fs.dirnames (es1 ++ (x, Fs.Dir es') :: es2).
Proof.
  unfold Fs.dirnames. rewrite omap_app. apply elem_of_app. right.
  simpl. apply list_elem_of_here.
Qed.

Lemma relpath_inj l1 l2 :
  Forall (fun x => valid_name x = true) l1 ->
  Forall (fun x => valid_name x = true) l2 ->
  relpath l1 = relpath l2 -> l1 = l2.
Proof.
  intros H1 H2 E.
  assert (Hs : forall l, Forall (fun x => valid_name x = true) l -> l <> [] ->
                 Py.split (relpath l) ["/"%char] = [] :: l).
  { intros l Hl Hne. rewrite relpath_join by done. rewrite split_slash_lead.
    f_equal. apply split_join; [done|].
    eapply Forall_impl; [exact Hl|]. intros x Hx.
    by apply valid_name_spec in Hx as [_ ?]. }
  destruct l1 as [|a l1], l2 as [|b l2]; try done.
  pose proof (Hs (a :: l1) H1 ltac:(done)) as E1.
  pose proof (Hs (b :: l2) H2 ltac:(done)) as E2.
  rewrite E in E1. rewrite E1 in E2. congruence.
Qed.

Section Order.
Variable WORK_FOLDER : list ascii.
Local Abbreviation PLAN := (Builder.PLAN_FOLDER WORK_FOLDER).

(** Every directory of the walk of a tree lies below the top of the walk,
    and comes after each of the directories on the way down to it. *)
Lemma walk_node_above n :
  forall names,
    names_ok n = true ->
    Forall (fun x => valid_name x = true) names ->
    forall before paths dirs files after,
      Fs.walk_node (PLAN ++ relpath names) n
        = before ++ (paths, dirs, files) :: after ->
      exists more,
        Forall (fun x => valid_name x = true) more
        /\ paths = PLAN ++ relpath (names ++ more)
        /\ Forall (fun x => valid_name x = true) dirs
        /\ forall pre suf,
            more = pre ++ suf -> suf <> [] ->
            exists b1 dirs' files' b2,
              before = b1 ++ (PLAN ++ relpath (names ++ pre), dirs', files') :: b2
              /\ Forall (fun x => valid_name x = true) dirs'
              /\ forall x, suf = [x] -> x ∈ dirs'.
Proof.
  induction n as [c|es IHes] using node_ind';
    intros names Hok Hnames before paths dirs files after E.
  { by destruct before. }
  rewrite walk_node_Dir in E.
  destruct before as [|h before].
  - injection E as <- <- <- <-. exists []. split; [constructor|].
    split; [by rewrite app_nil_r|]. split; [by apply dirnames_valid|].
    intros pre suf E Hsuf. symmetry in E. by apply app_eq_nil in E as [_ ?].
  - injection E as <- E.
    apply flat_map_split in E
      as (es1 & [x m] & es2 & b & a & -> & Hw & -> & ->).
    cbn [fst snd] in Hw.
    pose proof Hok as Hok'. apply names_ok_Dir in Hok'.
    apply Forall_app in Hok' as [_ Hok'].
    apply Forall_cons in Hok' as [[Hx Hm] _]. cbn [fst snd] in Hx, Hm.
    apply Forall_app in IHes as [_ IHes].
    apply Forall_cons in IHes as [IHm _]. cbn [snd] in IHm.
    rewrite join_child in Hw by done.
    assert (Hnames' : Forall (fun x => valid_name x = true) (names ++ [x])).
    { apply Forall_app. split; [done|]. by constructor. }
    destruct (IHm (names ++ [x]) Hm Hnames' _ _ _ _ _ Hw)
      as (more & Hmore & -> & Hdirs & Hup).
    exists (x :: more). split; [by constructor|].
    split; [by rewrite <-app_assoc|]. split; [done|].
    intros pre suf E Hsuf. destruct pre as [|x' pre].
    + simpl in E. subst suf.
      exists [], (Fs.dirnames (es1 ++ (x, m) :: es2)),
             (Fs.filenames (es1 ++ (x, m) :: es2)),
             (flat_map (fun e => Fs.walk_node
                 (Fs.os_path_join (PLAN ++ relpath names) e.1) e.2) es1 ++ b).
      split; [by rewrite app_nil_r|]. split; [by apply dirnames_valid|].
      intros y [= -> ->]. destruct m as [c|es']; [by destruct b|].
      apply dirnames_elem.
    + injection E as <- ->.
      destruct (Hup pre suf eq_refl Hsuf) as (b1 & d' & f' & b2 & -> & Hd & Hx').
      exists ((PLAN ++ relpath names, Fs.dirnames (es1 ++ (x, m) :: es2),
               Fs.filenames (es1 ++ (x, m) :: es2))
              :: flat_map (fun e => Fs.walk_node
                   (Fs.os_path_join (PLAN ++ relpath names) e.1) e.2) es1 ++ b1),
             d', f', b2.
      split; [|done].
      rewrite <-(app_assoc names [x] pre). simpl. by rewrite <-!app_assoc.
Qed.

End Order.

Lemma split_from_nonempty sep k s : Py.split_from sep k s <> [].
Proof.
  revert k. induction s as [|c s IH]; intros k; [done|]. simpl.
  destruct k as [|k]; [|apply IH].
  destruct (Py.is_prefix sep (c :: s)); [done|].
  by destruct (Py.split_from sep 0 s).
Qed.

(** A text that splits into one piece is that piece. *)
Lemma split_one sep s :
  length (Py.split s sep) = 1%nat -> first_piece sep s = s.
Proof.
  induction s as [|c s IH]; [done|]. rewrite first_piece_cons.
  unfold Py.split in *. rewrite split_from_0_cons.
  destruct (Py.is_prefix sep (c :: s)).
  - simpl. pose proof (split_from_nonempty sep (length sep - 1) s) as H.
    destruct (Py.split_from sep (length sep - 1) s); [done|]. simpl. lia.
  - intros H. f_equal. apply IH.
    pose proof (split_from_nonempty sep 0 s) as Hne.
    destruct (Py.split_from sep 0 s); [done|]. exact H.
Qed.

Lemma split_two sep s :
  sep <> [] -> length (Py.split (sep ++ s) sep) = 2%nat ->
  first_piece sep s = s.
Proof.
  intros Hsep H. rewrite split_sep_app in H by done. simpl in H.
  apply split_one. lia.
Qed.

(** Planning the deep workspace gives the nested plan. *)
Lemma deep_plan :
  Planner.plan_import "ws" 3 deep_workspace = Ok deep_workspace_planned.
Proof. vm_compute. reflexivity. Qed.

Section Lookups.
Context {R : Type}.
Variable GET_space : R -> option (list ascii).
Variable GET_by_title : R -> list ascii -> option (list (list ascii)).
Variable GET_ancestors : R -> list ascii -> option (list (list ascii)).
Variable POST_content :
  R -> list ascii -> list ascii -> list ascii -> option (list ascii * R).
Variable markdown : list ascii -> list ascii.
Variable WORK_FOLDER : list ascii.

Local Abbreviation PLAN := (Builder.PLAN_FOLDER WORK_FOLDER).
Local Abbreviation visit :=
  (Builder.visit GET_by_title GET_ancestors POST_content WORK_FOLDER).
Local Abbreviation visit_all :=
  (Builder.visit_all GET_by_title GET_ancestors POST_content WORK_FOLDER).

(** A turn of the loop keeps the records and adds the record of its
    directory. *)
Lemma visit_records body_of base r pages paths dirs files r' pages' :
  visit body_of base (r, pages) (paths, dirs, files) = Ok (r', pages') ->
  grows pages pages'
  /\ forall page_path,
      Py.split paths PLAN !! 1%nat = Some page_path -> page_path <> [] ->
      is_Some (pages' !! page_path).
Proof.
  unfold Builder.visit.
  intros (pp & Hpp & H)%bind_Ok_inv.
  apply bind_Ok_inv in H as (a & _ & H).
  apply bind_Ok_inv in H as ([[page_id r1] pages1] & Hcur & H).
  apply bind_Ok_inv in H as (r2 & _ & H).
  unfold mret, result_ret in H. injection H as <- <-.
  destruct (Py.split paths PLAN !! 1%nat) as [pp'|] eqn:E; [|done].
  injection Hpp as ->.
  destruct (negb (bool_decide (pp = []))) eqn:Hne.
  - apply bind_Ok_inv in Hcur as (title & _ & Hcur).
    apply bind_Ok_inv in Hcur as ([id r3] & _ & Hcur).
    unfold mret, result_ret in Hcur. injection Hcur as <- <- <-. cbn [fst].
    split.
    + intros k Hk. destruct (decide (pp = k)) as [->|Hd].
      * rewrite lookup_insert_eq. by eexists.
      * by rewrite lookup_insert_ne.
    + intros ? [= <-] _. rewrite lookup_insert_eq. by eexists.
  - unfold mret, result_ret in Hcur. injection Hcur as <- <- <-.
    split; [by intros ??|]. intros ? [= <-] Hp.
    apply negb_false_iff, bool_decide_eq_true in Hne. done.
Qed.

Lemma visit_all_grows body_of base entries st st' :
  visit_all body_of base st entries = Ok st' -> grows st.2 st'.2.
Proof.
  revert st. induction entries as [|[[p d] f] entries IH]; intros [r pages].
  - intros [= <-]. by intros ??.
  - cbn [Builder.visit_all].
    intros ([r1 pages1] & Hv & H)%bind_Ok_inv.
    apply visit_records in Hv as [Hg _]. apply IH in H.
    intros k Hk. apply H. by apply Hg.
Qed.

(** The record of a directory that the loop has passed is in the map. *)
Lemma visit_all_records body_of base st b1 paths dirs files b2 st' page_path :
  visit_all body_of base st (b1 ++ (paths, dirs, files) :: b2) = Ok st' ->
  Py.split paths PLAN !! 1%nat = Some page_path -> page_path <> [] ->
  is_Some (st'.2 !! page_path).
Proof.
  rewrite visit_all_app. intros ([r1 pages1] & _ & H)%bind_Ok_inv Hpp Hne.
  cbn [Builder.visit_all] in H.
  apply bind_Ok_inv in H as ([r2 pages2] & Hv & H).
  apply visit_records in Hv as [_ Hv]. apply visit_all_grows in H.
  apply H. by apply Hv.
Qed.

Lemma valid_no_slash names :
  Forall (fun x => valid_name x = true) names -> Forall no_slash names.
Proof.
  intros H. eapply Forall_impl; [exact H|]. intros x Hx.
  by apply valid_name_spec in Hx as [_ ?].
Qed.

(** The lookups of the walk. *)
Lemma walk_lookups body_of fs r base_id before paths dirs files after st
    page_path :
  names_ok fs = true ->
  Fs.walk fs PLAN = before ++ (paths, dirs, files) :: after ->
  visit_all body_of base_id (r, ∅) before = Ok st ->
  Py.split paths PLAN !! 1%nat = Some page_path ->
  (1 < length (tail (Py.split page_path "/")))%nat ->
  exists b1 above dirs' files' b2 id,
    before = b1 ++ (above, dirs', files') :: b2
    /\ Py.split above PLAN !! 1%nat
       = Some ("/" ++ Py.join "/" (removelast (tail (Py.split page_path "/"))))
    /\ st.2 !! ("/" ++ Py.join "/" (removelast (tail (Py.split page_path "/"))))
       = Some id
    /\ Builder.ancestor_of st.2 base_id (tail (Py.split page_path "/")) = Ok id
    /\ (length (Py.split paths PLAN) = 2%nat ->
        exists name, name ∈ dirs' /\ paths = Fs.os_path_join above name).
Proof.
  intros Hok Hwalk Hrun Hpp Hlen. unfold Fs.walk in Hwalk.
  destruct (Fs.lookup (Fs.comps PLAN) fs) as [n|] eqn:En;
    [|by destruct before].
  pose proof (names_ok_lookup _ _ _ Hok En) as Hn.
  pose proof (walk_node_above WORK_FOLDER n [] Hn (List.Forall_nil _)) as Hw.
  change (relpath []) with ([] : list ascii) in Hw. rewrite app_nil_r in Hw.
  destruct (Hw _ _ _ _ _ Hwalk) as (more & Hmore & -> & _ & Hup).
  cbn [app] in Hup.
  rewrite (split_nth1 PLAN _ (PLAN_nonempty WORK_FOLDER)) in Hpp.
  injection Hpp as <-.
  destruct (ancestor_key PLAN more (PLAN_nonempty WORK_FOLDER)
              (valid_no_slash _ Hmore) Hlen)
    as (pre & suf & E & Hpre & Hsuf & Hkey & Hfp).
  destruct (Hup pre suf E Hsuf) as (b1 & dirs' & files' & b2 & -> & Hd & Hx).
  cbn [list_ascii_of_string app] in *.
  assert (Habove : Py.split (PLAN ++ relpath pre) PLAN !! 1%nat
                   = Some (relpath pre)).
  { rewrite (split_nth1 PLAN _ (PLAN_nonempty WORK_FOLDER)). by rewrite Hfp. }
  destruct (visit_all_records _ _ _ _ _ _ _ _ _ _ Hrun Habove
              (relpath_nonempty pre Hpre)) as [id Hid].
  exists b1, (PLAN ++ relpath pre), dirs', files', b2, id.
  split; [done|]. rewrite Hkey. split; [done|]. split; [done|].
  split.
  { unfold Builder.ancestor_of.
    apply Nat.ltb_lt in Hlen. cbn [list_ascii_of_string] in Hlen.
    rewrite Hlen. cbn [list_ascii_of_string app]. by rewrite Hkey, Hid. }
  intros Hone. apply split_two in Hone; [|apply PLAN_nonempty].
  rewrite Hone in Hkey.
  assert (Hmne : more <> []) by (subst more; by destruct pre).
  assert (Hsp : Py.split (relpath more) ["/"%char] = [] :: more).
  { rewrite relpath_join by done. rewrite split_slash_lead. f_equal.
    apply split_join; [done|by apply valid_no_slash]. }
  rewrite Hsp in Hkey. cbn [tail] in Hkey.
  destruct (exists_last Hmne) as (pre' & x & Emore).
  rewrite Emore, removelast_last in Hkey.
  assert (Hv' : Forall (fun x => valid_name x = true) (pre' ++ [x]))
    by by rewrite <-Emore.
  apply Forall_app in Hv' as [Hpre' Hxv]. apply Forall_cons in Hxv as [Hxv _].
  assert (Hpre'ne : pre' <> []).
  { intros ->. rewrite Hone, Hsp, Emore in Hlen. simpl in Hlen. lia. }
  rewrite <-relpath_join in Hkey by done.
  assert (Hvpre : Forall (fun x => valid_name x = true) pre).
  { rewrite E in Hmore. by apply Forall_app in Hmore as [? _]. }
  apply relpath_inj in Hkey; [|done..]. subst pre'.
  rewrite E in Emore. apply app_inv_head in Emore. subst suf.
  exists x. split; [by apply Hx|].
  rewrite join_child by done. by rewrite E.
Qed.


Lemma top_level_base pages base_id name page_path :
  valid_name name = true ->
  Py.split (Fs.os_path_join PLAN name) PLAN !! 1%nat = Some page_path ->
  Builder.ancestor_of pages base_id (tail (Py.split page_path "/"))
  = Ok base_id.
Proof.
  intros Hname.
  pose proof (join_child WORK_FOLDER [] name (List.Forall_nil _) Hname) as E.
  simpl in E. rewrite !app_nil_r in E. rewrite E.
  rewrite (split_nth1 PLAN _ (PLAN_nonempty WORK_FOLDER)). intros [= <-].
  apply valid_name_spec in Hname as [_ Hs].
  assert (E0 : relpath [name] = "/"%char :: name) by (simpl; by rewrite app_nil_r).
  rewrite <-E0.
  destruct (prefix_relpath [name] (first_piece PLAN (relpath [name])))
    as [->|(pre & e & suf & E' & Hsuf & He & ->)].
  { by constructor. }
  { apply first_piece_prefix. }
  + reflexivity.
  + destruct pre as [|p pre]; [|by destruct pre, suf].
    cbn [list_ascii_of_string app relpath flat_map]. rewrite app_nil_r.
    rewrite split_slash_lead, split_slash_name by done. done.
Qed.

(** The subdirectories of a directory other than the plan folder have a
    page path of more than one element. *)
Lemma below_top_level fs before above dirs' files' after name :
  names_ok fs = true ->
  Fs.walk fs PLAN = before ++ (above, dirs', files') :: after ->
  above <> PLAN -> name ∈ dirs' ->
  length (Py.split (Fs.os_path_join above name) PLAN) = 2%nat ->
  exists page_path,
    Py.split (Fs.os_path_join above name) PLAN !! 1%nat = Some page_path
    /\ (1 < length (tail (Py.split page_path "/")))%nat.
Proof.
  intros Hok Hwalk Habove Hname Hone. unfold Fs.walk in Hwalk.
  destruct (Fs.lookup (Fs.comps PLAN) fs) as [n|] eqn:En;
    [|by destruct before].
  pose proof (names_ok_lookup _ _ _ Hok En) as Hn.
  pose proof (walk_node_above WORK_FOLDER n [] Hn (List.Forall_nil _)) as Hw.
  change (relpath []) with ([] : list ascii) in Hw. rewrite app_nil_r in Hw.
  destruct (Hw _ _ _ _ _ Hwalk) as (more & Hmore & -> & Hdirs & _).
  cbn [app] in *.
  assert (Hv : valid_name name = true).
  { rewrite Forall_forall in Hdirs. by apply Hdirs. }
  assert (Hne : more <> []).
  { intros ->. apply Habove. change (relpath []) with ([] : list ascii).
    by rewrite app_nil_r. }
  rewrite join_child in * by done.
  apply split_two in Hone; [|apply PLAN_nonempty].
  exists (relpath (more ++ [name])).
  rewrite (split_nth1 PLAN _ (PLAN_nonempty WORK_FOLDER)), Hone.
  split; [done|].
  assert (Hall : Forall (fun x => valid_name x = true) (more ++ [name])).
  { apply Forall_app. split; [done|]. by constructor. }
  rewrite relpath_join by by destruct more.
  cbn [list_ascii_of_string].
  rewrite split_slash_lead, split_join;
    [|by destruct more|by apply valid_no_slash].
  cbn [tail]. rewrite length_app. simpl. destruct more; [done|simpl; lia].
Qed.


End Lookups.


(** ** C3: what the builder creates *)

Section Log.
Context {R : Type}.
Variable GET_space : R -> option text.
Variable GET_by_title : R -> text -> option (list text).
Variable GET_ancestors : R -> text -> option (list text).
Variable POST_content : R -> text -> text -> text -> option (text * R).
Variable markdown : text -> text.
Variable WORK_FOLDER : text.

Abbreviation create_page' :=
  (Builder.create_page (view GET_by_title) (view GET_ancestors)
     (logged POST_content)).
Abbreviation upload_files' :=
  (Builder.upload_files (view GET_by_title) (view GET_ancestors)
     (logged POST_content) WORK_FOLDER).
Abbreviation visit' :=
  (Builder.visit (view GET_by_title) (view GET_ancestors)
     (logged POST_content) WORK_FOLDER).
Abbreviation visit_all' :=
  (Builder.visit_all (view GET_by_title) (view GET_ancestors)
     (logged POST_content) WORK_FOLDER).

Lemma create_page_log st title body ancestor id st' :
  create_page' st title body ancestor = Ok (id, st') ->
  st'.2 = st.2 \/ st'.2 = st.2 ++ [(title, body, ancestor)].
Proof.
  unfold Builder.create_page. intros (ex & _ & H)%bind_Ok_inv.
  destruct (negb _); [injection H as <- <-; by left|].
  unfold logged in H. destruct (POST_content _ _ _ _) as [[id' r']|]; [|done].
  injection H as <- <-. by right.
Qed.

Lemma upload_files_log body_of st page_id files st' :
  upload_files' body_of st page_id files = Ok st' ->
  exists new, st'.2 = st.2 ++ new
              /\ Forall (leaf_post body_of WORK_FOLDER files) new.
Proof.
  revert st. induction files as [|f files IH]; intros st; simpl.
  - intros [= <-]. exists []. by rewrite app_nil_r.
  - intros (body & Hb & H)%bind_Ok_inv.
    apply bind_Ok_inv in H as ([id st1] & Hc & H).
    apply IH in H as (new & E & Hnew). cbn [snd] in E.
    assert (Hmono : Forall (leaf_post body_of WORK_FOLDER (f :: files)) new).
    { eapply Forall_impl; [exact Hnew|]. intros e (m & ? & ? & ?).
      exists m. split; [by apply list_elem_of_further|done]. }
    apply create_page_log in Hc as [E1|E1]; cbn [snd] in E1; rewrite E1 in E.
    + by exists new.
    + exists ((Py.drop_last 12 f, body, page_id) :: new).
      split; [by rewrite E, <-app_assoc|]. constructor; [|done].
      exists f. split; [apply list_elem_of_here|done].
Qed.

Lemma visit_log body_of base st pages entry st' pages' :
  visit' body_of base (st, pages) entry = Ok (st', pages') ->
  exists new, st'.2 = st.2 ++ new
              /\ Forall (fun e => e.1.2 = []
                                  \/ leaf_post body_of WORK_FOLDER entry.2 e)
                        new.
Proof.
  destruct entry as [[paths dirs] files]. cbn [snd]. unfold Builder.visit.
  intros (pp & _ & H)%bind_Ok_inv.
  apply bind_Ok_inv in H as (a & _ & H).
  apply bind_Ok_inv in H as ([[page_id st1] pages1] & Hcur & H).
  apply bind_Ok_inv in H as (st2 & Hup & [= <- <-]).
  apply upload_files_log in Hup as (new & E & Hnew).
  assert (Hnew' : Forall (fun e => e.1.2 = []
                     \/ leaf_post body_of WORK_FOLDER files e) new).
  { eapply Forall_impl; [exact Hnew|]. by right. }
  destruct (negb _).
  - apply bind_Ok_inv in Hcur as (title & _ & Hcur).
    apply bind_Ok_inv in Hcur as ([id st3] & Hc & [= <- <- <-]).
    apply create_page_log in Hc as [E1|E1]; cbn [fst snd] in *; rewrite E1 in E.
    + by exists new.
    + exists ((title, [], a) :: new). split; [by rewrite E, <-app_assoc|].
      constructor; [by left|done].
  - injection Hcur as <- <- <-. by exists new.
Qed.

Lemma visit_all_log body_of base entries st pages st' pages' :
  visit_all' body_of base (st, pages) entries = Ok (st', pages') ->
  exists new,
    st'.2 = st.2 ++ new
    /\ Forall (fun e => e.1.2 = []
                 \/ exists entry, entry ∈ entries
                                  /\ leaf_post body_of WORK_FOLDER entry.2 e)
              new.
Proof.
  revert st pages. induction entries as [|entry entries IH];
    intros st pages; simpl.
  - intros [= <- <-]. exists []. by rewrite app_nil_r.
  - intros ([st1 pages1] & Hv & H)%bind_Ok_inv.
    apply visit_log in Hv as (new1 & E1 & Hnew1).
    apply IH in H as (new2 & E2 & Hnew2).
    exists (new1 ++ new2). split; [by rewrite E2, E1, <-app_assoc|].
    apply Forall_app. split.
    + eapply Forall_impl; [exact Hnew1|]. intros e [?|?]; [by left|right].
      exists entry. split; [apply list_elem_of_here|done].
    + eapply Forall_impl; [exact Hnew2|]. intros e [?|(en & ? & ?)]; [by left|right].
      exists en. split; [by apply list_elem_of_further|done].
Qed.

(** X19.  Every page that a run of [execute_import] posts either has the
    empty body of a container page, or carries the transformation of the
    file [WORK_FOLDER/md_file] under the title [md_file[:-12]], for the
    name [md_file] of a file met in the walk of the plan folder. *)
Theorem uploaded_bodies_are_work_folder_files (fs : Fs.node) (r r' : R)
    (log : post_log) (pages : gmap (list ascii) (list ascii)) :
  Builder.execute_import (view GET_space) (view GET_by_title)
    (view GET_ancestors) (logged POST_content) markdown WORK_FOLDER fs (r, [])
  = Ok ((r', log), pages) ->
  Forall (fun e =>
            e.1.2 = []
            \/ exists entry md_file,
                entry ∈ Fs.walk fs (Builder.PLAN_FOLDER WORK_FOLDER)
                /\ md_file ∈ entry.2
                /\ Builder.get_body markdown fs
                     (Fs.os_path_join WORK_FOLDER md_file) = Ok e.1.2
                /\ e.1.1 = Py.drop_last 12 md_file)
         log.
Proof.
  unfold Builder.execute_import, Builder.execute_import_with.
  intros (base & _ & H)%bind_Ok_inv.
  apply visit_all_log in H as (new & E & Hnew). simpl in E. subst new.
  eapply Forall_impl; [exact Hnew|]. intros e [?|(en & ? & m & ? & ? & ?)]; [by left|right].
  by exists en, m.
Qed.

End Log.

Lemma uploaded_bodies_witness :
  Builder.execute_import (view Store.GET_space) (view Store.GET_by_title)
    (view Store.GET_ancestors) (logged Store.POST_content)
    Scenario.plain_markdown "ws" Scenario.shadowed_workspace_planned
    (Store.empty_space, [])
  = Ok (({| Store.home_id := "home";
            Store.pages := [ {| Store.page_id := "p1"; Store.page_title := [];
                                Store.page_body := "<p>outer" ++ nl ++ "</p>";
                                Store.page_parent := "home" |} ] |},
         [([], "<p>outer" ++ nl ++ "</p>", "home" : list ascii)]), ∅)
  /\ Forall (fun e =>
            e.1.2 = []
            \/ exists entry md_file,
                entry ∈ Fs.walk Scenario.shadowed_workspace_planned
                          (Builder.PLAN_FOLDER "ws")
                /\ md_file ∈ entry.2
                /\ Builder.get_body Scenario.plain_markdown
                     Scenario.shadowed_workspace_planned
                     (Fs.os_path_join "ws" md_file) = Ok e.1.2
                /\ e.1.1 = Py.drop_last 12 md_file)
         [([], "<p>outer" ++ nl ++ "</p>", "home" : list ascii)].
Proof.
  assert (E : Builder.execute_import (view Store.GET_space)
    (view Store.GET_by_title) (view Store.GET_ancestors)
    (logged Store.POST_content) Scenario.plain_markdown "ws"
    Scenario.shadowed_workspace_planned (Store.empty_space, [])
  = Ok (({| Store.home_id := "home";
            Store.pages := [ {| Store.page_id := "p1"; Store.page_title := [];
                                Store.page_body := "<p>outer" ++ nl ++ "</p>";
                                Store.page_parent := "home" |} ] |},
         [([], "<p>outer" ++ nl ++ "</p>", "home" : list ascii)]), ∅))
    by (vm_compute; reflexivity).
  split; [exact E|].
  exact (uploaded_bodies_are_work_folder_files Store.GET_space
           Store.GET_by_title Store.GET_ancestors Store.POST_content
           Scenario.plain_markdown "ws" _ _ _ _ _ E).
Defined.

(** C3, amended.  For the flat workspace whose root index lists the leaf
    [a.md] and the index file [B], itself listing the leaf [c.md], planning
    yields a plan folder with a copy of [a.md] and a subfolder B holding a
    copy of [c.md]; executing against an empty space creates three pages,
    in this order: the page of [a.md] under the home page, the container B
    under the home page, and the page of [c.md] under B. *)
Theorem flat_scenario_plan_and_pages (markdown : list ascii -> list ascii)
    (body_a body_c : list ascii) :
  Transformer.convert (markdown ("Hello" ++ nl)) = Ok body_a ->
  Transformer.convert (markdown ("World" ++ nl)) = Ok body_c ->
  Planner.plan_import "ws" 2 Scenario.flat_workspace
    = Ok Scenario.flat_workspace_planned
  /\ Fs.lookup ["ws" : list ascii; "plan" : list ascii]
               Scenario.flat_workspace_planned
     = Some (Fs.Dir [Scenario.file "a.md" ("Hello" ++ nl);
                     Scenario.dir "B" [Scenario.file "c.md" ("World" ++ nl)]])
  /\ exists r pages title_a title_c,
      Store.execute_import markdown "ws" Scenario.flat_workspace_planned
        Store.empty_space = Ok (r, pages)
      /\ Store.pages r = flat_pages title_a body_a title_c body_c.
Proof.
  intros Ha Hc. split; [by vm_compute|]. split; [by vm_compute|].
  exists {| Store.home_id := "home";
            Store.pages := flat_pages [] body_a [] body_c |},
         {[ ("/B" : list ascii) := ("p2" : list ascii) ]}, [], [].
  split; [|done].
  unfold Store.execute_import, Builder.execute_import.
  assert (Hga : Builder.get_body markdown Scenario.flat_workspace_planned
                  "ws/a.md" = Ok body_a) by exact Ha.
  assert (Hgc : Builder.get_body markdown Scenario.flat_workspace_planned
                  "ws/c.md" = Ok body_c) by exact Hc.
  revert Hga Hgc.
  generalize (Builder.get_body markdown Scenario.flat_workspace_planned).
  intros body_of Hga Hgc. vm_compute in Hga, Hgc.
  vm_compute. rewrite Hga. vm_compute. rewrite Hgc. vm_compute. reflexivity.
Qed.

Lemma flat_scenario_witness :
  (Transformer.convert (Scenario.plain_markdown ("Hello" ++ nl))
     = Ok ("<p>Hello" ++ nl ++ "</p>")
   /\ Transformer.convert (Scenario.plain_markdown ("World" ++ nl))
     = Ok ("<p>World" ++ nl ++ "</p>"))
  /\ (Planner.plan_import "ws" 2 Scenario.flat_workspace
    = Ok Scenario.flat_workspace_planned
  /\ Fs.lookup ["ws" : list ascii; "plan" : list ascii]
               Scenario.flat_workspace_planned
     = Some (Fs.Dir [Scenario.file "a.md" ("Hello" ++ nl);
                     Scenario.dir "B" [Scenario.file "c.md" ("World" ++ nl)]])
  /\ exists r pages title_a title_c,
      Store.execute_import Scenario.plain_markdown "ws"
        Scenario.flat_workspace_planned Store.empty_space = Ok (r, pages)
      /\ Store.pages r
         = flat_pages title_a ("<p>Hello" ++ nl ++ "</p>")
                      title_c ("<p>World" ++ nl ++ "</p>")).
Proof.
  assert (Ha : Transformer.convert (Scenario.plain_markdown ("Hello" ++ nl))
     = Ok ("<p>Hello" ++ nl ++ "</p>")) by (vm_compute; reflexivity).
  assert (Hc : Transformer.convert (Scenario.plain_markdown ("World" ++ nl))
     = Ok ("<p>World" ++ nl ++ "</p>")) by (vm_compute; reflexivity).
  split; [by split|].
  exact (flat_scenario_plan_and_pages Scenario.plain_markdown _ _ Ha Hc).
Defined.

(** ** C10: termination of the planner *)

Lemma split_nonempty s : Py.split s ["/"%char] <> [].
Proof.
  destruct s as [|c s]; [done|]. rewrite split_slash_cons.
  destruct (Py.eqc "/" c); [done|]. by destruct (Py.split s ["/"%char]).
Qed.

Lemma split_app_slash a b :
  Py.split (a ++ "/"%char :: b) ["/"%char]
  = Py.split a ["/"%char] ++ Py.split b ["/"%char].
Proof.
  induction a as [|c a IH]; simpl.
  - by rewrite split_slash_lead.
  - rewrite !split_slash_cons, IH. destruct (Py.eqc "/" c); [done|].
    pose proof (split_nonempty a). by destruct (Py.split a ["/"%char]).
Qed.

Lemma split_no_slash s : Forall no_slash (Py.split s ["/"%char]).
Proof.
  induction s as [|c s IH]; [by repeat constructor|].
  rewrite split_slash_cons. destruct (Py.eqc "/" c) eqn:E.
  - constructor; [constructor|done].
  - pose proof (split_nonempty s) as Hne.
    destruct (Py.split s ["/"%char]) as [|h t]; [done|].
    apply Forall_cons in IH as [Hh Ht]. constructor; [|done].
    constructor; [|done]. apply eqc_false in E. congruence.
Qed.

Lemma basename_no_slash p : no_slash (Fs.basename p).
Proof.
  unfold Fs.basename. cbn [list_ascii_of_string].
  pose proof (split_no_slash p) as H. pose proof (split_nonempty p) as Hne.
  destruct (Py.split p ["/"%char]) as [|h t] using rev_ind; [done|].
  rewrite List.last_last. by apply Forall_app in H as [_ [? _]%Forall_cons].
Qed.

Lemma no_slash_nostart x : no_slash x -> nostart x.
Proof.
  unfold nostart, Py.startswith. destruct x as [|c x]; [done|].
  intros [Hc _]%Forall_cons. cbn [Py.is_prefix]. rewrite andb_true_r.
  apply eqc_false. congruence.
Qed.

Lemma endswith_slash a :
  Py.endswith a ["/"%char] = true -> exists a', a = a' ++ ["/"%char].
Proof.
  destruct a as [|c a _] using rev_ind; [done|].
  rewrite endswith_snoc. intros ->%eqc_true. by exists a.
Qed.

Lemma comps_app_slash a b :
  Fs.comps (a ++ "/"%char :: b) = Fs.comps a ++ Fs.comps b.
Proof.
  unfold Fs.comps. cbn [list_ascii_of_string].
  by rewrite split_app_slash, filter_app.
Qed.

Lemma comps_nil : Fs.comps [] = [].
Proof. reflexivity. Qed.

(** The components of a joined path. *)
Lemma comps_join a b :
  nostart b -> Fs.comps (Fs.os_path_join a b) = Fs.comps a ++ Fs.comps b.
Proof.
  intros Hb. unfold Fs.os_path_join. cbn [list_ascii_of_string]. rewrite Hb.
  destruct (bool_decide (a = [])) eqn:Ea; simpl.
  - apply bool_decide_eq_true in Ea as ->. done.
  - destruct (Py.endswith a ["/"%char]) eqn:Es.
    + apply endswith_slash in Es as [a' ->].
      rewrite <-app_assoc. simpl. rewrite !comps_app_slash, comps_nil.
      by rewrite app_nil_r.
    + apply comps_app_slash.
Qed.

Lemma last_app_nonempty {A} (l1 l2 : list A) d :
  l2 <> [] -> List.last (l1 ++ l2) d = List.last l2 d.
Proof.
  intros H. destruct l2 as [|x l2 _] using rev_ind; [done|].
  by rewrite app_assoc, !List.last_last.
Qed.

Lemma dir_only_app_slash a b :
  Fs.dir_only (a ++ "/"%char :: b) = Fs.dir_only b.
Proof.
  unfold Fs.dir_only. cbn [list_ascii_of_string].
  rewrite split_app_slash, last_app_nonempty; [done|apply split_nonempty].
Qed.

Lemma dir_only_join a b :
  nostart b -> Fs.dir_only (Fs.os_path_join a b) = Fs.dir_only b.
Proof.
  intros Hb. unfold Fs.os_path_join. cbn [list_ascii_of_string]. rewrite Hb.
  destruct (bool_decide (a = [])) eqn:Ea; simpl.
  - apply bool_decide_eq_true in Ea as ->. done.
  - destruct (Py.endswith a ["/"%char]) eqn:Es.
    + apply endswith_slash in Es as [a' ->].
      rewrite <-app_assoc. simpl. apply dir_only_app_slash.
    + apply dir_only_app_slash.
Qed.

Lemma dir_only_false_comps b : Fs.dir_only b = false -> Fs.comps b <> [].
Proof.
  unfold Fs.dir_only, Fs.comps. cbn [list_ascii_of_string].
  rewrite negb_false_iff. intros H.
  pose proof (split_nonempty b) as Hne.
  destruct (Py.split b ["/"%char]) as [|h t _] using rev_ind; [done|].
  rewrite List.last_last in H. rewrite filter_app, filter_cons.
  rewrite decide_True by by rewrite H. intros E.
  by apply app_eq_nil in E as [_ ?].
Qed.

Lemma comps_no_slash x : no_slash x -> Fs.comps x = [] \/ Fs.comps x = [x].
Proof.
  intros Hx. unfold Fs.comps. cbn [list_ascii_of_string].
  rewrite split_slash_name by done. rewrite filter_cons.
  destruct (decide _); [by right|by left].
Qed.

Lemma join_nostart fp sub :
  nostart fp -> no_slash sub -> nostart (Fs.os_path_join fp sub).
Proof.
  intros Hfp Hsub. pose proof (no_slash_nostart _ Hsub) as Hs.
  unfold Fs.os_path_join. cbn [list_ascii_of_string]. rewrite Hs.
  destruct fp as [|c fp]; [done|].
  unfold nostart, Py.startswith in *. by destruct (_ || _).
Qed.

Lemma replace_space_no_slash s :
  no_slash s -> no_slash (Py.replace_from [" "%char] ["_"%char] 0 s).
Proof.
  induction 1 as [|c s Hc Hs IH]; [constructor|].
  cbn [Py.replace_from Py.is_prefix length Nat.sub].
  destruct (Py.eqc " " c && true); simpl.
  - constructor; [done|exact IH].
  - by constructor.
Qed.

Lemma get_subfolder_name_no_slash x :
  no_slash x -> no_slash (Planner.get_subfolder_name x).
Proof.
  intros Hx. unfold Planner.get_subfolder_name, Py.replace.
  cbn [list_ascii_of_string]. apply replace_space_no_slash.
  destruct (Py.endswith x _); [|done]. unfold Py.drop_last, no_slash.
  by apply Forall_take.
Qed.

Lemma PLAN_comps W :
  Fs.comps (Planner.PLAN_FOLDER W) = Fs.comps W ++ [["p"; "l"; "a"; "n"]%char].
Proof. unfold Planner.PLAN_FOLDER. by rewrite comps_join. Qed.

Lemma assoc_set_entry_eq x v es : Fs.assoc x (Fs.set_entry x v es) = Some v.
Proof.
  induction es as [|[y n] es IH]; simpl.
  - by rewrite bool_decide_eq_true_2.
  - case_bool_decide as E; simpl.
    + by rewrite bool_decide_eq_true_2.
    + by rewrite bool_decide_eq_false_2.
Qed.

Lemma assoc_set_entry_ne x y v es :
  x <> y -> Fs.assoc y (Fs.set_entry x v es) = Fs.assoc y es.
Proof.
  intros Hxy. induction es as [|[z n] es IH]; simpl.
  - by rewrite bool_decide_eq_false_2.
  - case_bool_decide as E; simpl.
    + subst z. by rewrite !bool_decide_eq_false_2.
    + by rewrite IH.
Qed.

Lemma lookup_cons_Dir x p es :
  Fs.lookup (x :: p) (Fs.Dir es)
  = match Fs.assoc x es with Some m => Fs.lookup p m | None => None end.
Proof. reflexivity. Qed.

Lemma lookup_mkchain q p c : Fs.lookup p (Fs.mkchain q) <> Some (Fs.File c).
Proof.
  revert p. induction q as [|x q IH]; intros [|y p]; simpl; try done.
  case_bool_decide; [apply IH|done].
Qed.

Lemma lookup_File_nil n c p :
  Fs.lookup p (Fs.File c) = Some n -> p = [] /\ n = Fs.File c.
Proof. destruct p; simpl; [by intros [= <-]|done]. Qed.

(** Creating directories leaves every file where it is. *)
Lemma makedirs_at_files q n n' p c :
  Fs.makedirs_at q n = Some n' ->
  Fs.lookup p n' = Some (Fs.File c) <-> Fs.lookup p n = Some (Fs.File c).
Proof.
  revert n n' p. induction q as [|x q IH]; intros [c0|es] n' p; simpl; try done.
  destruct (Fs.assoc x es) as [m|] eqn:Ex.
  - destruct (Fs.makedirs_at q m) as [m'|] eqn:Em; [|done]. intros [= <-].
    destruct p as [|y p]; [done|]. rewrite !lookup_cons_Dir.
    destruct (decide (x = y)) as [->|Hne].
    + rewrite assoc_set_entry_eq, Ex. by apply IH.
    + by rewrite assoc_set_entry_ne.
  - intros [= <-]. destruct p as [|y p]; [done|]. rewrite !lookup_cons_Dir.
    destruct (decide (x = y)) as [->|Hne].
    + rewrite assoc_set_entry_eq, Ex. split; [|done].
      intros H. by apply lookup_mkchain in H.
    + by rewrite assoc_set_entry_ne.
Qed.

(** Writing a file changes the file at that path and no other. *)
Lemma write_at_files q c' n n' :
  Fs.write_at q c' n = Some n' ->
  Fs.lookup q n' = Some (Fs.File c')
  /\ forall p c, p <> q ->
       Fs.lookup p n' = Some (Fs.File c) <-> Fs.lookup p n = Some (Fs.File c).
Proof.
  revert n n'. induction q as [|x q IH]; intros [c0|es] n';
    cbn [Fs.write_at]; try done.
  destruct q as [|x' q].
  - destruct (Fs.assoc x es) as [[c1|es1]|] eqn:Ex; try done.
    + intros [= <-]. split.
      { rewrite lookup_cons_Dir, assoc_set_entry_eq. done. }
      intros [|y p] c Hp; [done|]. rewrite !lookup_cons_Dir.
      destruct (decide (x = y)) as [->|Hne].
      * rewrite assoc_set_entry_eq, Ex.
        destruct p as [|z p]; [done|]. done.
      * by rewrite assoc_set_entry_ne.
    + intros [= <-]. split.
      { rewrite lookup_cons_Dir, assoc_set_entry_eq. done. }
      intros [|y p] c Hp; [done|]. rewrite !lookup_cons_Dir.
      destruct (decide (x = y)) as [->|Hne].
      * rewrite assoc_set_entry_eq, Ex.
        destruct p as [|z p]; [done|]. done.
      * by rewrite assoc_set_entry_ne.
  - destruct (Fs.assoc x es) as [m|] eqn:Ex; [|done].
    destruct (Fs.write_at (x' :: q) c' m) as [m'|] eqn:Em; [|done].
    intros [= <-]. destruct (IH _ _ Em) as [Hq Hother]. split.
    { by rewrite lookup_cons_Dir, assoc_set_entry_eq. }
    intros [|y p] c Hp; [done|]. rewrite !lookup_cons_Dir.
    destruct (decide (x = y)) as [->|Hne].
    + rewrite assoc_set_entry_eq, Ex. apply Hother. congruence.
    + by rewrite assoc_set_entry_ne.
Qed.

Lemma bind_not_fuel {A B} (x : result A) (f : A -> result B) :
  x ≫= f <> OutOfFuel -> x <> OutOfFuel.
Proof. by destruct x. Qed.

Lemma try_exit_not_fuel {A} (x : result A) :
  try_exit x <> OutOfFuel <-> x <> OutOfFuel.
Proof. by destruct x. Qed.

Lemma read_file_not_fuel fs p : Fs.read_file fs p <> OutOfFuel.
Proof.
  unfold Fs.read_file. destruct (Fs.dir_only p); [done|].
  by destruct (Fs.lookup _ _) as [[]|].
Qed.

Lemma of_option_not_fuel {A} e (o : option A) : of_option e o <> OutOfFuel.
Proof. by destruct o. Qed.

Lemma makedirs_not_fuel fs p : Fs.makedirs fs p <> OutOfFuel.
Proof.
  unfold Fs.makedirs. destruct (bool_decide _); [done|]. apply of_option_not_fuel.
Qed.

Lemma copy_not_fuel fs src dst : Fs.copy fs src dst <> OutOfFuel.
Proof.
  unfold Fs.copy. destruct (bool_decide _); [done|].
  pose proof (read_file_not_fuel fs src).
  destruct (Fs.read_file fs src); try done. simpl.
  unfold Fs.write_file. destruct (Fs.dir_only _); [done|]. apply of_option_not_fuel.
Qed.

Lemma is_index_file_not_fuel fs p : Planner.is_index_file fs p <> OutOfFuel.
Proof.
  unfold Planner.is_index_file. pose proof (read_file_not_fuel fs p).
  by destruct (Fs.read_file fs p).
Qed.

Section Termination.
Variable W : text.
Variable ws : Fs.node.

Abbreviation PLAN := (Planner.PLAN_FOLDER W).
Abbreviation Inv := (kept (Fs.comps PLAN) ws).

Lemma process_line_mono rec1 rec2 fs fp line :
  mono rec1 rec2 ->
  Planner.process_line W rec1 fs fp line <> OutOfFuel ->
  Planner.process_line W rec2 fs fp line = Planner.process_line W rec1 fs fp line.
Proof.
  intros Hm. unfold Planner.process_line.
  destruct (of_option _ _) as [m| | |]; try done. simpl.
  destruct (if Fs.isfile _ _ then _ else _) as [md| | |]; try done. simpl.
  destruct (Planner.is_index_file fs md) as [[]| | |]; try done. simpl.
  apply Hm.
Qed.

Lemma process_lines_mono rec1 rec2 lines fs fp :
  mono rec1 rec2 ->
  Planner.process_lines W rec1 fs fp lines <> OutOfFuel ->
  Planner.process_lines W rec2 fs fp lines
  = Planner.process_lines W rec1 fs fp lines.
Proof.
  intros Hm. revert fs. induction lines as [|l lines IH]; intros fs; [done|].
  simpl. intros H. pose proof (bind_not_fuel _ _ H) as H1.
  rewrite (process_line_mono rec1 rec2) by done.
  destruct (Planner.process_line W rec1 fs fp l) as [fs1| | |]; try done.
  simpl in *. by apply IH.
Qed.

Lemma process_index_mono_S n :
  mono (Planner.process_index W n) (Planner.process_index W (S n)).
Proof.
  induction n as [|n IH]; intros fs fp nm H; [by destruct H|].
  rewrite (process_index_S W (S n)). rewrite process_index_S in H |- *.
  destruct (if negb _ then _ else _) as [fs1| | |]; try done.
  cbn [mbind result_bind] in *.
  apply (proj1 (try_exit_not_fuel _)) in H. f_equal.
  destruct (Fs.read_file fs1 _) as [c| | |]; try done.
  cbn [mbind result_bind] in *.
  by apply process_lines_mono.
Qed.

Lemma process_index_mono n m :
  n <= m -> mono (Planner.process_index W n) (Planner.process_index W m).
Proof.
  induction 1 as [|m Hle IH]; [by intros ????|].
  intros fs fp nm H. rewrite process_index_mono_S; [by apply IH|].
  by rewrite IH.
Qed.

Lemma kept_refl : Inv ws.
Proof. split; [by left|]. intros p c H. by exists c. Qed.

Lemma kept_makedirs fs p fs' :
  Inv fs -> Fs.makedirs fs p = Ok fs' -> Inv fs'.
Proof.
  intros [H1 H2]. unfold Fs.makedirs. destruct (bool_decide _); [done|].
  destruct (Fs.makedirs_at _ fs) as [n|] eqn:E; [|done]. intros [= <-]. split.
  - intros q c Hq. apply H1. by apply (makedirs_at_files _ _ _ q c E).
  - intros q c Hq. destruct (H2 q c Hq) as [c' Hc']. exists c'.
    by apply (makedirs_at_files _ _ _ q c' E).
Qed.

Lemma kept_write fs q c fs' :
  Inv fs -> under (Fs.comps PLAN) q -> nonindex c ->
  Fs.write_at q c fs = Some fs' -> Inv fs'.
Proof.
  intros [H1 H2] Hq Hc E. destruct (write_at_files _ _ _ _ E) as [Hnew Hold].
  split.
  - intros p c0 Hp. destruct (decide (p = q)) as [->|Hne].
    + rewrite Hnew in Hp. injection Hp as <-. by right.
    + apply H1. by apply Hold.
  - intros p c0 Hp. destruct (decide (p = q)) as [->|Hne]; [by exists c|].
    destruct (H2 p c0 Hp) as [c' Hc']. exists c'. by apply Hold.
Qed.

Lemma kept_copy fs src fp fs' :
  Inv fs -> nostart fp ->
  Planner.is_index_file fs src = Ok false ->
  Fs.copy fs src (Fs.os_path_join PLAN fp) = Ok fs' -> Inv fs'.
Proof.
  intros HI Hfp Hidx. apply is_index_file_read in Hidx as (c & Hread & Hc).
  unfold Fs.copy. set (dst := if Fs.isdir _ _ then _ else _).
  destruct (bool_decide _); [done|]. rewrite Hread. simpl.
  unfold Fs.write_file. destruct (Fs.dir_only dst) eqn:Hd; [done|].
  destruct (Fs.write_at _ c fs) as [n|] eqn:E; [|done]. intros [= <-].
  apply (kept_write fs (Fs.comps dst) c); try done.
  subst dst. destruct (Fs.isdir fs _).
  - pose proof (no_slash_nostart _ (basename_no_slash src)) as Hb.
    rewrite dir_only_join in Hd by done. apply dir_only_false_comps in Hd.
    rewrite !comps_join by done.
    exists (Fs.comps fp ++ Fs.comps (Fs.basename src)).
    split; [|by rewrite app_assoc]. intros [_ ?]%app_eq_nil. done.
  - rewrite dir_only_join in Hd by done. apply dir_only_false_comps in Hd.
    rewrite comps_join by done. by exists (Fs.comps fp).
Qed.

Lemma read_not_under name :
  no_slash name -> ~ under (Fs.comps PLAN) (Fs.comps (Fs.os_path_join W name)).
Proof.
  intros Hn (r & Hr & E). rewrite comps_join in E by by apply no_slash_nostart.
  rewrite PLAN_comps, <-app_assoc in E. apply app_inv_head in E.
  destruct (comps_no_slash name Hn) as [E'|E']; rewrite E' in E; [done|].
  injection E as _ E. by destruct r.
Qed.

Lemma read_kept fs p c :
  Inv fs -> ~ under (Fs.comps PLAN) (Fs.comps p) ->
  Fs.read_file fs p = Ok c -> Fs.read_file ws p = Ok c.
Proof.
  intros [H1 _] Hu. unfold Fs.read_file. destruct (Fs.dir_only p); [done|].
  destruct (Fs.lookup (Fs.comps p) fs) as [[c0|es]|] eqn:E; try done.
  intros [= ->]. destruct (H1 _ _ E) as [->|[? _]]; done.
Qed.

Lemma index_kept fs md :
  Inv fs -> Planner.is_index_file fs md = Ok true ->
  Planner.is_index_file ws md = Ok true.
Proof.
  intros [H1 _]. rewrite !is_index_file_read. intros (c & Hread & Hc).
  exists c. split; [|done]. revert Hread. unfold Fs.read_file.
  destruct (Fs.dir_only md); [done|].
  destruct (Fs.lookup (Fs.comps md) fs) as [[c0|es]|] eqn:E; try done.
  intros [= ->]. destruct (H1 _ _ E) as [->|[_ Hn]]; [done|].
  unfold nonindex in Hn. congruence.
Qed.

Lemma isfile_kept fs p : Inv fs -> Fs.isfile ws p = true -> Fs.isfile fs p = true.
Proof.
  intros [_ H2]. unfold Fs.isfile. destruct (negb _); [|done]. simpl.
  destruct (Fs.lookup (Fs.comps p) ws) as [[c|es]|] eqn:E; try done.
  intros _. by destruct (H2 _ _ E) as [c' ->].
Qed.

Lemma index_isfile fs md :
  Planner.is_index_file fs md = Ok true -> Fs.isfile fs md = true.
Proof.
  rewrite is_index_file_read. intros (c & Hread & _). revert Hread.
  unfold Fs.read_file, Fs.isfile. destruct (Fs.dir_only md); [done|].
  by destruct (Fs.lookup (Fs.comps md) fs) as [[c0|es]|].
Qed.

(** The call that the loop makes for a line is an edge of [follows]. *)
Lemma line_follows fs content parent line m md :
  Inv fs ->
  Fs.read_file ws (Fs.os_path_join W parent) = Ok content ->
  line ∈ Py.readlines content ->
  Re.search Re.no_flags Planner.index_entry line = Some m ->
  (if Fs.isfile fs (Fs.os_path_join W (default [] (Re.group line m 1)))
   then Ok (Fs.os_path_join W (default [] (Re.group line m 1)))
   else if Fs.isfile fs (Py.replace backslash []
                  (Fs.os_path_join W (default [] (Re.group line m 1))))
        then Ok (Py.replace backslash []
                  (Fs.os_path_join W (default [] (Re.group line m 1))))
        else Exit) = Ok md ->
  Planner.is_index_file fs md = Ok true ->
  Planner.follows W ws (Fs.basename md) parent.
Proof.
  intros HI Hread Hin Hs. unfold Planner.follows, Planner.resolve.
  set (m1 := Fs.os_path_join W (default [] (Re.group line m 1))).
  set (m2 := Py.replace backslash [] m1). intros Hres Hidx.
  exists content, line, md. split; [done|]. split; [done|].
  pose proof (index_kept _ _ HI Hidx) as Hidx'.
  pose proof (index_isfile _ _ Hidx') as Hf.
  split; [|by split]. rewrite Hs. fold m1. fold m2.
  destruct (Fs.isfile fs m1) eqn:E1.
  - injection Hres as <-. by rewrite Hf.
  - destruct (Fs.isfile ws m1) eqn:E1'.
    { apply (isfile_kept fs) in E1'; [congruence|done]. }
    destruct (Fs.isfile fs m2) eqn:E2; [|done].
    injection Hres as <-. by rewrite Hf.
Qed.

Lemma lines_finish content parent fp :
  nostart fp ->
  Fs.read_file ws (Fs.os_path_join W parent) = Ok content ->
  (forall child, Planner.follows W ws child parent ->
     forall fs fp', Inv fs -> nostart fp' -> no_slash child ->
                    finishes W ws fs fp' child) ->
  forall lines, lines ⊆ Py.readlines content ->
  forall fs, Inv fs ->
  exists n r, Planner.process_lines W (Planner.process_index W n) fs fp lines = r
              /\ r <> OutOfFuel /\ forall fs', r = Ok fs' -> Inv fs'.
Proof.
  intros Hfp Hread IHacc lines. induction lines as [|l lines IH]; intros Hsub fs HI.
  - exists 0, (Ok fs). split; [done|]. split; [done|]. by intros ? [= <-].
  - assert (Hl : l ∈ Py.readlines content) by (apply Hsub; apply list_elem_of_here).
    assert (Hsub' : lines ⊆ Py.readlines content).
    { intros x Hx. apply Hsub. by apply list_elem_of_further. }
    specialize (IH Hsub').
    (* the first line *)
    assert (Hfirst : exists n r,
      Planner.process_line W (Planner.process_index W n) fs fp l = r
      /\ r <> OutOfFuel /\ forall fs', r = Ok fs' -> Inv fs').
    { unfold Planner.process_line.
      destruct (Re.search Re.no_flags Planner.index_entry l) as [m|] eqn:Hs;
        [|by exists 0, (Raise AttributeError)].
      cbn [of_option mbind result_bind].
      destruct (if Fs.isfile fs _ then _ else _) as [md| | |] eqn:Hres.
      2:{ by exists 0, (Raise e). }
      2:{ by exists 0, Exit. }
      2:{ exfalso. revert Hres. by repeat destruct (Fs.isfile _ _). }
      cbn [mbind result_bind].
      destruct (Planner.is_index_file fs md) as [[]|e| |] eqn:Hidx.
      - cbn [mbind result_bind].
        destruct (IHacc (Fs.basename md)
                    (line_follows fs content parent l m md HI Hread Hl Hs Hres Hidx)
                    fs (Fs.os_path_join fp
                          (Planner.get_subfolder_name (Fs.basename md))) HI)
          as (n & r & E & Hr & Hk).
        { apply join_nostart; [done|].
          apply get_subfolder_name_no_slash, basename_no_slash. }
        { apply basename_no_slash. }
        by exists n, r.
      - cbn [mbind result_bind].
        destruct (Fs.copy fs md (Fs.os_path_join PLAN fp)) as [fs1|e| |] eqn:Ec.
        + exists 0, (Ok fs1). split; [done|]. split; [done|].
          intros ? [= <-]. by apply (kept_copy fs md fp).
        + by exists 0, (Raise e).
        + by exists 0, Exit.
        + by destruct (copy_not_fuel fs md (Fs.os_path_join PLAN fp)).
      - by exists 0, (Raise e).
      - by exists 0, Exit.
      - by destruct (is_index_file_not_fuel fs md). }
    destruct Hfirst as (n1 & r1 & E1 & Hr1 & Hk1).
    destruct r1 as [fs1|e| |]; try done.
    + destruct (IH fs1 (Hk1 _ eq_refl)) as (n2 & r2 & E2 & Hr2 & Hk2).
      exists (max n1 n2), r2. split; [|done]. simpl.
      rewrite (process_line_mono (Planner.process_index W n1));
        [|apply process_index_mono; lia|by rewrite E1].
      rewrite E1. simpl.
      rewrite (process_lines_mono (Planner.process_index W n2));
        [done|apply process_index_mono; lia|by rewrite E2].
    + exists n1, (Raise e). simpl. by rewrite E1.
    + exists n1, Exit. simpl. by rewrite E1.
Qed.

Lemma finishes_acc name :
  Acc (Planner.follows W ws) name ->
  forall fs fp, Inv fs -> nostart fp -> no_slash name -> finishes W ws fs fp name.
Proof.
  induction 1 as [name _ IH]. intros fs fp HI Hfp Hname. unfold finishes.
  assert (Hmk : exists r0,
     (if negb (bool_decide (fp = []))
      then Fs.makedirs fs (Fs.os_path_join PLAN fp) else Ok fs) = r0
     /\ r0 <> OutOfFuel /\ forall fs1, r0 = Ok fs1 -> Inv fs1).
  { destruct (negb _).
    - destruct (Fs.makedirs fs _) as [fs1|e| |] eqn:E.
      + exists (Ok fs1). split; [done|]. split; [done|]. intros ? [= <-].
        by apply (kept_makedirs fs _ _ HI E).
      + by exists (Raise e).
      + by exists Exit.
      + by destruct (makedirs_not_fuel fs (Fs.os_path_join PLAN fp)).
    - exists (Ok fs). split; [done|]. split; [done|]. by intros ? [= <-]. }
  destruct Hmk as (r0 & E0 & Hr0 & Hk0).
  destruct r0 as [fs1|e| |]; try done.
  2:{ exists 1, (Raise e). rewrite process_index_S, E0. done. }
  2:{ exists 1, Exit. rewrite process_index_S, E0. done. }
  specialize (Hk0 _ eq_refl).
  destruct (Fs.read_file fs1 (Fs.os_path_join W name)) as [content|e| |] eqn:Hread.
  2:{ exists 1, Exit. rewrite process_index_S, E0. simpl. by rewrite Hread. }
  2:{ exists 1, Exit. rewrite process_index_S, E0. simpl. by rewrite Hread. }
  2:{ by destruct (read_file_not_fuel fs1 (Fs.os_path_join W name)). }
  pose proof (read_kept fs1 _ _ Hk0 (read_not_under name Hname) Hread) as Hread'.
  destruct (lines_finish content name fp Hfp Hread' IH (Py.readlines content)
              (fun x Hx => Hx) fs1 Hk0) as (n & r & E & Hr & Hk).
  exists (S n), (try_exit r). rewrite process_index_S, E0. simpl.
  rewrite Hread. simpl. rewrite E. split; [done|].
  split; [by apply try_exit_not_fuel|]. intros fs' H. apply Hk. by destruct r.
Qed.

(** X20.  The recursion of [process_index] comes to an end, with a plan,
    an exception or an exit, on every workspace in which the relation that
    it follows is well-founded at the root index: from the name of the
    file that a call opens in the work folder to the base name of each
    entry of that file that resolves to an index file. *)
Theorem process_index_terminates :
  Acc (Planner.follows W ws) "index.md" ->
  exists fuel, Planner.process_index W fuel ws [] "index.md" <> OutOfFuel.
Proof.
  intros Hacc.
  destruct (finishes_acc _ Hacc ws [] kept_refl) as (n & r & E & Hr & _).
  - done.
  - unfold no_slash. cbn [list_ascii_of_string]. by repeat constructor.
  - exists n. by rewrite E.
Qed.

End Termination.

(** In a concrete workspace, the edges out of a file are found by
    evaluation. *)
Ltac follow_edges H :=
  let content := fresh "content" in
  let line := fresh "line" in
  let md := fresh "md" in
  let Hread := fresh "Hread" in
  let Hin := fresh "Hin" in
  let Hres := fresh "Hres" in
  let Hidx := fresh "Hidx" in
  destruct H as (content & line & md & Hread & Hin & Hres & Hidx & ->);
  vm_compute in Hread; injection Hread as <-;
  vm_compute in Hin;
  repeat (apply elem_of_cons in Hin as [->|Hin]);
  [..|by apply elem_of_nil in Hin];
  vm_compute in Hres; injection Hres as <-;
  vm_compute in Hidx; try discriminate Hidx.

Lemma flat_index_accessible :
  Acc (Planner.follows "ws" Scenario.flat_workspace_ready) "index.md".
Proof.
  constructor. intros child H. follow_edges H.
  constructor. intros child H. follow_edges H.
Qed.

Lemma process_index_terminates_witness :
  Acc (Planner.follows "ws" Scenario.flat_workspace_ready) "index.md"
  /\ exists fuel,
       Planner.process_index "ws" fuel Scenario.flat_workspace_ready [] "index.md"
       <> OutOfFuel.
Proof.
  split; [exact flat_index_accessible|].
  exact (process_index_terminates "ws" Scenario.flat_workspace_ready
           flat_index_accessible).
Defined.

(** The files of the nested workspace. *)
Lemma nested_files p c :
  Fs.read_file Scenario.nested_workspace_planned p = Ok c ->
  c ∈ [ "* [A](a.md)" ++ nl ++ "* [B](sub/index.md)" ++ nl;
        "Hello" ++ nl; "* [C](sub/c.md)" ++ nl; "World" ++ nl ].
Proof.
  unfold Fs.read_file. destruct (Fs.dir_only p); [done|].
  generalize (Fs.comps p). intros q.
  destruct (Fs.lookup q Scenario.nested_workspace_planned) as [[c0|es]|] eqn:E;
    try done.
  intros [= ->]. revert E.
  destruct q as [|x1 [|x2 [|x3 [|x4 q]]]]; cbn;
    repeat (case_bool_decide; cbn); try done; intros [= <-];
    vm_compute; set_solver.
Qed.

Lemma nested_references_well_founded x :
  Acc (Planner.refers "ws" Scenario.nested_workspace_planned) x.
Proof.
  assert (Hsub : Acc (Planner.refers "ws" Scenario.nested_workspace_planned)
                     "ws/sub/index.md").
  { constructor. intros y (_ & content & line & Hread & Hin & Hres & Hidx).
    vm_compute in Hread. injection Hread as <-. vm_compute in Hin.
    repeat (apply elem_of_cons in Hin as [->|Hin]); [|by apply elem_of_nil in Hin].
    vm_compute in Hres. injection Hres as <-. vm_compute in Hidx. discriminate. }
  constructor. intros y (Hx & content & line & Hread & Hin & Hres & Hidx).
  apply is_index_file_read in Hx as (c & Hread' & Hc).
  rewrite Hread in Hread'. injection Hread' as <-.
  apply nested_files in Hread.
  repeat (apply elem_of_cons in Hread as [->|Hread]);
    [..|by apply elem_of_nil in Hread];
    vm_compute in Hc; try discriminate Hc;
    vm_compute in Hin;
    repeat (apply elem_of_cons in Hin as [->|Hin]);
    try (by apply elem_of_nil in Hin);
    vm_compute in Hres; injection Hres as <-;
    vm_compute in Hidx; try discriminate Hidx; exact Hsub.
Qed.

(** C10.  In the nested workspace no index file is reachable from itself
    through the entries, as files are resolved: the root index refers to
    [sub/index.md], which refers to no index.  The recursion does not
    follow these references.  For the entry that resolves to
    [sub/index.md], an index file, [process_index] passes on the base name
    [index.md], which the call opens in the work folder: the call made is
    that of the root index again, with the same arguments.  So the
    recursion has no end of its own: no depth gives a plan, and under
    every bound on the depth of the call stack the run ends with
    [sys.exit(1)].  The docstring of [process_index] speaks of calling it
    on the entries that are index files, and the branch that copies a leaf
    uses the resolved path. *)
Theorem nested_index_is_processed_as_the_root_index :
  (forall x, Acc (Planner.refers "ws" Scenario.nested_workspace_planned) x)
  /\ Planner.resolve "ws" Scenario.nested_workspace_copied
       ("* [B](sub/index.md)" ++ nl) = Some ("ws/sub/index.md" : list ascii)
  /\ Planner.is_index_file Scenario.nested_workspace_copied "ws/sub/index.md"
     = Ok true
  /\ (forall rec,
        Planner.process_line "ws" rec Scenario.nested_workspace_copied []
          ("* [B](sub/index.md)" ++ nl)
        = rec Scenario.nested_workspace_copied [] "index.md")
  /\ (forall fuel,
        Planner.plan_import "ws" fuel Scenario.nested_workspace = OutOfFuel)
  /\ forall limit,
       Planner.plan_import_limited "ws" limit Scenario.nested_workspace = Exit.
Proof.
  assert (H : forall fuel,
    Planner.plan_import "ws" fuel Scenario.nested_workspace = OutOfFuel).
  { intros fuel. unfold Planner.plan_import.
    change (Planner.check_plan_requirements "ws" Scenario.nested_workspace)
      with (Ok Scenario.nested_workspace_planned).
    cbn [mbind result_bind]. apply nested_planned_out_of_fuel. }
  split; [apply nested_references_well_founded|].
  split; [vm_compute; reflexivity|].
  split; [vm_compute; reflexivity|].
  split; [intros rec; vm_compute; reflexivity|].
  split; [exact H|].
  intros limit. unfold Planner.plan_import_limited. by rewrite H.
Qed.

(** ** C7: one code region *)

Import Re Scenario.

(** *** Literals, stars and scanning *)

(** ** Literals *)

Lemma lit_match_case fl l s :
  Re.ignorecase fl = false ->
  Re.lit_match fl l s = if Py.is_prefix l s then Some (drop (length l) s) else None.
Proof.
  intros Hfl. revert s. induction l as [|a l IH]; intros s; [done|].
  destruct s as [|b s]; [done|]. simpl. unfold Re.chr_eq. rewrite Hfl.
  destruct (Py.eqc a b); [apply IH|done].
Qed.

Lemma is_prefix_app_l p q s :
  Py.is_prefix p s = false -> Py.is_prefix (p ++ q) s = false.
Proof.
  revert s. induction p as [|a p IH]; intros s; [done|].
  destruct s as [|b s]; [done|]. simpl.
  destruct (Py.eqc a b); [apply IH|done].
Qed.

Lemma is_prefix_lacks p c q s :
  lacks c s -> Py.is_prefix (p ++ c :: q) s = false.
Proof.
  revert s. induction p as [|a p IH]; intros s Hs; simpl.
  - destruct s as [|b s]; [done|]. apply Forall_cons in Hs as [Hb _].
    assert (Py.eqc c b = false) as -> by (apply eqc_false; congruence). done.
  - destruct s as [|b s]; [done|]. apply Forall_cons in Hs as [_ Hs].
    rewrite (IH s Hs). apply andb_false_r.
Qed.

Lemma is_prefix_drop p s : Py.is_prefix p (p ++ s) = true.
Proof. apply is_prefix_app. Qed.

(** ** Stars *)

Lemma star_lazy_here fl c (k : Re.cont) i s cs r :
  k i s cs = Some r -> Re.star_match fl false c k i s cs = Some r.
Proof.
  intros Hk. destruct s as [|a s]; [done|]. rewrite star_match_cons, Hk.
  by destruct (Re.cls_ok fl c a).
Qed.

(** A lazy star passes over the characters at which its continuation
    fails. *)
Lemma star_lazy_skip fl c (k : Re.cont) x a s i cs :
  (forall j y s' cs', y <> x -> k j (y :: s') cs' = None) ->
  Forall (fun y => y <> x /\ Re.cls_ok fl c y = true) a ->
  Re.star_match fl false c k i (a ++ s) cs
  = Re.star_match fl false c k (i + length a) s cs.
Proof.
  intros Hk Ha. revert i. induction Ha as [|y a [Hy Hc] Ha IH]; intros i; simpl.
  - by rewrite Nat.add_0_r.
  - fold (Re.star_match fl false c k (S i) (a ++ s) cs).
    rewrite Hc, (Hk _ _ _ _ Hy), IH. f_equal. lia.
Qed.

(** A greedy star finds nothing where the character that its
    continuation needs is absent. *)
Lemma star_greedy_none fl c (k : Re.cont) x b i cs :
  (forall j s' cs', head s' <> Some x -> k j s' cs' = None) ->
  lacks x b -> Re.star_match fl true c k i b cs = None.
Proof.
  intros Hk Hb. revert i. induction Hb as [|y b Hy Hb IH]; intros i.
  - simpl. by apply Hk.
  - rewrite star_match_cons, IH.
    assert (k i (y :: b) cs = None) as -> by (apply Hk; simpl; congruence).
    by destruct (Re.cls_ok fl c y).
Qed.

(** A greedy star gives back up to the last such character. *)
Lemma star_greedy_last fl c (k : Re.cont) x a b i cs r :
  (forall j s' cs', head s' <> Some x -> k j s' cs' = None) ->
  Forall (fun y => Re.cls_ok fl c y = true) a ->
  lacks x b ->
  k (i + length a) (x :: b) cs = Some r ->
  Re.star_match fl true c k i (a ++ x :: b) cs = Some r.
Proof.
  intros Hk Ha Hb. revert i. induction Ha as [|y a Hy Ha IH]; intros i Hr.
  - simpl app. rewrite star_match_cons, (star_greedy_none fl c k x b) by done.
    simpl in Hr. rewrite Nat.add_0_r in Hr. rewrite Hr.
    by destruct (Re.cls_ok fl c x).
  - simpl app. rewrite star_match_cons, Hy, IH; [done|].
    simpl in Hr. by rewrite Nat.add_succ_r in Hr.
Qed.

(** ** Scanning for matches *)

Lemma matches_from_skip fl r a s i :
  Re.matches_from fl r (length a) i (a ++ s)
  = Re.matches_from fl r 0 (i + length a) s.
Proof.
  revert i. induction a as [|c a IH]; intros i; simpl.
  - by rewrite Nat.add_0_r.
  - rewrite IH. f_equal. lia.
Qed.

Lemma matches_from_0_cons fl r i c s :
  Re.matches_from fl r 0 i (c :: s) =
  match Re.match_at fl r i (c :: s) with
  | Some m => m :: Re.matches_from fl r (Re.m_end m - i - 1) (S i) s
  | None => Re.matches_from fl r 0 (S i) s
  end.
Proof. reflexivity. Qed.


Lemma tails_fail_cons P c a s :
  tails_fail P (c :: a) s -> P (c :: a ++ s) /\ tails_fail P a s.
Proof.
  intros H. split; [by apply (H [] (c :: a))|].
  intros u t -> Ht. by apply (H (c :: u) t).
Qed.

Lemma matches_from_pass fl r a s i :
  (forall j, tails_fail (fun t => Re.match_at fl r j t = None) a s) ->
  Re.matches_from fl r 0 i (a ++ s)
  = Re.matches_from fl r 0 (i + length a) s.
Proof.
  intros H. revert i. induction a as [|c a IH]; intros i; simpl app.
  - by rewrite Nat.add_0_r.
  - rewrite matches_from_0_cons.
    destruct (tails_fail_cons _ _ _ _ (H i)) as [-> _].
    rewrite IH; [simpl; f_equal; lia|].
    intros j. by destruct (tails_fail_cons _ _ _ _ (H j)).
Qed.

Lemma search_from_pass fl r a s i :
  (forall j, tails_fail (fun t => Re.match_at fl r j t = None) a s) ->
  Re.search_from fl r i (a ++ s) = Re.search_from fl r (i + length a) s.
Proof.
  intros H. revert i. induction a as [|c a IH]; intros i; simpl app.
  - by rewrite Nat.add_0_r.
  - cbn [Re.search_from].
    destruct (tails_fail_cons _ _ _ _ (H i)) as [-> _].
    rewrite IH; [simpl; f_equal; lia|].
    intros j. by destruct (tails_fail_cons _ _ _ _ (H j)).
Qed.

(** ** Replacing *)

Lemma replace_from_skip old new a s :
  Py.replace_from old new (length a) (a ++ s) = Py.replace_from old new 0 s.
Proof.
  induction a as [|c a IH]; [done|]. simpl. apply IH.
Qed.

Lemma replace_from_0_cons old new c s :
  Py.replace_from old new 0 (c :: s) =
  if Py.is_prefix old (c :: s)
  then new ++ Py.replace_from old new (length old - 1) s
  else c :: Py.replace_from old new 0 s.
Proof. reflexivity. Qed.

Lemma replace_from_pass old new a s :
  tails_fail (fun t => Py.is_prefix old t = false) a s ->
  Py.replace_from old new 0 (a ++ s) = a ++ Py.replace_from old new 0 s.
Proof.
  induction a as [|c a IH]; intros H; [done|]. simpl app.
  destruct (tails_fail_cons _ _ _ _ H) as [H1 H2].
  rewrite replace_from_0_cons, H1, IH by done. done.
Qed.

Lemma replace_from_hit old new s :
  old <> [] ->
  Py.replace_from old new 0 (old ++ s) = new ++ Py.replace_from old new 0 s.
Proof.
  destruct old as [|c old]; [done|]. intros _. simpl app.
  rewrite replace_from_0_cons.
  replace (Py.is_prefix (c :: old) (c :: old ++ s)) with true
    by (symmetry; apply (is_prefix_app (c :: old) s)).
  f_equal. replace (length (c :: old) - 1) with (length old) by (simpl; lia).
  apply replace_from_skip.
Qed.

Lemma replace_nonempty old new s :
  old <> [] -> Py.replace old new s = Py.replace_from old new 0 s.
Proof. by destruct old. Qed.

(** Where the first character of [old] is absent, nothing is replaced. *)
Lemma replace_from_lacks c old new a s :
  lacks c a ->
  Py.replace_from (c :: old) new 0 (a ++ s)
  = a ++ Py.replace_from (c :: old) new 0 s.
Proof.
  induction 1 as [|y a Hy Ha IH]; [done|]. simpl app.
  rewrite replace_from_0_cons. cbn [Py.is_prefix].
  assert (Py.eqc c y = false) as -> by (apply eqc_false; congruence).
  simpl. by rewrite IH.
Qed.

Lemma replace_lacks c old new a :
  lacks c a -> Py.replace (c :: old) new a = a.
Proof.
  intros Ha. unfold Py.replace.
  rewrite <-(app_nil_r a) at 1. rewrite replace_from_lacks by done.
  simpl. by rewrite app_nil_r.
Qed.

(** ** Occurrences *)

Lemma occurs_cons pat c s :
  occurs pat (c :: s) = Py.is_prefix pat (c :: s) || occurs pat s.
Proof. reflexivity. Qed.

Lemma occurs_suffix pat u t : occurs pat (u ++ t) = false -> occurs pat t = false.
Proof.
  induction u as [|c u IH]; [done|]. simpl app. rewrite occurs_cons.
  intros [_ H]%orb_false_iff. by apply IH.
Qed.

Lemma occurs_tails pat a :
  occurs pat a = false -> tails_fail (fun t => Py.is_prefix pat t = false) a [].
Proof.
  intros H u t -> Ht. rewrite app_nil_r. apply occurs_suffix in H.
  destruct t as [|c t]; [done|]. rewrite occurs_cons in H.
  by apply orb_false_iff in H as [? _].
Qed.

(** No [<pre] arises where a text without one meets a text that starts
    with one. *)
Lemma pre_tails a Z :
  occurs "<pre" a = false ->
  tails_fail (fun t => Py.is_prefix "<pre" t = false) a ("<pre" ++ Z).
Proof.
  intros H u t -> Ht. apply occurs_suffix in H.
  destruct t as [|c1 t]; [done|]. rewrite occurs_cons in H.
  apply orb_false_iff in H as [H _]. revert H. cbn [list_ascii_of_string].
  destruct t as [|c2 [|c3 [|c4 t]]]; cbn [Py.is_prefix app];
    repeat match goal with
           | |- context [Py.eqc ?a ?b] => is_var b; destruct (Py.eqc a b)
           end; by cbn.
Qed.

Lemma tails_fail_impl (P Q : list ascii -> Prop) a s :
  (forall t, P t -> Q t) -> tails_fail P a s -> tails_fail Q a s.
Proof. intros HPQ H u t E Ht. apply HPQ. by apply (H u t). Qed.

Lemma match_at_lit_fail fl L rest j t :
  Re.ignorecase fl = false -> Py.is_prefix L t = false ->
  Re.match_at fl (Re.Seq (Re.Lit L) rest) j t = None.
Proof.
  intros Hfl H. unfold Re.match_at. cbn [Re.rmatch].
  by rewrite lit_match_case, H.
Qed.

(** *** Matching the code patterns *)

Lemma rmatch_seq fl r1 r2 i s cs k :
  rmatch fl (Seq r1 r2) i s cs k
  = rmatch fl r1 i s cs (fun i' s' cs' => rmatch fl r2 i' s' cs' k).
Proof. reflexivity. Qed.

Lemma rmatch_star fl g c i s cs k :
  rmatch fl (Star g c) i s cs k = star_match fl g c k i s cs.
Proof. reflexivity. Qed.

Lemma rmatch_grp fl n r i s cs k :
  rmatch fl (Grp n r) i s cs k
  = rmatch fl r i s cs (fun i' s' cs' => k i' s' ((n, (i, i')) :: cs')).
Proof. reflexivity. Qed.

Lemma rmatch_lit fl l s cs k i :
  ignorecase fl = false ->
  rmatch fl (Lit l) i (l ++ s) cs k = k (i + length l) s cs.
Proof.
  intros Hfl. cbn [rmatch]. rewrite lit_match_case, is_prefix_app by done.
  by rewrite drop_app_length.
Qed.

Lemma rmatch_lit_head fl x l y s cs k i :
  ignorecase fl = false -> head l = Some x -> y <> x ->
  rmatch fl (Lit l) i (y :: s) cs k = None.
Proof.
  intros Hfl Hl Hy. destruct l as [|x' l]; [done|]. injection Hl as ->.
  cbn [rmatch]. rewrite lit_match_case by done. cbn [Py.is_prefix].
  by assert (Py.eqc x y = false) as -> by (apply eqc_false; congruence).
Qed.

Lemma rmatch_lit_wrong fl x l s cs k i :
  ignorecase fl = false -> head l = Some x -> head s <> Some x ->
  rmatch fl (Lit l) i s cs k = None.
Proof.
  intros Hfl Hl Hs. destruct s as [|y s].
  - destruct l; [done|]. cbn [rmatch]. by rewrite lit_match_case.
  - apply (rmatch_lit_head fl x); [done..|]. simpl in Hs. congruence.
Qed.

(** A lazy [.*?] before a literal that starts with [x] runs to the first
    [x], if the rest matches from there. *)
Lemma rmatch_lazy_until fl x l (rest : regex) a s cs k i r :
  ignorecase fl = false -> head l = Some x ->
  Forall (fun y => y <> x /\ cls_ok fl CAny y = true) a ->
  rmatch fl (Seq (Lit l) rest) (i + length a) s cs k = Some r ->
  rmatch fl (Seq (Star false CAny) (Seq (Lit l) rest)) i (a ++ s) cs k
  = Some r.
Proof.
  intros Hfl Hl Ha Hr. rewrite rmatch_seq, rmatch_star.
  rewrite (star_lazy_skip fl CAny _ x a s i cs); [by apply star_lazy_here| |done].
  intros j y s' cs' Hy. rewrite rmatch_seq. by apply (rmatch_lit_head fl x).
Qed.

Lemma rmatch_lazy_lit_until fl x l a s cs k i r :
  ignorecase fl = false -> head l = Some x ->
  Forall (fun y => y <> x /\ cls_ok fl CAny y = true) a ->
  rmatch fl (Lit l) (i + length a) s cs k = Some r ->
  rmatch fl (Seq (Star false CAny) (Lit l)) i (a ++ s) cs k = Some r.
Proof.
  intros Hfl Hl Ha Hr. rewrite rmatch_seq, rmatch_star.
  rewrite (star_lazy_skip fl CAny _ x a s i cs); [by apply star_lazy_here| |done].
  intros j y s' cs' Hy. by apply (rmatch_lit_head fl x).
Qed.

Lemma rmatch_lazy_group_until fl n x l a s cs k i r :
  ignorecase fl = false -> head l = Some x ->
  Forall (fun y => y <> x /\ cls_ok fl CAny y = true) a ->
  rmatch fl (Lit l) (i + length a) s ((n, (i, i + length a)) :: cs) k
    = Some r ->
  rmatch fl (Seq (Grp n (Star false CAny)) (Lit l)) i (a ++ s) cs k = Some r.
Proof.
  intros Hfl Hl Ha Hr. rewrite rmatch_seq, rmatch_grp, rmatch_star.
  rewrite (star_lazy_skip fl CAny _ x a s i cs); [by apply star_lazy_here| |done].
  intros j y s' cs' Hy. by apply (rmatch_lit_head fl x).
Qed.

Lemma lacks_dotall x a :
  lacks x a -> Forall (fun y => y <> x /\ cls_ok DOTALL CAny y = true) a.
Proof. intros H. eapply Forall_impl; [exact H|]. by split. Qed.

Section Region.
Variables attrs body after : list ascii.
Hypothesis Hattrs : lacks ">" attrs.
Hypothesis Hbody : lacks "<" body.

Lemma code_region_length :
  length (Scenario.code_region attrs body)
  = 10 + length attrs + 1 + length body + 13.
Proof.
  unfold Scenario.code_region. rewrite !length_app.
  change (length (list_ascii_of_string "<pre><code")) with 10.
  change (length (list_ascii_of_string ">")) with 1.
  change (length (list_ascii_of_string "</code></pre>")) with 13. lia.
Qed.

Lemma code_block_match i :
  match_at DOTALL Transformer.code_block_re i
    (Scenario.code_region attrs body ++ after)
  = Some {| m_start := i;
            m_end := i + length (Scenario.code_region attrs body);
            m_caps := [] |}.
Proof.
  unfold match_at. rewrite code_region_length.
  unfold Transformer.code_block_re, Scenario.code_region.
  cbn [cat]. rewrite <-!app_assoc.
  rewrite rmatch_seq, rmatch_lit by done.
  change (length (list_ascii_of_string "<pre><code")) with 10.
  rewrite (rmatch_lazy_until DOTALL ">" _ _ _ _ _ _ _
             (i + 10 + length attrs + 1 + length body + 13, []));
    [f_equal; f_equal; lia|done|done|by apply lacks_dotall|].
  rewrite rmatch_seq, rmatch_lit by done.
  change (length (list_ascii_of_string ">")) with 1.
  rewrite (rmatch_lazy_lit_until DOTALL "<" _ _ _ _ _ _
             (i + 10 + length attrs + 1 + length body + 13, []));
    [done|done|done|by apply lacks_dotall|].
  rewrite rmatch_lit by done. unfold accept.
  change (length (list_ascii_of_string "</code></pre>")) with 13. done.
Qed.

Lemma code_content_match :
  match_at DOTALL Transformer.code_content_re 0
    (Scenario.code_region attrs body)
  = Some {| m_start := 0;
            m_end := length (Scenario.code_region attrs body);
            m_caps := [(1, (10 + length attrs + 1,
                            10 + length attrs + 1 + length body))] |}.
Proof.
  unfold match_at. rewrite code_region_length.
  unfold Transformer.code_content_re, Scenario.code_region.
  cbn [cat].
  rewrite rmatch_seq, rmatch_lit by done.
  change (length (list_ascii_of_string "<pre><code")) with 10.
  rewrite (rmatch_lazy_until DOTALL ">" _ _ _ _ _ _ _
             (10 + length attrs + 1 + length body + 13,
              [(1, (10 + length attrs + 1,
                    10 + length attrs + 1 + length body))]));
    [done|done|done|by apply lacks_dotall|].
  rewrite rmatch_seq, rmatch_lit by done.
  change (length (list_ascii_of_string ">")) with 1.
  rewrite (rmatch_lazy_group_until DOTALL 1 "<" _ _ _ _ _ _
             (10 + length attrs + 1 + length body + 13,
              [(1, (10 + length attrs + 1,
                    10 + length attrs + 1 + length body))]));
    [done|done|done|by apply lacks_dotall|].
  rewrite <-(app_nil_r (list_ascii_of_string "</code></pre>")).
  rewrite rmatch_lit by done. unfold accept.
  change (length (list_ascii_of_string "</code></pre>")) with 13. done.
Qed.

End Region.

(** *** Decoding entities *)

Lemma escape_cons live c s : escape live (c :: s) = escape_in live c ++ escape live s.
Proof. reflexivity. Qed.

(** The five kinds of character. *)
Lemma char_cases (c : ascii) :
  c = "&"%char \/ c = "<"%char \/ c = ">"%char \/ c = dqc
  \/ (Py.eqc c "&" = false /\ Py.eqc c "<" = false /\ Py.eqc c ">" = false
      /\ Py.eqc c (dqc) = false
      /\ Py.eqc "&" c = false).
Proof.
  destruct (Py.eqc c "&") eqn:E1; [left; by apply eqc_true|].
  destruct (Py.eqc c "<") eqn:E2; [right; left; by apply eqc_true|].
  destruct (Py.eqc c ">") eqn:E3; [right; right; left; by apply eqc_true|].
  destruct (Py.eqc c (dqc)) eqn:E4;
    [right; right; right; left; by apply eqc_true|].
  do 4 right. repeat split; try done;
    apply eqc_false; apply eqc_false in E1; congruence.
Qed.

Ltac escape_stage IH :=
  match goal with
  | |- context [escape _ (?c :: ?s)] =>
      rewrite !(escape_cons _ c s); cbn in IH;
      destruct (char_cases c) as [->|[->|[->|[->|(H1 & H2 & H3 & H4 & H5)]]]];
      [cbn; rewrite ?IH; reflexivity..|];
      unfold escape_in; cbn [existsb]; rewrite ?H1, ?H2, ?H3, ?H4;
      cbn [orb app list_ascii_of_string]; rewrite replace_from_0_cons;
      cbn [Py.is_prefix];
      rewrite H5; cbn [andb]; cbn in IH |- *; rewrite IH; reflexivity
  end.

Section Decode.
Variable Y : list ascii.
Hypothesis HY : lacks "&" Y.

Lemma unescape_lt body :
  Py.replace_from "&lt;" "<" 0 (html_escape body ++ Y)
  = escape ["&"; ">"; dqc]%char body ++ Y.
Proof.
  unfold html_escape. induction body as [|c body IH].
  - simpl. rewrite <-(app_nil_r Y) at 1.
    rewrite (replace_from_lacks "&" _ _ Y []) by done. simpl. by rewrite app_nil_r.
  - escape_stage IH.
Qed.

Lemma unescape_gt body :
  Py.replace_from "&gt;" ">" 0 (escape ["&"; ">"; dqc]%char body ++ Y)
  = escape ["&"; dqc]%char body ++ Y.
Proof.
  induction body as [|c body IH].
  - simpl. rewrite <-(app_nil_r Y) at 1.
    rewrite (replace_from_lacks "&" _ _ Y []) by done. simpl. by rewrite app_nil_r.
  - escape_stage IH.
Qed.

Lemma unescape_quot body :
  Py.replace_from "&quot;" dq 0 (escape ["&"; dqc]%char body ++ Y)
  = escape ["&"]%char body ++ Y.
Proof.
  induction body as [|c body IH].
  - simpl. rewrite <-(app_nil_r Y) at 1.
    rewrite (replace_from_lacks "&" _ _ Y []) by done. simpl. by rewrite app_nil_r.
  - escape_stage IH.
Qed.

Lemma unescape_amp body :
  Py.replace_from "&amp;" "&" 0 (escape ["&"]%char body ++ Y) = body ++ Y.
Proof.
  induction body as [|c body IH].
  - simpl. rewrite <-(app_nil_r Y) at 1.
    rewrite (replace_from_lacks "&" _ _ Y []) by done. simpl. by rewrite app_nil_r.
  - escape_stage IH.
Qed.

(** Decoding after escaping gives the text back: each entity is decoded,
    and none twice. *)
Lemma decode_escape X body :
  lacks "&" X ->
  Transformer.decode_entities (X ++ html_escape body ++ Y) = X ++ body ++ Y.
Proof.
  intros HX. unfold Transformer.decode_entities, Py.replace.
  cbn [list_ascii_of_string]. 
  rewrite (replace_from_lacks "&" _ _ X) by done.
  pose proof (unescape_lt body) as E1. cbn [list_ascii_of_string] in E1. rewrite E1.
  rewrite (replace_from_lacks "&" _ _ X) by done.
  pose proof (unescape_gt body) as E2. cbn [list_ascii_of_string] in E2. rewrite E2.
  unfold dq at 1.
  rewrite (replace_from_lacks "&" _ _ X) by done.
  pose proof (unescape_quot body) as E3. cbn [list_ascii_of_string] in E3.
  unfold dq in E3. rewrite E3.
  rewrite (replace_from_lacks "&" _ _ X) by done.
  pose proof (unescape_amp body) as E4. cbn [list_ascii_of_string] in E4.
  by rewrite E4.
Qed.

End Decode.

(** *** One region in a document *)

Lemma slice_app (a b c : list ascii) :
  slice (length a) (length a + length b) (a ++ b ++ c) = b.
Proof.
  unfold slice. rewrite drop_app_length.
  replace (length a + length b - length a) with (length b) by lia.
  by rewrite take_app_length.
Qed.

Lemma matches_from_hit fl r a s i m :
  a <> [] -> match_at fl r i (a ++ s) = Some m -> m_end m = i + length a ->
  matches_from fl r 0 i (a ++ s) = m :: matches_from fl r 0 (i + length a) s.
Proof.
  destruct a as [|c a]; [done|]. intros _ Hm He. simpl app in *.
  rewrite matches_from_0_cons, Hm. f_equal. rewrite He.
  replace (i + length (c :: a) - i - 1) with (length a) by (simpl; lia).
  rewrite matches_from_skip. f_equal. simpl. lia.
Qed.

Lemma matches_from_none fl r a i :
  (forall j, tails_fail (fun t => match_at fl r j t = None) a []) ->
  (forall j, match_at fl r j [] = None) ->
  matches_from fl r 0 i a = [].
Proof.
  intros Ha Hnil. rewrite <-(app_nil_r a), matches_from_pass by done.
  cbn [matches_from]. by rewrite Hnil.
Qed.

Lemma replace_from_none old new a :
  tails_fail (fun t => Py.is_prefix old t = false) a [] ->
  Py.replace_from old new 0 a = a.
Proof.
  intros Ha. rewrite <-(app_nil_r a) at 1. rewrite replace_from_pass by done.
  simpl. by rewrite app_nil_r.
Qed.

Lemma search_from_hit fl r i s m :
  match_at fl r i s = Some m -> search_from fl r i s = Some m.
Proof. intros H. destruct s; simpl; by rewrite H. Qed.

Lemma lacks_forallb c s :
  forallb (fun y => negb (Py.eqc y c)) s = true -> lacks c s.
Proof.
  rewrite forallb_forall. intros H. apply List.Forall_forall. intros y Hy.
  specialize (H y Hy). rewrite negb_true_iff in H. by apply eqc_false in H.
Qed.

Lemma lacks_app c a b : lacks c a -> lacks c b -> lacks c (a ++ b).
Proof. intros. by apply Forall_app. Qed.

Lemma tails_lacks fl x l rest a s j :
  ignorecase fl = false -> head l = Some x -> lacks x a ->
  tails_fail (fun t => match_at fl (Seq (Lit l) rest) j t = None) a s.
Proof.
  intros Hfl Hl Ha u t -> Ht. apply Forall_app in Ha as [_ Ha].
  destruct t as [|y t]; [done|]. apply Forall_cons in Ha as [Hy _].
  unfold match_at. simpl app. rewrite rmatch_seq.
  by rewrite (rmatch_lit_head fl x).
Qed.

Lemma search_from_lacks fl p c q rest s i :
  ignorecase fl = false -> lacks c s ->
  search_from fl (Seq (Lit (p ++ c :: q)) rest) i s = None.
Proof.
  intros Hfl Hs. revert i. induction Hs as [|y s Hy Hs IH]; intros i.
  - cbn [search_from]. unfold match_at. rewrite rmatch_seq. cbn [rmatch].
    rewrite lit_match_case by done. by destruct p.
  - cbn [search_from]. unfold match_at at 1. rewrite rmatch_seq. cbn [rmatch].
    rewrite lit_match_case, is_prefix_lacks by (done || by constructor).
    apply IH.
Qed.

Lemma escape_lacks x body :
  x = "<"%char \/ x = ">"%char \/ x = dqc -> lacks x (html_escape body).
Proof.
  intros Hx. unfold html_escape. induction body as [|c body IH]; [constructor|].
  rewrite escape_cons. apply lacks_app; [|done].
  destruct (char_cases c) as [->|[->|[->|[->|(H1 & H2 & H3 & H4 & H5)]]]];
    try (apply lacks_forallb; by destruct Hx as [-> | [-> | ->]]).
  unfold escape_in. cbn [existsb]. rewrite H1, H2, H3, H4. cbn [orb].
  constructor; [|constructor].
  destruct Hx as [-> | [-> | ->]]; intros ->; by rewrite eqc_refl in *.
Qed.

Section Blocks.
Variables before after attrs body : list ascii.
Hypothesis Hbefore : occurs "<pre" before = false.
Hypothesis Hafter : occurs "<pre" after = false.
Hypothesis Hattrs : lacks ">" attrs.
Hypothesis Hbody : lacks "<" body.

Lemma region_starts :
  exists Z, code_region attrs body = "<pre" ++ Z /\ Z <> [].
Proof. by exists ("><code" ++ attrs ++ ">" ++ body ++ "</code></pre>"). Qed.

Lemma pre_prefix_code t :
  Py.is_prefix "<pre" t = false -> Py.is_prefix "<pre><code" t = false.
Proof. apply (is_prefix_app_l "<pre" "><code"). Qed.

Lemma code_blocks_found :
  findall0 DOTALL Transformer.code_block_re
    (before ++ code_region attrs body ++ after)
  = [code_region attrs body].
Proof.
  unfold findall0, finditer.
  destruct region_starts as (Z & EZ & _).
  rewrite matches_from_pass.
  2:{ intros j. rewrite EZ, <-app_assoc.
      eapply tails_fail_impl; [|apply pre_tails, Hbefore].
      intros t Ht. apply match_at_lit_fail; [done|]. by apply pre_prefix_code. }
  assert (Hne : code_region attrs body <> []) by by rewrite EZ.
  rewrite (matches_from_hit _ _ _ _ _ _ Hne
             (code_block_match attrs body after Hattrs Hbody _) eq_refl).
  rewrite matches_from_none.
  2:{ intros j. eapply tails_fail_impl; [|apply occurs_tails, Hafter].
      intros t Ht. apply match_at_lit_fail; [done|]. by apply pre_prefix_code. }
  2:{ intros j. by apply match_at_lit_fail. }
  cbn [map whole m_start m_end]. f_equal.
  rewrite Nat.add_0_l. apply slice_app.
Qed.

Lemma replace_region conf_ml :
  Py.replace (code_region attrs body) conf_ml
    (before ++ code_region attrs body ++ after)
  = before ++ conf_ml ++ after.
Proof.
  destruct region_starts as (Z & EZ & HZ).
  rewrite replace_nonempty by by rewrite EZ.
  rewrite replace_from_pass.
  2:{ rewrite EZ, <-app_assoc.
      eapply tails_fail_impl; [|apply pre_tails, Hbefore].
      intros t Ht. by apply is_prefix_app_l. }
  rewrite replace_from_hit by by rewrite EZ. f_equal. f_equal.
  apply replace_from_none.
  eapply tails_fail_impl; [|apply occurs_tails, Hafter].
  intros t Ht. rewrite EZ. by apply is_prefix_app_l.
Qed.

Lemma content_found :
  search DOTALL Transformer.code_content_re (code_region attrs body)
  = Some {| m_start := 0;
            m_end := length (code_region attrs body);
            m_caps := [(1, (10 + length attrs + 1,
                            10 + length attrs + 1 + length body))] |}.
Proof.
  unfold search. apply search_from_hit.
  by apply (code_content_match attrs body).
Qed.

Lemma content_group m :
  m_caps m = [(1, (10 + length attrs + 1,
                   10 + length attrs + 1 + length body))] ->
  group (code_region attrs body) m 1 = Some body.
Proof.
  intros Hm. unfold group. rewrite Hm. cbn [lookup_cap Nat.eqb]. f_equal.
  set (A := "<pre><code" ++ attrs ++ ">").
  replace (10 + length attrs + 1) with (length A)
    by (unfold A; rewrite !length_app; simpl; lia).
  replace (code_region attrs body) with (A ++ body ++ "</code></pre>")
    by (unfold A, code_region; by rewrite <-!app_assoc).
  apply slice_app.
Qed.

End Blocks.

Lemma class_ok_dot cls :
  class_ok cls -> Forall (fun y => cls_ok no_flags CAny y = true) cls.
Proof.
  intros H. eapply Forall_impl; [exact H|]. intros c (_ & _ & Hc). cbn.
  by assert (Py.eqc c "010" = false) as -> by by apply eqc_false.
Qed.

Lemma class_ok_attr cls : class_ok cls -> lacks ">" (class_attr cls).
Proof.
  intros H. unfold class_attr. apply lacks_app; [by apply lacks_forallb|].
  apply lacks_app; [by apply lacks_forallb|].
  apply lacks_app; [|by apply lacks_forallb].
  eapply Forall_impl; [exact H|]. by intros c (Hc & _).
Qed.

Lemma class_ok_amp cls : class_ok cls -> lacks "&" cls.
Proof. intros H. eapply Forall_impl; [exact H|]. by intros c (_ & Hc & _). Qed.

(** The language pattern on a region with a class attribute: the greedy
    star runs to the last double quote of the region, which closes the
    attribute when the body holds none. *)
Lemma lang_of_class cls body :
  class_ok cls ->
  search no_flags Transformer.lang_re
    (code_region (class_attr cls) (html_escape body))
  = Some {| m_start := 6; m_end := 6 + 12 + length cls + 1;
            m_caps := [(1, (6 + 12, 6 + 12 + length cls))] |}.
Proof.
  intros Hcls. unfold search, code_region, class_attr.
  change (list_ascii_of_string "<pre><code")
    with ("<pre><" ++ list_ascii_of_string "code").
  change (list_ascii_of_string " class=")
    with (list_ascii_of_string " class=").
  rewrite <-!app_assoc.
  rewrite search_from_pass.
  2:{ intros j. unfold Transformer.lang_re. cbn [cat].
      apply (tails_lacks no_flags "c"); [done|done|by apply lacks_forallb]. }
  apply search_from_hit. unfold match_at, Transformer.lang_re. cbn [cat].
  rewrite (app_assoc "code" " class="), (app_assoc _ dq).
  change (("code" ++ " class=") ++ dq) with ("code class=" ++ dq).
  rewrite rmatch_seq, rmatch_lit by done.
  rewrite rmatch_seq, rmatch_grp, rmatch_star.
  change (dq ++ ">" ++ html_escape body ++ "</code></pre>")
    with (dqc :: ">" ++ html_escape body ++ "</code></pre>").
  rewrite (star_greedy_last no_flags CAny _ dqc cls _ _ _
             (6 + 12 + length cls + 1, [(1, (6 + 12, 6 + 12 + length cls))])).
  - done.
  - intros j s' cs' Hs'. by apply (rmatch_lit_wrong no_flags dqc).
  - by apply class_ok_dot.
  - apply lacks_app; [by apply lacks_forallb|].
    apply lacks_app; [|by apply lacks_forallb].
    apply escape_lacks. auto.
  - change (dqc :: ?b) with (dq ++ b). by rewrite rmatch_lit.
Qed.

Lemma lang_group cls body m :
  m_caps m = [(1, (6 + 12, 6 + 12 + length cls))] ->
  group (code_region (class_attr cls) (html_escape body)) m 1 = Some cls.
Proof.
  intros Hm. unfold group. rewrite Hm. cbn [lookup_cap Nat.eqb]. f_equal.
  set (A := "<pre><code class=" ++ dq).
  change (6 + 12) with (length A).
  replace (code_region (class_attr cls) (html_escape body))
    with (A ++ cls ++ dq ++ ">" ++ html_escape body ++ "</code></pre>")
    by (unfold A, code_region, class_attr; by rewrite <-!app_assoc).
  apply slice_app.
Qed.

(** Without a class attribute and with the quotes of the body escaped,
    the language pattern finds nothing. *)
Lemma lang_of_plain body :
  search no_flags Transformer.lang_re (code_region [] (html_escape body))
  = None.
Proof.
  unfold search, Transformer.lang_re. cbn [cat].
  apply (search_from_lacks no_flags "code class=" dqc []); [done|].
  unfold code_region. apply lacks_app; [by apply lacks_forallb|].
  apply lacks_app; [constructor|]. apply lacks_app; [by apply lacks_forallb|].
  apply lacks_app; [|by apply lacks_forallb]. apply escape_lacks. auto.
Qed.

Lemma code_macro_of_region attrs body lang :
  lacks ">" attrs -> lacks "&" lang ->
  match search no_flags Transformer.lang_re
          (code_region attrs (html_escape body)) with
  | Some m => default [] (group (code_region attrs (html_escape body)) m 1)
  | None => "none"
  end = lang ->
  Transformer.code_macro (code_region attrs (html_escape body))
  = Ok (code_macro_text lang body).
Proof.
  intros Hattrs Hlang E. unfold Transformer.code_macro. cbv zeta. rewrite E.
  assert (Hbody : lacks "<" (html_escape body)) by (apply escape_lacks; auto).
  rewrite (content_found attrs _ Hattrs Hbody). cbn [of_option mbind result_bind].
  rewrite (content_group attrs (html_escape body)) by done.
  cbn [default mret result_ret]. f_equal.
  unfold code_macro_text.
  rewrite <-!app_assoc.
  rewrite !(app_assoc _ _ (html_escape body ++ _)).
  rewrite decode_escape.
  - rewrite <-!app_assoc. reflexivity.
  - apply lacks_forallb. reflexivity.
  - unfold Transformer.macro_param. rewrite <-!app_assoc.
    repeat (apply lacks_app;
            [first [apply lacks_forallb; reflexivity|exact Hlang]|]).
    apply lacks_forallb. reflexivity.
Qed.

Lemma convert_single_region before after attrs body lang :
  occurs "<pre" before = false -> occurs "<pre" after = false ->
  lacks ">" attrs -> lacks "&" lang ->
  match search no_flags Transformer.lang_re
          (code_region attrs (html_escape body)) with
  | Some m => default [] (group (code_region attrs (html_escape body)) m 1)
  | None => "none"
  end = lang ->
  Transformer.convert_code_block
    (before ++ code_region attrs (html_escape body) ++ after)
  = Ok (before ++ code_macro_text lang body ++ after).
Proof.
  intros Hb Ha Hattrs Hlang E. unfold Transformer.convert_code_block.
  assert (Hbody : lacks "<" (html_escape body)) by (apply escape_lacks; auto).
  rewrite (code_blocks_found before after attrs _ Hb Ha Hattrs Hbody).
  cbn [Transformer.convert_code_tags].
  rewrite (code_macro_of_region attrs body lang Hattrs Hlang E).
  cbn [mbind result_bind]. f_equal.
  by apply replace_region.
Qed.



(** ** C8: footnotes with one digit *)

(** ** Suffixes *)

Lemma tails_fail_nil P s : tails_fail P [] s.
Proof. intros u t E Ht. symmetry in E. by apply app_eq_nil in E as [_ ->]. Qed.

Lemma tails_fail_cons_intro (P : list ascii -> Prop) c a s :
  P (c :: a ++ s) -> tails_fail P a s -> tails_fail P (c :: a) s.
Proof.
  intros Hc Ha u t E Ht. destruct u as [|c' u]; simpl in E.
  - by subst t.
  - injection E as _ E. by apply (Ha u t).
Qed.

Lemma tails_fail_app P a b s :
  tails_fail P a (b ++ s) -> tails_fail P b s -> tails_fail P (a ++ b) s.
Proof.
  intros Ha Hb. induction a as [|c a IH]; [done|]. simpl app.
  apply tails_fail_cons in Ha as [Hc Ha].
  apply tails_fail_cons_intro; [by rewrite <-app_assoc|by apply IH].
Qed.

Lemma tails_fail_heads (P : list ascii -> Prop) (R : ascii -> Prop) a s :
  (forall c t, R c -> P (c :: t)) -> Forall R a -> tails_fail P a s.
Proof.
  intros HP Ha. induction Ha as [|c a Hc Ha IH]; [apply tails_fail_nil|].
  apply tails_fail_cons_intro; [by apply HP|done].
Qed.

Lemma is_prefix_head x old y t :
  y <> x -> Py.is_prefix (x :: old) (y :: t) = false.
Proof.
  intros H. cbn [Py.is_prefix].
  by assert (Py.eqc x y = false) as -> by (apply eqc_false; congruence).
Qed.

Lemma digit_neq c d : Py.is_digit d = true -> Py.is_digit c = false -> d <> c.
Proof. intros H1 H2 ->. congruence. Qed.

(** ** Stars *)

Lemma star_greedy_all fl c (k : cont) a i cs r :
  Forall (fun y => cls_ok fl c y = true) a ->
  k (i + length a) [] cs = Some r ->
  star_match fl true c k i a cs = Some r.
Proof.
  intros Ha. revert i. induction Ha as [|y a Hy Ha IH]; intros i Hr.
  - simpl in *. by rewrite Nat.add_0_r in Hr.
  - rewrite star_match_cons, Hy, IH; [done|].
    simpl in Hr. by rewrite Nat.add_succ_r in Hr.
Qed.

Lemma rmatch_alt fl r1 r2 i s cs k :
  rmatch fl (Alt r1 r2) i s cs k
  = match rmatch fl r1 i s cs k with
    | Some x => Some x
    | None => rmatch fl r2 i s cs k
    end.
Proof. reflexivity. Qed.

Lemma rmatch_cls fl c a s i cs k :
  cls_ok fl c a = true -> rmatch fl (Cls c) i (a :: s) cs k = k (S i) s cs.
Proof. intros H. cbn [rmatch]. by rewrite H. Qed.

(** ** The raising of [process_refs] *)

Lemma process_ref_cases html ref :
  (search no_flags Transformer.href_re (ref_text ref) = None
   /\ Transformer.process_ref html ref = Raise AttributeError)
  \/ (exists m html', search no_flags Transformer.href_re (ref_text ref) = Some m
      /\ Transformer.process_ref html ref = Ok html').
Proof.
  unfold Transformer.process_ref, ref_text. cbv zeta.
  destruct (negb (bool_decide (nth 0 ref [] = [])));
    match goal with
    | |- context [search no_flags Transformer.href_re ?t] =>
        destruct (search no_flags Transformer.href_re t) as [m|] eqn:E
    end; cbn [of_option mbind result_bind]; eauto.
Qed.

Lemma process_ref_list_raises html refs :
  Transformer.process_ref_list html refs = Raise AttributeError
  <-> Exists (fun ref => search no_flags Transformer.href_re (ref_text ref)
                         = None) refs.
Proof.
  revert html. induction refs as [|ref refs IH]; intros html.
  - split; [done|by intros ?%Exists_nil].
  - cbn [Transformer.process_ref_list]. rewrite Exists_cons.
    destruct (process_ref_cases html ref) as [[E ->]|(m & html' & E & ->)];
      cbn [mbind result_bind].
    + split; [by left|done].
    + rewrite IH. split; [by right|]. intros [H|H]; [congruence|done].
Qed.

Lemma process_ref_list_result html refs :
  Transformer.process_ref_list html refs = Raise AttributeError
  \/ exists html', Transformer.process_ref_list html refs = Ok html'.
Proof.
  revert html. induction refs as [|ref refs IH]; intros html.
  - right. by eexists.
  - cbn [Transformer.process_ref_list].
    destruct (process_ref_cases html ref) as [[E ->]|(m & html' & E & ->)];
      cbn [mbind result_bind]; [by left|apply IH].
Qed.

(** *** One footnote in a document *)

Lemma plain_lacks c s :
  c = "<"%char \/ c = "["%char \/ c = "010"%char \/ c = dqc ->
  plain s -> lacks c s.
Proof.
  intros Hc Hs. eapply Forall_impl; [exact Hs|]. intros y (H1 & H2 & H3 & H4).
  by destruct Hc as [-> | [-> | [-> | ->]]].
Qed.

Lemma plain_dot s :
  plain s -> Forall (fun y => cls_ok no_flags CAny y = true) s.
Proof.
  intros H. eapply Forall_impl; [exact H|]. intros c (_ & _ & Hc & _). cbn.
  by assert (Py.eqc c "010" = false) as -> by by apply eqc_false.
Qed.

(** No footnote definition starts at a character that is neither a line
    end nor the start of a tag. *)
Lemma refs_fail_head j c t :
  c <> "010"%char -> c <> "<"%char ->
  match_at no_flags Transformer.refs_re j (c :: t) = None.
Proof.
  intros H1 H2. unfold match_at, Transformer.refs_re. cbn [cat].
  rewrite rmatch_alt, !rmatch_seq.
  rewrite (rmatch_lit_head no_flags "010") by done.
  by rewrite (rmatch_lit_head no_flags "<").
Qed.

Lemma rmatch_lit_none fl l s cs k i :
  ignorecase fl = false -> Py.is_prefix l s = false ->
  rmatch fl (Lit l) i s cs k = None.
Proof. intros Hfl H. cbn [rmatch]. by rewrite lit_match_case, H. Qed.

Lemma cls_forallb fl c s :
  forallb (cls_ok fl c) s = true -> Forall (fun y => cls_ok fl c y = true) s.
Proof. rewrite forallb_forall. intros H. by apply List.Forall_forall. Qed.

Lemma plain_heads (P : list ascii -> Prop) a s :
  (forall c t, c <> "010"%char -> c <> "<"%char -> c <> "["%char -> P (c :: t)) ->
  plain a -> tails_fail P a s.
Proof.
  intros HP Ha.
  apply (tails_fail_heads P
           (fun c => c <> "010"%char /\ c <> "<"%char /\ c <> "["%char)).
  - intros c t (H1 & H2 & H3). by apply HP.
  - eapply Forall_impl; [exact Ha|]. by intros c (H1 & H2 & H3 & _).
Qed.

Lemma refs_fail_p j c t :
  c <> "["%char ->
  match_at no_flags Transformer.refs_re j ("<p>" ++ c :: t) = None.
Proof.
  intros Hc. unfold match_at, Transformer.refs_re. cbn [cat].
  rewrite rmatch_alt, !rmatch_seq.
  rewrite (rmatch_lit_none no_flags nl) by done.
  rewrite rmatch_lit by done. rewrite rmatch_grp, rmatch_seq.
  by rewrite (rmatch_lit_head no_flags "[").
Qed.

Lemma refs_fail_close j t :
  match_at no_flags Transformer.refs_re j ("<"%char :: "/"%char :: t) = None.
Proof.
  unfold match_at, Transformer.refs_re. cbn [cat].
  rewrite rmatch_alt, !rmatch_seq.
  rewrite (rmatch_lit_none no_flags nl) by done.
  by rewrite (rmatch_lit_none no_flags "<p>").
Qed.

Lemma refs_fail_nl j t :
  match_at no_flags Transformer.refs_re j (nl ++ "<"%char :: t) = None.
Proof.
  unfold match_at, Transformer.refs_re. cbn [cat].
  rewrite rmatch_alt, !rmatch_seq.
  rewrite rmatch_lit by done. rewrite rmatch_grp, rmatch_seq.
  rewrite (rmatch_lit_none no_flags "[^") by done.
  by rewrite (rmatch_lit_none no_flags "<p>").
Qed.

Ltac scan tac :=
  repeat first
    [ apply tails_fail_nil
    | apply tails_fail_app; [apply plain_heads; [intros; tac|assumption]|]
    | apply tails_fail_cons_intro; [try (cbn [app]; tac)|] ].

Section Footnote.
Variables (href label : list ascii) (d : ascii).
Hypothesis Hd : Py.is_digit d = true.
Hypothesis Hhref : plain href.
Hypothesis Hlabel : plain label.

Local Abbreviation tail := (footnote_tail href label).
Local Abbreviation defn := (footnote_defn d href label).

Lemma d_not c : Py.is_digit c = false -> d <> c.
Proof. by apply digit_neq. Qed.

Ltac differ := first [assumption | discriminate | by apply d_not].

Lemma defn_cons : defn = "["%char :: "^"%char :: d :: "]"%char :: tail.
Proof. reflexivity. Qed.

Lemma tail_cons :
  tail = ":"%char :: " "%char :: "<"%char :: "a"%char
         :: " href=" ++ dq ++ href ++ dq ++ ">" ++ label ++ "</a>".
Proof. reflexivity. Qed.

(** The definition text holds no paragraph tag. *)
Lemma defn_quiet pat s :
  pat = "</p>" \/ pat = "<p>" ->
  tails_fail (fun t => Py.is_prefix pat t = false) defn ("</p>" ++ s)
  /\ tails_fail (fun t => Py.is_prefix pat t = false) defn [].
Proof.
  intros Hpat. unfold footnote_defn, footnote_tail, dq.
  assert (Hh : plain href) by done. assert (Hl : plain label) by done.
  cbn [list_ascii_of_string app].
  split; destruct Hpat as [-> | ->];
    scan ltac:(by (apply is_prefix_head; differ)); try reflexivity.
Qed.

Lemma defn_without_close : Py.replace "</p>" "" (defn ++ "</p>") = defn.
Proof.
  rewrite replace_nonempty by done.
  rewrite <-(app_nil_r "</p>") at 2.
  rewrite replace_from_pass by (by apply defn_quiet; left).
  rewrite replace_from_hit by done. by rewrite app_nil_r.
Qed.

Lemma defn_without_open : Py.replace "<p>" "" defn = defn.
Proof.
  rewrite replace_nonempty by done. apply replace_from_none.
  by apply (defn_quiet "<p>" []); right.
Qed.

Lemma plain_lazy s :
  plain s -> Forall (fun y => y <> dqc /\ cls_ok no_flags CAny y = true) s.
Proof.
  intros H. eapply Forall_impl; [exact H|]. intros c (_ & _ & Hc & Hq).
  split; [done|]. cbn.
  by assert (Py.eqc c "010" = false) as -> by by apply eqc_false.
Qed.

Lemma defn_href :
  defn = ("[^" ++ [d] ++ "]: <a ") ++ ("href=" ++ dq) ++ href
           ++ dq ++ ">" ++ label ++ "</a>".
Proof. unfold footnote_defn, footnote_tail. rewrite <-!app_assoc. reflexivity. Qed.

Lemma href_found :
  search no_flags Transformer.href_re defn
  = Some {| m_start := 9; m_end := 9 + 6 + length href + 1;
            m_caps := [(1, (9 + 6, 9 + 6 + length href))] |}.
Proof.
  rewrite defn_href. unfold search.
  rewrite search_from_pass.
  2:{ intros j. unfold Transformer.href_re. cbn [cat].
      apply (tails_lacks no_flags "h"); [done|done|].
      repeat (constructor; [differ|]). constructor. }
  apply search_from_hit. unfold match_at, Transformer.href_re. cbn [cat].
  rewrite rmatch_seq, rmatch_lit by done.
  rewrite (rmatch_lazy_group_until no_flags 1 dqc dq href _ _ _ _
             (9 + 6 + length href + 1, [(1, (9 + 6, 9 + 6 + length href))]));
    [done|done|done|by apply plain_lazy|].
  by rewrite rmatch_lit.
Qed.

Lemma href_group m :
  m_caps m = [(1, (9 + 6, 9 + 6 + length href))] ->
  group defn m 1 = Some href.
Proof.
  intros Hm. unfold group. rewrite Hm. cbn [lookup_cap Nat.eqb]. f_equal.
  rewrite defn_href.
  rewrite (app_assoc ("[^" ++ [d] ++ "]: <a ") ("href=" ++ dq)).
  set (A := ("[^" ++ [d] ++ "]: <a ") ++ "href=" ++ dq).
  change (9 + 6) with (length A). apply slice_app.
Qed.

End Footnote.

(** ** Where a footnote definition can start *)

Lemma is_prefix_app_same p q s :
  Py.is_prefix (p ++ q) (p ++ s) = Py.is_prefix q s.
Proof. induction p as [|c p IH]; [done|]. simpl. by rewrite eqc_refl. Qed.

(** A definition starts with a line end or [<p>], and a square bracket
    after it. *)
Lemma refs_fail_bracket j t :
  Py.is_prefix (nl ++ "[") t = false -> Py.is_prefix "<p>[" t = false ->
  match_at no_flags Transformer.refs_re j t = None.
Proof.
  intros H1 H2. unfold match_at, Transformer.refs_re. cbn [cat].
  rewrite rmatch_alt, !rmatch_seq.
  assert (E1 : rmatch no_flags (Lit nl) j t []
    (λ i' s' cs', rmatch no_flags
       (Grp 1 (Seq (Lit "[^") (Seq (Grp 2 (Cls CDigit))
                                 (Seq (Lit "]") (Star true CAny)))))
       i' s' cs' accept) = None).
  { destruct (Py.is_prefix nl t) eqn:E; [|by apply rmatch_lit_none].
    apply is_prefix_spec in E as [k ->]. rewrite rmatch_lit by done.
    rewrite rmatch_grp, rmatch_seq. apply rmatch_lit_none; [done|].
    rewrite is_prefix_app_same in H1. by apply (is_prefix_app_l "[" "^"). }
  rewrite E1.
  destruct (Py.is_prefix "<p>" t) eqn:E; [|by rewrite rmatch_lit_none].
  apply is_prefix_spec in E as [k ->]. rewrite rmatch_lit by done.
  rewrite rmatch_grp, rmatch_seq. rewrite rmatch_lit_none; [done|done|].
  change (list_ascii_of_string "<p>[") with ("<p>" ++ "[") in H2.
  rewrite is_prefix_app_same in H2. by apply (is_prefix_app_l "[" "^").
Qed.

Lemma endswith_app s suf : Py.endswith (s ++ suf) suf = true.
Proof. unfold Py.endswith. rewrite rev_app_distr. apply is_prefix_app. Qed.

Lemma lacks_eqc c y : y <> c -> Py.eqc c y = false.
Proof. intros H. apply eqc_false. congruence. Qed.

(** No definition starts in a text without brackets, whatever follows,
    unless the text ends where a definition can start. *)
Lemma quiet_before j a rest :
  lacks "[" a ->
  Py.endswith a nl = false -> Py.endswith a "<p>" = false ->
  tails_fail (fun t => match_at no_flags Transformer.refs_re j t = None)
    a ("["%char :: rest).
Proof.
  intros Ha Hnl Hp u t -> Ht. apply Forall_app in Ha as [_ Ha].
  apply refs_fail_bracket.
  - destruct t as [|b1 [|b2 t]]; [done| |].
    + unfold nl; cbn [list_ascii_of_string app Py.is_prefix].
      destruct (Py.eqc "010" b1) eqn:E; [|reflexivity].
      apply eqc_true in E as <-. fold nl in Hnl. by rewrite (endswith_app u nl) in Hnl.
    + apply Forall_cons in Ha as [_ Ha]. apply Forall_cons in Ha as [H2 _].
      unfold nl; cbn [list_ascii_of_string app Py.is_prefix].
      rewrite (lacks_eqc "[" b2) by done. cbn. apply andb_false_r.
  - destruct t as [|b1 [|b2 [|b3 [|b4 t]]]]; [done|..];
      unfold nl; cbn [list_ascii_of_string app Py.is_prefix].
    + cbn. apply andb_false_r.
    + cbn. by rewrite !andb_false_r.
    + destruct (Py.eqc "<" b1) eqn:E1; [|reflexivity].
      destruct (Py.eqc "p" b2) eqn:E2; [|reflexivity].
      destruct (Py.eqc ">" b3) eqn:E3; [|reflexivity].
      apply eqc_true in E1 as <-. apply eqc_true in E2 as <-.
      apply eqc_true in E3 as <-.
      change ["<"; "p"; ">"]%char with (list_ascii_of_string "<p>") in Hp.
      by rewrite (endswith_app u "<p>") in Hp.
    + do 3 (apply Forall_cons in Ha as [_ Ha]). apply Forall_cons in Ha as [H4 _].
      rewrite (lacks_eqc "[" b4) by done. cbn. by rewrite !andb_false_r.
Qed.

(** Nor in a text without brackets that is followed by a line end or a
    tag. *)
Lemma quiet_between j a s0 rest :
  lacks "[" a -> s0 = "010"%char \/ s0 = "<"%char ->
  tails_fail (fun t => match_at no_flags Transformer.refs_re j t = None)
    a (s0 :: rest).
Proof.
  intros Ha Hs u t -> Ht. apply Forall_app in Ha as [_ Ha].
  apply refs_fail_bracket.
  - destruct t as [|b1 [|b2 t]]; [done| |];
      unfold nl; cbn [list_ascii_of_string app Py.is_prefix].
    + destruct Hs as [-> | ->]; cbn; apply andb_false_r.
    + apply Forall_cons in Ha as [_ Ha]. apply Forall_cons in Ha as [H2 _].
      rewrite (lacks_eqc "[" b2) by done. cbn. apply andb_false_r.
  - destruct t as [|b1 [|b2 [|b3 [|b4 t]]]]; [done|..];
      unfold nl; cbn [list_ascii_of_string app Py.is_prefix].
    + destruct Hs as [-> | ->]; cbn; apply andb_false_r.
    + destruct Hs as [-> | ->]; cbn; by rewrite !andb_false_r.
    + destruct Hs as [-> | ->]; cbn; by rewrite !andb_false_r.
    + do 3 (apply Forall_cons in Ha as [_ Ha]). apply Forall_cons in Ha as [H4 _].
      rewrite (lacks_eqc "[" b4) by done. cbn. by rewrite !andb_false_r.
Qed.

(** Nor in a text without brackets at the end of the document. *)
Lemma quiet_after j a :
  lacks "[" a ->
  tails_fail (fun t => match_at no_flags Transformer.refs_re j t = None) a [].
Proof.
  intros Ha u t -> Ht. apply Forall_app in Ha as [_ Ha]. rewrite app_nil_r.
  apply refs_fail_bracket.
  - by apply (is_prefix_lacks nl "[" []).
  - by apply (is_prefix_lacks "<p>" "[" []).
Qed.

(** The greedy [.*] runs to the end of the line. *)
Lemma star_greedy_line fl c (k : cont) a s i cs r :
  Forall (fun y => cls_ok fl c y = true) a ->
  s = [] \/ (exists y s', s = y :: s' /\ cls_ok fl c y = false) ->
  k (i + length a) s cs = Some r ->
  star_match fl true c k i (a ++ s) cs = Some r.
Proof.
  intros Ha Hs. revert i. induction Ha as [|y a Hy Ha IH]; intros i Hr.
  - simpl in *. rewrite Nat.add_0_r in Hr.
    destruct Hs as [->|(y & s' & -> & Hy)]; [done|].
    by rewrite star_match_cons, Hy.
  - simpl app. rewrite star_match_cons, Hy, IH; [done|].
    simpl in Hr. by rewrite Nat.add_succ_r in Hr.
Qed.

Section Footnotes.
Variables (A B C close href label : list ascii) (d : ascii).
Hypothesis Hd : Py.is_digit d = true.
Hypothesis HA : lacks "[" A.
Hypothesis HAnl : Py.endswith A nl = false.
Hypothesis HAp : Py.endswith A "<p>" = false.
Hypothesis HB : lacks "[" B.
Hypothesis HBc : head B <> Some ":"%char.
Hypothesis Hclose : close = [] \/ close = "</p>".
Hypothesis HC : lacks "[" C.
Hypothesis HCnl : C = [] \/ head C = Some "010"%char.
Hypothesis Hhref : plain href.
Hypothesis Hlabel : plain label.

Local Abbreviation marker := ("[^" ++ [d] ++ "]").
Local Abbreviation tail := (footnote_tail href label).
Local Abbreviation defn := (footnote_defn d href label).
Local Abbreviation lead := (A ++ marker ++ B).

Lemma footnote_text_parts sep :
  footnote_text A d B sep href label close C
  = lead ++ (sep ++ defn ++ close) ++ C.
Proof. unfold footnote_text. by rewrite <-!app_assoc. Qed.

Lemma close_lacks : lacks "[" close.
Proof. destruct Hclose as [-> | ->]; [constructor|by apply lacks_forallb]. Qed.

Lemma line_dot : Forall (fun y => cls_ok no_flags CAny y = true) (tail ++ close).
Proof.
  apply Forall_app. split.
  - unfold footnote_tail. rewrite <-?app_assoc.
    repeat (apply Forall_app; split;
            [first [by apply plain_dot|apply cls_forallb; reflexivity]|]).
    apply cls_forallb; reflexivity.
  - destruct Hclose as [-> | ->]; [constructor|apply cls_forallb; reflexivity].
Qed.

Lemma line_ends :
  C = [] \/ exists y s', C = y :: s' /\ cls_ok no_flags CAny y = false.
Proof.
  destruct HCnl as [->|H]; [by left|right].
  destruct C as [|y s']; [done|]. injection H as ->. by exists "010"%char, s'.
Qed.

Lemma defn_match_line i :
  match_at no_flags Transformer.refs_re i ((nl ++ defn ++ close) ++ C)
  = Some {| m_start := i; m_end := i + length (nl ++ defn ++ close);
            m_caps := [(1, (i + 1, i + 1 + length (defn ++ close)));
                       (2, (i + 1 + 2, S (i + 1 + 2)))] |}.
Proof.
  unfold match_at, Transformer.refs_re. cbn [cat].
  rewrite rmatch_alt, !rmatch_seq. rewrite <-!app_assoc.
  rewrite rmatch_lit by done. rewrite rmatch_grp, rmatch_seq.
  unfold footnote_defn. rewrite <-!app_assoc. rewrite rmatch_lit by done.
  rewrite rmatch_seq, rmatch_grp. cbn [app]. rewrite rmatch_cls by exact Hd.
  rewrite rmatch_seq, rmatch_lit by done. rewrite rmatch_star.
  rewrite (app_assoc tail close C).
  erewrite star_greedy_line; [|apply line_dot|apply line_ends|reflexivity].
  unfold accept. f_equal. f_equal; [|f_equal; f_equal; f_equal];
    repeat (progress (simpl; rewrite ?length_app)); lia.
Qed.

Lemma defn_match_par i :
  match_at no_flags Transformer.refs_re i (("<p>" ++ defn ++ close) ++ C)
  = Some {| m_start := i; m_end := i + length ("<p>" ++ defn ++ close);
            m_caps := [(3, (i + 3, i + 3 + length (defn ++ close)));
                       (4, (i + 3 + 2, S (i + 3 + 2)))] |}.
Proof.
  unfold match_at, Transformer.refs_re. cbn [cat].
  rewrite rmatch_alt, !rmatch_seq. rewrite <-!app_assoc.
  rewrite (rmatch_lit_none no_flags nl) by done.
  rewrite rmatch_lit by done. rewrite rmatch_grp, rmatch_seq.
  unfold footnote_defn. rewrite <-!app_assoc. rewrite rmatch_lit by done.
  rewrite rmatch_seq, rmatch_grp. cbn [app]. rewrite rmatch_cls by exact Hd.
  rewrite rmatch_seq, rmatch_lit by done. rewrite rmatch_star.
  rewrite (app_assoc tail close C).
  erewrite star_greedy_line; [|apply line_dot|apply line_ends|reflexivity].
  unfold accept. f_equal. f_equal; [|f_equal; f_equal; f_equal];
    repeat (progress (simpl; rewrite ?length_app)); lia.
Qed.

Lemma d_no c : Py.is_digit c = false -> d <> c.
Proof. by apply digit_neq. Qed.

Lemma lead_quiet j sep rest :
  sep = nl \/ sep = "<p>" ->
  tails_fail (fun t => match_at no_flags Transformer.refs_re j t = None)
    lead (sep ++ rest).
Proof.
  intros Hsep. apply tails_fail_app; [|apply tails_fail_app].
  - rewrite <-!app_assoc. by apply quiet_before.
  - cbn [list_ascii_of_string app].
    repeat (apply tails_fail_cons_intro;
            [apply refs_fail_head; first [done|by apply d_no]|]).
    apply tails_fail_nil.
  - destruct Hsep as [-> | ->]; apply quiet_between; auto.
Qed.

Lemma refs_matches sep :
  sep = nl \/ sep = "<p>" ->
  finditer no_flags Transformer.refs_re
    (footnote_text A d B sep href label close C)
  = [ {| m_start := length lead;
         m_end := length lead + length (sep ++ defn ++ close);
         m_caps := [((if bool_decide (sep = nl) then 1 else 3)%nat,
                     (length lead + length sep,
                      length lead + length sep + length (defn ++ close)));
                    ((if bool_decide (sep = nl) then 2 else 4)%nat,
                     (length lead + length sep + 2,
                      S (length lead + length sep + 2)))] |} ].
Proof.
  intros Hsep. rewrite footnote_text_parts. unfold finditer.
  rewrite matches_from_pass.
  2:{ intros j. rewrite <-(app_assoc sep). by apply lead_quiet. }
  assert (Hm : match_at no_flags Transformer.refs_re (0 + length lead)
                 ((sep ++ defn ++ close) ++ C)
    = Some {| m_start := 0 + length lead;
              m_end := 0 + length lead + length (sep ++ defn ++ close);
              m_caps := [((if bool_decide (sep = nl) then 1 else 3)%nat,
                     (length lead + length sep,
                      length lead + length sep + length (defn ++ close)));
                    ((if bool_decide (sep = nl) then 2 else 4)%nat,
                     (length lead + length sep + 2,
                      S (length lead + length sep + 2)))] |}).
  { destruct Hsep as [-> | ->].
    - rewrite defn_match_line. rewrite bool_decide_true by done. reflexivity.
    - rewrite defn_match_par. rewrite bool_decide_false by done. reflexivity. }
  assert (Hp : sep ++ defn ++ close <> []) by by destruct Hsep as [-> | ->].
  rewrite (matches_from_hit _ _ _ _ _ _ Hp Hm eq_refl).
  rewrite matches_from_none; [reflexivity| |].
  - intros j. by apply quiet_after.
  - intros j. by apply refs_fail_bracket.
Qed.

Lemma group_defn sep :
  slice (length lead + length sep)
        (length lead + length sep + length (defn ++ close))
        (footnote_text A d B sep href label close C)
  = defn ++ close.
Proof.
  rewrite footnote_text_parts.
  replace (length lead + length sep) with (length (lead ++ sep))
    by by rewrite length_app.
  replace (lead ++ (sep ++ defn ++ close) ++ C)
    with ((lead ++ sep) ++ (defn ++ close) ++ C)
    by by rewrite <-!app_assoc.
  apply slice_app.
Qed.

Lemma group_digit sep :
  slice (length lead + length sep + 2) (S (length lead + length sep + 2))
        (footnote_text A d B sep href label close C)
  = [d].
Proof.
  rewrite footnote_text_parts.
  replace (length lead + length sep + 2) with (length (lead ++ sep ++ "[^"))
    by (rewrite !length_app; simpl; lia).
  replace (S (length (lead ++ sep ++ "[^")))
    with (length (lead ++ sep ++ "[^") + length [d]) by (simpl; lia).
  replace (lead ++ (sep ++ defn ++ close) ++ C)
    with ((lead ++ sep ++ "[^") ++ [d] ++ "]" ++ tail ++ close ++ C)
    by (unfold footnote_defn; rewrite <-!app_assoc; reflexivity).
  apply slice_app.
Qed.

Lemma refs_found sep :
  sep = nl \/ sep = "<p>" ->
  findall_groups no_flags Transformer.refs_re 4
    (footnote_text A d B sep href label close C)
  = [ if bool_decide (sep = nl) then [defn ++ close; [d]; []; []]
      else [ []; []; defn ++ close; [d] ] ].
Proof.
  intros Hsep. unfold findall_groups. rewrite refs_matches by done.
  cbn [map seq]. unfold group. cbn [m_caps].
  case_bool_decide; cbn [lookup_cap Nat.eqb default];
    by rewrite group_defn, group_digit.
Qed.

(** The definition without the paragraph tags. *)
Lemma defn_stripped :
  Py.replace "<p>" "" (Py.replace "</p>" "" (defn ++ close)) = defn.
Proof.
  assert (E : Py.replace "</p>" "" (defn ++ close) = defn).
  { destruct Hclose as [-> | ->].
    - rewrite app_nil_r, replace_nonempty by done. apply replace_from_none.
      by apply (defn_quiet href label d Hd Hhref Hlabel "</p>" []); left.
    - by apply defn_without_close. }
  rewrite E. by apply defn_without_open.
Qed.

Lemma defn_stripped_twice :
  Py.replace "<p>" "" (Py.replace "</p>" "" defn) = defn.
Proof.
  assert (E : Py.replace "</p>" "" defn = defn).
  { rewrite replace_nonempty by done. apply replace_from_none.
    by apply (defn_quiet href label d Hd Hhref Hlabel "</p>" []); left. }
  rewrite E. by apply defn_without_open.
Qed.

Lemma sep_lacks sep : sep = nl \/ sep = "<p>" -> lacks "[" sep.
Proof. intros [-> | ->]; by apply lacks_forallb. Qed.

(** The marker in the text does not start the definition. *)
Lemma marker_no_defn sep rest :
  sep = nl \/ sep = "<p>" ->
  Py.is_prefix defn (marker ++ B ++ sep ++ rest) = false.
Proof.
  intros Hsep. rewrite defn_cons, tail_cons.
  cbn [list_ascii_of_string app Py.is_prefix].
  rewrite !eqc_refl. cbn [andb].
  destruct B as [|b0 B']; cbn [app].
  - destruct Hsep as [-> | ->]; reflexivity.
  - cbn [Py.is_prefix]. rewrite (lacks_eqc ":" b0); [done|].
    intros ->. by apply HBc.
Qed.

Lemma not_bracket_fails (a : list ascii) s :
  lacks "[" a -> tails_fail (fun t => Py.is_prefix defn t = false) a s.
Proof.
  intros Ha. apply (tails_fail_heads _ (fun c => c <> "["%char)); [|done].
  intros c t Hc. rewrite defn_cons. by apply is_prefix_head.
Qed.

Lemma html_without_defn sep :
  sep = nl \/ sep = "<p>" ->
  Py.replace defn "" (footnote_text A d B sep href label close C)
  = lead ++ sep ++ close ++ C.
Proof.
  intros Hsep. rewrite footnote_text_parts.
  replace (lead ++ (sep ++ defn ++ close) ++ C)
    with ((lead ++ sep) ++ defn ++ close ++ C)
    by (by rewrite <-!app_assoc).
  rewrite replace_nonempty by done.
  rewrite replace_from_pass.
  2:{ apply tails_fail_app; [|by apply not_bracket_fails, sep_lacks].
      apply tails_fail_app; [by apply not_bracket_fails|].
      apply tails_fail_app; [|by apply not_bracket_fails].
      cbn [list_ascii_of_string app].
      apply tails_fail_cons_intro.
      { exact (marker_no_defn sep _ Hsep). }
      repeat (apply tails_fail_cons_intro;
              [rewrite defn_cons; apply is_prefix_head;
               first [discriminate|by apply d_no]|]).
      apply tails_fail_nil. }
  rewrite replace_from_hit by done. cbn [app].
  rewrite <-(app_nil_r (close ++ C)) at 1.
  rewrite defn_cons.
  rewrite replace_from_lacks by (apply lacks_app; [apply close_lacks|done]).
  cbn. rewrite app_nil_r. by rewrite <-!app_assoc.
Qed.

Lemma marker_replaced sep sup :
  sep = nl \/ sep = "<p>" ->
  Py.replace marker sup (lead ++ sep ++ close ++ C)
  = A ++ sup ++ B ++ sep ++ close ++ C.
Proof.
  intros Hsep. rewrite replace_nonempty by done.
  replace (lead ++ sep ++ close ++ C)
    with (A ++ marker ++ (B ++ sep ++ close ++ C) ++ [])
    by (rewrite app_nil_r, <-!app_assoc; reflexivity).
  assert (Hrest : lacks "[" (B ++ sep ++ close ++ C)).
  { repeat (apply lacks_app;
            [first [assumption|by apply sep_lacks|apply close_lacks]|]).
    done. }
  change marker with ("["%char :: "^" ++ [d] ++ "]").
  rewrite (replace_from_lacks "[" _ _ _ _ HA).
  rewrite replace_from_hit by done.
  rewrite (replace_from_lacks "[" _ _ _ _ Hrest).
  cbn [Py.replace_from]. by rewrite app_nil_r.
Qed.

Lemma process_ref_general sep :
  sep = nl \/ sep = "<p>" ->
  Transformer.process_ref (footnote_text A d B sep href label close C)
    (if bool_decide (sep = nl) then [defn ++ close; [d]; []; []]
     else [ []; []; defn ++ close; [d] ])
  = Ok (footnote_result A d B sep href close C).
Proof.
  intros Hsep. unfold Transformer.process_ref.
  assert (Hne : defn ++ close <> []) by by rewrite defn_cons.
  destruct (bool_decide (sep = nl)); cbn [nth]; cbv zeta.
  - rewrite bool_decide_eq_false_2 by exact Hne. cbn [negb].
    rewrite defn_stripped, defn_stripped_twice, html_without_defn by done.
    rewrite href_found by done. cbn [of_option mbind result_bind].
    rewrite href_group by done. cbn [default mret result_ret].
    by rewrite marker_replaced.
  - rewrite bool_decide_true by done. cbn [negb].
    rewrite defn_stripped, html_without_defn by done.
    rewrite href_found by done. cbn [of_option mbind result_bind].
    rewrite href_group by done. cbn [default mret result_ret].
    by rewrite marker_replaced.
Qed.

Lemma process_refs_general sep :
  sep = nl \/ sep = "<p>" ->
  Transformer.process_refs (footnote_text A d B sep href label close C)
  = Ok (footnote_result A d B sep href close C).
Proof.
  intros Hsep. unfold Transformer.process_refs. rewrite refs_found by done.
  cbn [Transformer.process_ref_list]. by rewrite process_ref_general.
Qed.

End Footnotes.


Lemma occurs_false_prefix p s :
  occurs p s = false -> Py.is_prefix p s = false.
Proof.
  destruct s as [|c s]; [done|]. rewrite occurs_cons.
  by intros [? _]%orb_false_iff.
Qed.

Lemma occurs_false_tail p u t :
  occurs p (u ++ t) = false -> Py.is_prefix p t = false.
Proof. intros H. by apply occurs_false_prefix, (occurs_suffix p u). Qed.

(** Where no [[^] occurs, no footnote definition is found. *)
Lemma refs_absent j t :
  occurs "[^" t = false -> match_at no_flags Transformer.refs_re j t = None.
Proof.
  intros H. unfold match_at, Transformer.refs_re. cbn [cat].
  rewrite rmatch_alt, !rmatch_seq.
  assert (H1 : rmatch no_flags (Lit nl) j t []
    (λ i' s' cs', rmatch no_flags
       (Grp 1 (Seq (Lit "[^") (Seq (Grp 2 (Cls CDigit))
                                 (Seq (Lit "]") (Star true CAny)))))
       i' s' cs' accept) = None).
  { destruct (Py.is_prefix nl t) eqn:E; [|by apply rmatch_lit_none].
    apply is_prefix_spec in E as [k ->]. rewrite rmatch_lit by done.
    rewrite rmatch_grp, rmatch_seq. apply rmatch_lit_none; [done|].
    by apply (occurs_false_tail _ nl). }
  rewrite H1.
  destruct (Py.is_prefix "<p>" t) eqn:E; [|by rewrite rmatch_lit_none].
  apply is_prefix_spec in E as [k ->]. rewrite rmatch_lit by done.
  rewrite rmatch_grp, rmatch_seq. rewrite rmatch_lit_none; [done|done|].
  by apply (occurs_false_tail _ "<p>").
Qed.

Lemma refs_finditer_absent s :
  occurs "[^" s = false -> finditer no_flags Transformer.refs_re s = [].
Proof.
  intros H. unfold finditer. apply matches_from_none.
  - intros j u t -> Ht. rewrite app_nil_r. apply refs_absent.
    by apply (occurs_suffix _ u).
  - intros j. by apply refs_absent.
Qed.




(** * Further properties of the script *)

(** X1.  Where no page of the space is listed as its own last ancestor,
    [create_page] reuses nothing: whenever it returns a page id, that id
    and the new remote state are those of its own POST. *)
Theorem create_page_posts_when_no_page_is_its_own_parent {R : Type}
    (GET_by_title : R -> list ascii -> option (list (list ascii)))
    (GET_ancestors : R -> list ascii -> option (list (list ascii)))
    (POST_content : R -> list ascii -> list ascii -> list ascii
                    -> option (list ascii * R))
    (r r' : R) (title body ancestor id : list ascii) :
  no_self_parent GET_ancestors r ->
  Builder.create_page GET_by_title GET_ancestors POST_content r title body
    ancestor = Ok (id, r') ->
  POST_content r title body ancestor = Some (id, r').
Proof.
  intros Hr. unfold Builder.create_page.
  destruct (Builder.get_page_id GET_by_title GET_ancestors r title ancestor)
    as [existing| | |] eqn:E; cbn [mbind result_bind]; try done.
  rewrite (get_page_id_never_finds _ _ _ _ _ _ Hr E).
  rewrite bool_decide_true by done. cbn [negb].
  destruct (POST_content r title body ancestor) as [[page_id r'']|]; [|done].
  by intros [= -> ->].
Qed.

Lemma space_with_B_no_self_parent :
  no_self_parent Store.GET_ancestors Scenario.space_with_B.
Proof.
  intros id ancestors. unfold Store.GET_ancestors, Scenario.space_with_B.
  cbn [Store.ancestors_upto Store.pages length Store.home_id].
  case_bool_decide as E1; [by intros [= <-]|].
  unfold Store.find_page. cbn [Store.pages find Store.page_id].
  case_bool_decide as E2; [|done].
  cbn [Store.page_parent]. rewrite bool_decide_true by done.
  intros [= <-]. cbn. intros [= E]. by rewrite <-E in E1.
Qed.

Lemma create_page_posts_witness :
  no_self_parent Store.GET_ancestors Scenario.space_with_B
  /\ Store.POST_content Scenario.space_with_B "B" "" "home"
     = Some ("p2" : list ascii,
             {| Store.home_id := "home";
                Store.pages := Store.pages Scenario.space_with_B
                  ++ [ {| Store.page_id := "p2"; Store.page_title := "B";
                          Store.page_body := "";
                          Store.page_parent := "home" |} ] |}).
Proof.
  split; [exact space_with_B_no_self_parent|].
  apply (create_page_posts_when_no_page_is_its_own_parent
           Store.GET_by_title Store.GET_ancestors Store.POST_content).
  - exact space_with_B_no_self_parent.
  - vm_compute. reflexivity.
Defined.

(** X2.  When the first page found under the title has an empty list of
    ancestors (the home page of a space is such a page), [is_child] indexes
    the empty list; the [IndexError] goes up through [get_page_id] and
    [create_page], which posts nothing. *)
Theorem create_page_raises_for_candidate_without_ancestors {R : Type}
    (GET_by_title : R -> list ascii -> option (list (list ascii)))
    (GET_ancestors : R -> list ascii -> option (list (list ascii)))
    (POST_content : R -> list ascii -> list ascii -> list ascii
                    -> option (list ascii * R))
    (r : R) (title body ancestor res : list ascii)
    (rest : list (list ascii)) :
  GET_by_title r title = Some (res :: rest) ->
  GET_ancestors r res = Some [] ->
  Builder.is_child GET_ancestors r res ancestor = Raise IndexError
  /\ Builder.get_page_id GET_by_title GET_ancestors r title ancestor
     = Raise IndexError
  /\ Builder.create_page GET_by_title GET_ancestors POST_content r title body
       ancestor = Raise IndexError.
Proof.
  intros Ht Ha.
  assert (E : Builder.is_child GET_ancestors r res ancestor = Raise IndexError).
  { unfold Builder.is_child. by rewrite Ha. }
  assert (E' : Builder.get_page_id GET_by_title GET_ancestors r title ancestor
               = Raise IndexError).
  { unfold Builder.get_page_id. rewrite Ht. cbn [Builder.first_child].
    by rewrite E. }
  split; [done|]. split; [done|]. unfold Builder.create_page. by rewrite E'.
Qed.

Lemma create_page_raises_witness :
  Builder.is_child rootless_ancestors () "home" "home" = Raise IndexError
  /\ Builder.get_page_id rootless_by_title rootless_ancestors () "Home" "home"
     = Raise IndexError
  /\ Builder.create_page rootless_by_title rootless_ancestors rootless_post
       () "Home" "" "home" = Raise IndexError.
Proof.
  apply (create_page_raises_for_candidate_without_ancestors
           rootless_by_title rootless_ancestors rootless_post
           () "Home" "" "home" "home" []); reflexivity.
Defined.

(** ** Directories under updates *)

Lemma dirs_kept_refl fs : dirs_kept fs fs.
Proof. intros p es H. by exists es. Qed.

Lemma dirs_kept_trans a b c : dirs_kept a b -> dirs_kept b c -> dirs_kept a c.
Proof. intros H1 H2 p es H. destruct (H1 p es H) as [es' H']. by apply (H2 p es'). Qed.

Lemma lookup_mkchain_self q : exists es, Fs.lookup q (Fs.mkchain q) = Some (Fs.Dir es).
Proof.
  induction q as [|x q IH]; simpl; [by eexists|].
  by rewrite bool_decide_eq_true_2.
Qed.

Lemma makedirs_at_dirs q n n' :
  Fs.makedirs_at q n = Some n' ->
  dirs_kept n n' /\ exists es, Fs.lookup q n' = Some (Fs.Dir es).
Proof.
  revert n n'. induction q as [|x q IH]; intros [c0|es] n'; simpl; try done.
  destruct (Fs.assoc x es) as [m|] eqn:Ex.
  - destruct (Fs.makedirs_at q m) as [m'|] eqn:Em; [|done]. intros [= <-].
    destruct (IH _ _ Em) as [Hk Hq]. split.
    + intros [|y p] es0; [intros _; by eexists|]. rewrite !lookup_cons_Dir.
      destruct (decide (x = y)) as [->|Hne].
      * rewrite assoc_set_entry_eq, Ex. apply Hk.
      * rewrite assoc_set_entry_ne by done. intros H. by exists es0.
    + destruct Hq as [es1 Hq]. exists es1. cbn [Fs.lookup].
      by rewrite assoc_set_entry_eq.
  - intros [= <-]. split.
    + intros [|y p] es0; [intros _; by eexists|]. rewrite !lookup_cons_Dir.
      destruct (decide (x = y)) as [->|Hne].
      * by rewrite Ex.
      * rewrite assoc_set_entry_ne by done. intros H. by exists es0.
    + destruct (lookup_mkchain_self q) as [es1 Hq]. exists es1.
      cbn [Fs.lookup]. by rewrite assoc_set_entry_eq.
Qed.

Lemma write_at_dirs q c n n' : Fs.write_at q c n = Some n' -> dirs_kept n n'.
Proof.
  revert n n'. induction q as [|x q IH]; intros [c0|es] n';
    cbn [Fs.write_at]; try done.
  destruct q as [|x' q].
  - destruct (Fs.assoc x es) as [[c1|es1]|] eqn:Ex; try done.
    + intros [= <-]. intros [|y p] es0; [intros _; by eexists|].
      rewrite !lookup_cons_Dir.
      destruct (decide (x = y)) as [->|Hne].
      * rewrite Ex. by destruct p.
      * rewrite assoc_set_entry_ne by done. intros H. by exists es0.
    + intros [= <-]. intros [|y p] es0; [intros _; by eexists|].
      rewrite !lookup_cons_Dir.
      destruct (decide (x = y)) as [->|Hne].
      * by rewrite Ex.
      * rewrite assoc_set_entry_ne by done. intros H. by exists es0.
  - destruct (Fs.assoc x es) as [m|] eqn:Ex; [|done].
    destruct (Fs.write_at (x' :: q) c m) as [m'|] eqn:Em; [|done].
    intros [= <-]. intros [|y p] es0; [intros _; by eexists|].
    rewrite !lookup_cons_Dir.
    destruct (decide (x = y)) as [->|Hne].
    + rewrite assoc_set_entry_eq, Ex. by apply (IH _ _ Em).
    + rewrite assoc_set_entry_ne by done. intros H. by exists es0.
Qed.

Lemma makedirs_dirs fs p fs' :
  Fs.makedirs fs p = Ok fs' -> dirs_kept fs fs' /\ Fs.isdir fs' p = true.
Proof.
  unfold Fs.makedirs, Fs.isdir. case_bool_decide as E; [done|].
  destruct (Fs.makedirs_at _ fs) as [n|] eqn:Em; [|done]. intros [= <-].
  destruct (makedirs_at_dirs _ _ _ Em) as [Hk [es Hq]]. split; [done|].
  by rewrite Hq.
Qed.

Lemma copy_dirs fs src dst fs' : Fs.copy fs src dst = Ok fs' -> dirs_kept fs fs'.
Proof.
  unfold Fs.copy. destruct (bool_decide _); [done|].
  destruct (Fs.read_file fs src) as [c| | |]; try done. cbn [mbind result_bind].
  unfold Fs.write_file. destruct (Fs.dir_only _); [done|].
  destruct (Fs.write_at _ c fs) as [n|] eqn:E; [|done]. intros [= <-].
  by apply (write_at_dirs _ _ _ _ E).
Qed.

Lemma isdir_kept fs fs' p : dirs_kept fs fs' -> Fs.isdir fs p = true -> Fs.isdir fs' p = true.
Proof.
  intros Hk. unfold Fs.isdir. destruct (negb _); [|done]. simpl.
  destruct (Fs.lookup (Fs.comps p) fs) as [[c|es]|] eqn:E; try done.
  intros _. by destruct (Hk _ _ E) as [es' ->].
Qed.

(** ** What every run of the planner keeps *)

Section Invariant.
Variable W : list ascii.
Variable I : Fs.node -> Prop.
Variable Q : list ascii -> Prop.
Hypothesis Hmk : forall fs p fs', I fs -> Fs.makedirs fs p = Ok fs' -> I fs'.
Hypothesis Hcp : forall fs src fp fs',
  I fs -> Q fp -> Planner.is_index_file fs src = Ok false ->
  Fs.copy fs src (Fs.os_path_join (Planner.PLAN_FOLDER W) fp) = Ok fs' -> I fs'.
Hypothesis Hq : forall fp md,
  Q fp -> Q (Fs.os_path_join fp (Planner.get_subfolder_name (Fs.basename md))).

Lemma process_lines_invariant rec lines :
  (forall fs fp name fs', I fs -> Q fp -> rec fs fp name = Ok fs' -> I fs') ->
  forall fs fp fs', I fs -> Q fp ->
    Planner.process_lines W rec fs fp lines = Ok fs' -> I fs'.
Proof.
  intros Hrec. induction lines as [|l lines IH]; intros fs fp fs' HI HQ.
  - by intros [= <-].
  - cbn [Planner.process_lines].
    destruct (Planner.process_line W rec fs fp l) as [fs1| | |] eqn:E;
      cbn [mbind result_bind]; try done.
    intros H. apply (IH fs1 fp fs'); [|done|done].
    revert E. unfold Planner.process_line.
    destruct (of_option _ _) as [m| | |]; cbn [mbind result_bind]; try done.
    destruct (if Fs.isfile _ _ then _ else _) as [md| | |];
      cbn [mbind result_bind]; try done.
    destruct (Planner.is_index_file fs md) as [[]| | |] eqn:Hidx;
      cbn [mbind result_bind]; try done.
    + apply Hrec; [done|by apply Hq].
    + by apply Hcp.
Qed.

Lemma process_index_invariant n :
  forall fs fp name fs', I fs -> Q fp ->
    Planner.process_index W n fs fp name = Ok fs' -> I fs'.
Proof.
  induction n as [|n IH]; intros fs fp name fs' HI HQ; [done|].
  rewrite process_index_S.
  destruct (if negb _ then _ else _) as [fs1| | |] eqn:E0;
    cbn [mbind result_bind]; try done.
  assert (HI1 : I fs1).
  { destruct (negb _); [exact (Hmk _ _ _ HI E0)|]. by injection E0 as <-. }
  destruct (Fs.read_file fs1 _) as [c| | |]; cbn [mbind result_bind]; try done.
  destruct (Planner.process_lines W _ fs1 fp _) as [fs2| | |] eqn:E;
    cbn [try_exit]; try done.
  intros [= <-]. exact (process_lines_invariant _ _ IH fs1 fp fs2 HI1 HQ E).
Qed.

End Invariant.

Lemma process_index_kept W ws n fs fp name fs' :
  kept (Fs.comps (Planner.PLAN_FOLDER W)) ws fs -> nostart fp ->
  Planner.process_index W n fs fp name = Ok fs' ->
  kept (Fs.comps (Planner.PLAN_FOLDER W)) ws fs'.
Proof.
  apply (process_index_invariant W
           (kept (Fs.comps (Planner.PLAN_FOLDER W)) ws) nostart).
  - intros ? ? ?. apply kept_makedirs.
  - intros ? ? ? ?. apply kept_copy.
  - intros fp' md Hfp. apply join_nostart; [done|].
    apply get_subfolder_name_no_slash, basename_no_slash.
Qed.

Lemma process_index_dirs W n fs fp name fs' :
  Planner.process_index W n fs fp name = Ok fs' -> dirs_kept fs fs'.
Proof.
  apply (process_index_invariant W (dirs_kept fs) (fun _ => True)).
  - intros fs1 p fs2 H1 H2. apply (dirs_kept_trans _ fs1); [done|].
    by apply (makedirs_dirs _ _ _ H2).
  - intros fs1 src fp' fs2 H1 _ _ H2. apply (dirs_kept_trans _ fs1); [done|].
    by apply (copy_dirs _ _ _ _ H2).
  - done.
  - apply dirs_kept_refl.
  - done.
Qed.

Lemma check_plan_requirements_Ok W fs fs1 :
  Planner.check_plan_requirements W fs = Ok fs1 ->
  Fs.makedirs fs (Planner.PLAN_FOLDER W) = Ok fs1.
Proof.
  unfold Planner.check_plan_requirements.
  destruct (negb _); [done|]. by destruct (Fs.isdir fs _).
Qed.

(** X5.  A successful [plan_import] leaves every file outside the plan
    folder as it was: at a path that is not strictly below the plan folder
    the tree holds a file with some content after the run exactly when it
    held that file before. *)
Theorem plan_import_keeps_the_files_outside_the_plan_folder
    (W : list ascii) (fuel : nat) (fs fs' : Fs.node)
    (p : Fs.path) (c : list ascii) :
  Planner.plan_import W fuel fs = Ok fs' ->
  ~ under (Fs.comps (Planner.PLAN_FOLDER W)) p ->
  Fs.lookup p fs' = Some (Fs.File c) <-> Fs.lookup p fs = Some (Fs.File c).
Proof.
  unfold Planner.plan_import.
  destruct (Planner.check_plan_requirements W fs) as [fs1| | |] eqn:E;
    cbn [mbind result_bind]; try done.
  apply check_plan_requirements_Ok in E. intros H Hp.
  assert (Hk : kept (Fs.comps (Planner.PLAN_FOLDER W)) fs fs').
  { apply (process_index_kept W fs fuel fs1 [] "index.md"); [|done|done].
    apply (kept_makedirs W fs fs _ _ (kept_refl W fs) E). }
  destruct Hk as [H1 H2]. split.
  - intros Hl. by destruct (H1 _ _ Hl) as [?|[? _]].
  - intros Hl. destruct (H2 _ _ Hl) as [c' Hc'].
    destruct (H1 _ _ Hc') as [Hc|[? _]]; [|done]. congruence.
Qed.

Lemma plan_import_keeps_files_witness :
  Fs.lookup ["ws" : list ascii; "a.md" : list ascii]
    Scenario.flat_workspace_planned = Some (Fs.File ("Hello" ++ nl))
  <-> Fs.lookup ["ws" : list ascii; "a.md" : list ascii]
        Scenario.flat_workspace = Some (Fs.File ("Hello" ++ nl)).
Proof.
  apply (plan_import_keeps_the_files_outside_the_plan_folder "ws" 2).
  - vm_compute. reflexivity.
  - intros (r & _ & E). vm_compute in E. discriminate E.
Defined.

Section Runs.
Context {R : Type}.
Variable GET_space : R -> option (list ascii).
Variable GET_by_title : R -> list ascii -> option (list (list ascii)).
Variable GET_ancestors : R -> list ascii -> option (list (list ascii)).
Variable POST_content :
  R -> list ascii -> list ascii -> list ascii -> option (list ascii * R).
Variable markdown : list ascii -> list ascii.
Variable W : list ascii.

Local Abbreviation main :=
  (Script.main GET_space GET_by_title GET_ancestors POST_content markdown W).

Lemma main_plan fuel fs r :
  main "plan" fuel fs r
  = (fs' ← Planner.plan_import W fuel fs; mret (fs', r)).
Proof.
  unfold Script.main. rewrite bool_decide_true by set_solver.
  cbn [negb]. by rewrite bool_decide_true.
Qed.

Lemma main_execute fuel fs r :
  main "execute" fuel fs r
  = (st ← Builder.execute_import GET_space GET_by_title GET_ancestors
            POST_content markdown W fs r;
     mret (fs, st.1)).
Proof.
  unfold Script.main. rewrite bool_decide_true by set_solver.
  cbn [negb]. by rewrite bool_decide_false.
Qed.

(** X4.  After [main] has planned with success, the plan folder is a
    directory, the remote space is untouched, and a second run with the
    command [plan] exits: [check_plan_requirements] finds the previous
    plan. *)
Theorem second_plan_run_exits (fuel fuel' : nat) (fs fs' : Fs.node)
    (r r' : R) :
  main "plan" fuel fs r = Ok (fs', r') ->
  r' = r
  /\ Fs.isdir fs' (Planner.PLAN_FOLDER W) = true
  /\ main "plan" fuel' fs' r' = Exit.
Proof.
  rewrite !main_plan. unfold Planner.plan_import.
  destruct (Planner.check_plan_requirements W fs) as [fs1| | |] eqn:E;
    cbn [mbind result_bind]; try done.
  apply check_plan_requirements_Ok in E.
  destruct (Planner.process_index W fuel fs1 _ _)
    as [fs2| | |] eqn:E2; cbn [mbind result_bind mret result_ret]; try done.
  intros H. unfold mret, result_ret in H. injection H as <- <-.
  split; [done|].
  assert (Hd : Fs.isdir fs2 (Planner.PLAN_FOLDER W) = true).
  { apply (isdir_kept fs1); [by apply (process_index_dirs _ _ _ _ _ _ E2)|].
    by apply (makedirs_dirs _ _ _ E). }
  split; [done|]. unfold Planner.check_plan_requirements. rewrite Hd.
  by destruct (negb _).
Qed.

(** X3.  With the command [execute] and no plan folder, [main] walks
    nothing: once the base page is known the run ends normally, the remote
    space and the files as they were; it exits when the request for the
    base page fails. *)
Theorem execute_without_plan_folder_posts_nothing (fuel : nat)
    (fs : Fs.node) (r : R) :
  Fs.isdir fs (Builder.PLAN_FOLDER W) = false ->
  main "execute" fuel fs r
  = match GET_space r with Some _ => Ok (fs, r) | None => Exit end.
Proof.
  intros Hd. rewrite main_execute.
  unfold Builder.execute_import, Builder.execute_import_with,
    Builder.get_space_base_id.
  destruct (GET_space r) as [homepage|]; [|done]. cbn [mbind result_bind].
  assert (Hw : Fs.walk fs (Builder.PLAN_FOLDER W) = []).
  { revert Hd. unfold Fs.isdir, Fs.walk.
    rewrite bool_decide_false by apply PLAN_nonempty. cbn [negb andb].
    by destruct (Fs.lookup _ fs) as [[c|es]|]. }
  by rewrite Hw.
Qed.

End Runs.

Lemma second_plan_run_witness :
  let main := Script.main Store.GET_space Store.GET_by_title
                Store.GET_ancestors Store.POST_content
                Scenario.plain_markdown "ws" in
  Store.empty_space = Store.empty_space
  /\ Fs.isdir Scenario.flat_workspace_planned (Planner.PLAN_FOLDER "ws") = true
  /\ main "plan" 5 Scenario.flat_workspace_planned Store.empty_space = Exit.
Proof.
  intros main.
  apply (second_plan_run_exits Store.GET_space Store.GET_by_title
           Store.GET_ancestors Store.POST_content Scenario.plain_markdown
           "ws" 2 5 Scenario.flat_workspace).
  vm_compute. reflexivity.
Defined.

Lemma execute_without_plan_witness :
  Script.main Store.GET_space Store.GET_by_title Store.GET_ancestors
    Store.POST_content Scenario.plain_markdown "ws" "execute" 0
    Scenario.flat_workspace Store.empty_space
  = Ok (Scenario.flat_workspace, Store.empty_space).
Proof.
  apply (execute_without_plan_folder_posts_nothing Store.GET_space
           Store.GET_by_title Store.GET_ancestors Store.POST_content
           Scenario.plain_markdown "ws" 0 Scenario.flat_workspace
           Store.empty_space).
  vm_compute. reflexivity.
Defined.

Lemma process_lines_app W rec fs fp l1 l2 :
  Planner.process_lines W rec fs fp (l1 ++ l2)
  = (fs1 ← Planner.process_lines W rec fs fp l1;
     Planner.process_lines W rec fs1 fp l2).
Proof.
  revert fs. induction l1 as [|l l1 IH]; intros fs; [done|].
  cbn [app Planner.process_lines].
  destruct (Planner.process_line W rec fs fp l) as [fs1| | |];
    cbn [mbind result_bind]; [apply IH|done..].
Qed.

Lemma process_line_unresolved W rec fs fp line :
  Planner.resolve W fs line = None ->
  Planner.process_line W rec fs fp line = Raise AttributeError
  \/ Planner.process_line W rec fs fp line = Exit.
Proof.
  unfold Planner.resolve, Planner.process_line.
  destruct (Re.search Re.no_flags Planner.index_entry line) as [m|];
    [|by left]. cbn [of_option mbind result_bind].
  destruct (Fs.isfile fs _); [done|]. destruct (Fs.isfile fs _); [done|].
  by right.
Qed.

(** X6.  [process_index] on the root index exits at the first line that is
    not an entry or whose file is missing, after it has processed the
    lines before it: the root index is not checked by [is_index_file]
    first. *)
Theorem process_index_exits_at_a_line_it_cannot_resolve
    (W : list ascii) (n : nat) (fs fs1 : Fs.node)
    (name content line : list ascii) (before after : list (list ascii)) :
  Fs.read_file fs (Fs.os_path_join W name) = Ok content ->
  Py.readlines content = before ++ line :: after ->
  Planner.process_lines W (Planner.process_index W n) fs [] before = Ok fs1 ->
  Planner.resolve W fs1 line = None ->
  Planner.process_index W (S n) fs [] name = Exit.
Proof.
  intros Hread Hlines Hbefore Hline. rewrite process_index_S.
  rewrite bool_decide_true by done. cbn [negb mbind result_bind].
  rewrite Hread. cbn [mbind result_bind].
  rewrite Hlines, process_lines_app, Hbefore. cbn [mbind result_bind].
  cbn [Planner.process_lines].
  by destruct (process_line_unresolved W (Planner.process_index W n) fs1 []
                 line Hline) as [-> | ->].
Qed.

Lemma process_index_exits_witness :
  Planner.process_index "ws" 1 headed_workspace [] "index.md" = Exit.
Proof.
  apply (process_index_exits_at_a_line_it_cannot_resolve "ws" 0
           headed_workspace headed_workspace_copied "index.md"
           ("* [A](a.md)" ++ nl ++ "# Notes" ++ nl) ("# Notes" ++ nl)
           ["* [A](a.md)" ++ nl] []);
    vm_compute; reflexivity.
Defined.

(** X10.  [upper_chars] ignores indices at or past the end of the string:
    with none inside, the string comes back unchanged (no [IndexError]). *)
Theorem upper_chars_ignores_indices_past_the_end
    (string : list ascii) (indices : list nat) :
  (forall i, i ∈ indices -> length string <= i) ->
  Transformer.upper_chars string indices = string.
Proof.
  intros H. unfold Transformer.upper_chars.
  rewrite <-(list_fmap_id string) at 2. rewrite <-(imap_const id).
  apply imap_ext. intros i c Hi. cbn.
  rewrite bool_decide_false; [done|]. intros Hin.
  apply H in Hin. apply lookup_lt_Some in Hi. lia.
Qed.

Lemma upper_chars_witness :
  Transformer.upper_chars "<p>" [3] = "<p>".
Proof.
  apply upper_chars_ignores_indices_past_the_end.
  intros i Hi. apply list_elem_of_singleton in Hi. subst i. simpl. lia.
Defined.

Lemma replace_space_lacks s :
  lacks " " (Py.replace_from [" "%char] ["_"%char] 0 s)
  /\ length (Py.replace_from [" "%char] ["_"%char] 0 s) = length s.
Proof.
  induction s as [|c s [IH1 IH2]]; [by split; [constructor|]|].
  cbn [Py.replace_from Py.is_prefix length Nat.sub].
  destruct (Py.eqc " " c) eqn:E; cbn [andb app length].
  - split; [by constructor|by rewrite IH2].
  - split; [|by rewrite IH2]. constructor; [|done].
    apply eqc_false in E. congruence.
Qed.

(** X9.  The name that [get_subfolder_name] returns holds no space and is
    no longer than the file name; for a name of at most twelve characters
    that ends in [.md] it is empty. *)
Theorem get_subfolder_name_has_no_space_and_is_no_longer
    (file_name : list ascii) :
  lacks " " (Planner.get_subfolder_name file_name)
  /\ length (Planner.get_subfolder_name file_name) <= length file_name
  /\ (Py.endswith file_name ".md" = true -> length file_name <= 12 ->
      Planner.get_subfolder_name file_name = []).
Proof.
  unfold Planner.get_subfolder_name, Py.replace. cbn [list_ascii_of_string].
  split; [apply replace_space_lacks|].
  split.
  - rewrite (proj2 (replace_space_lacks _)).
    destruct (Py.endswith _ _); [|done]. unfold Py.drop_last.
    rewrite length_take. lia.
  - intros -> Hlen. unfold Py.drop_last.
    replace (length file_name - 12) with 0 by lia. done.
Qed.

(** ** What [str.replace] cannot bring about *)

Lemma occurs_nil_pat c p : occurs (c :: p) [] = false.
Proof. reflexivity. Qed.

Lemma occurs_app_tails p a Y :
  tails_fail (fun t => Py.is_prefix p t = false) a Y ->
  occurs p Y = false -> occurs p (a ++ Y) = false.
Proof.
  intros Ha HY. induction a as [|c a IH]; [done|]. simpl app.
  apply tails_fail_cons in Ha as [Hc Ha]. rewrite occurs_cons, Hc.
  by apply IH.
Qed.

(** A text that starts the result of a replacement, and holds no first
    character of the new text, starts the original. *)
Lemma replace_from_prefix old new n0 new' q s :
  new = n0 :: new' -> lacks n0 q ->
  Py.is_prefix q (Py.replace_from old new 0 s) = true ->
  Py.is_prefix q s = true.
Proof.
  intros -> Hq. revert s. induction Hq as [|q0 q Hq0 Hq IH]; intros s; [done|].
  destruct s as [|c s]; [done|]. rewrite replace_from_0_cons.
  destruct (Py.is_prefix old (c :: s)).
  - cbn [app Py.is_prefix].
    by assert (Py.eqc q0 n0 = false) as -> by by apply eqc_false.
  - cbn [Py.is_prefix]. intros [-> H]%andb_true_iff. by rewrite (IH s H).
Qed.

(** No occurrence of [p] arises in a replacement, when none can start in
    the new text, the characters of [p] after the first are not the first
    of the new text, and [p] occurred in the original only where [old]
    did. *)
Lemma replace_from_no_occurrence old new n0 new' a p' s :
  old <> [] -> new = n0 :: new' -> lacks n0 p' ->
  (forall Y, tails_fail (fun t => Py.is_prefix (a :: p') t = false) new Y) ->
  (forall u t, s = u ++ t -> Py.is_prefix (a :: p') t = true ->
               Py.is_prefix old t = true) ->
  occurs (a :: p') (Py.replace_from old new 0 s) = false.
Proof.
  intros Hold Hnew Hp' Htails. remember (length s) as n eqn:Hn.
  revert s Hn. induction n as [n IH] using lt_wf_ind. intros s -> Hs.
  destruct s as [|c s]; [done|]. rewrite replace_from_0_cons.
  destruct (Py.is_prefix old (c :: s)) eqn:E.
  - apply is_prefix_spec in E as [k E].
    destruct old as [|o old]; [done|]. simpl in E. injection E as <- ->.
    replace (length (c :: old) - 1) with (length old) by (simpl; lia).
    rewrite replace_from_skip.
    apply occurs_app_tails; [apply Htails|].
    apply (IH (length k)); [simpl; rewrite ?length_app; lia|done|].
    intros u t -> Ht. apply (Hs ((c :: old) ++ u)); [|done].
    by rewrite <-app_assoc.
  - rewrite occurs_cons. apply orb_false_iff. split.
    + destruct (Py.is_prefix (a :: p') (c :: Py.replace_from old new 0 s))
        eqn:Ep; [|done]. exfalso.
      cbn [Py.is_prefix] in Ep. apply andb_true_iff in Ep as [Ea Ep].
      apply (replace_from_prefix old new n0 new') in Ep; [|done..].
      assert (Py.is_prefix (a :: p') (c :: s) = true) as Hp
        by (cbn [Py.is_prefix]; by rewrite Ea, Ep).
      apply (Hs []) in Hp; [congruence|done].
    + apply (IH (length s)); [simpl; lia|done|].
      intros u t -> Ht. by apply (Hs (c :: u)).
Qed.

Lemma replace_no_occurrence old new n0 new' a p' s :
  old <> [] -> new = n0 :: new' -> lacks n0 p' ->
  (forall Y, tails_fail (fun t => Py.is_prefix (a :: p') t = false) new Y) ->
  (a :: p' = old \/ occurs (a :: p') s = false) ->
  occurs (a :: p') (Py.replace old new s) = false.
Proof.
  intros Hold Hnew Hp' Htails Hs. rewrite replace_nonempty by done.
  apply (replace_from_no_occurrence old new n0 new'); try done.
  intros u t -> Ht. destruct Hs as [<-|Hs]; [done|].
  apply occurs_false_tail in Hs. congruence.
Qed.

(** X11.  Whatever the input, the result of [convert_comment_block] holds
    neither [<!--] nor [-->]: the replacements remove every delimiter and
    bring about no new one. *)
Theorem convert_comment_block_leaves_no_comment_delimiter
    (html : list ascii) :
  occurs "<!--" (Transformer.convert_comment_block html) = false
  /\ occurs "-->" (Transformer.convert_comment_block html) = false.
Proof.
  unfold Transformer.convert_comment_block.
  assert (H1 : occurs "<!--" (Py.replace "<!--" "<ac:placeholder>" html)
               = false).
  { apply (replace_no_occurrence "<!--" "<ac:placeholder>" "<"
             "ac:placeholder>" "<" "!--"); [done|done| | |by left].
    - by apply lacks_forallb.
    - intros Y. cbn [list_ascii_of_string].
      scan ltac:(by (apply is_prefix_head; discriminate)); reflexivity. }
  split.
  - apply (replace_no_occurrence "-->" "</ac:placeholder>" "<"
             "/ac:placeholder>" "<" "!--"); [done|done| | |by right].
    + by apply lacks_forallb.
    + intros Y. cbn [list_ascii_of_string].
      scan ltac:(by (apply is_prefix_head; discriminate)); reflexivity.
  - apply (replace_no_occurrence "-->" "</ac:placeholder>" "<"
             "/ac:placeholder>" "-" "->"); [done|done| | |by left].
    + by apply lacks_forallb.
    + intros Y. cbn [list_ascii_of_string].
      scan ltac:(by (apply is_prefix_head; discriminate)); reflexivity.
Qed.

(** ** Documents that hold nothing to convert *)

Lemma replace_absent old new s :
  old <> [] -> occurs old s = false -> Py.replace old new s = s.
Proof.
  intros Hold H. rewrite replace_nonempty by done.
  apply replace_from_none. by apply occurs_tails.
Qed.

Lemma occurs_lacks p c q s : lacks c s -> occurs (p ++ c :: q) s = false.
Proof.
  induction 1 as [|y s Hy Hs IH]; [by destruct p|].
  rewrite occurs_cons, IH, is_prefix_lacks; [done|by constructor].
Qed.

Lemma occurs_app_l p q s : occurs p s = false -> occurs (p ++ q) s = false.
Proof.
  induction s as [|c s IH].
  - destruct p; [done|]. done.
  - rewrite !occurs_cons. intros [H1 H2]%orb_false_iff.
    by rewrite is_prefix_app_l, IH.
Qed.

Lemma finditer_absent fl L rest s :
  ignorecase fl = false -> L <> [] -> occurs L s = false ->
  finditer fl (Seq (Lit L) rest) s = [].
Proof.
  intros Hfl HL H. unfold finditer. apply matches_from_none.
  - intros j. eapply tails_fail_impl; [|by apply occurs_tails].
    intros t Ht. by apply match_at_lit_fail.
  - intros j. apply match_at_lit_fail; [done|]. by destruct L.
Qed.

(** X12.  A document with no tilde, block quote, comment delimiter,
    [<pre><code] and [[^] goes through each of the four passes, and through
    their composition in [get_body], unchanged and without error. *)
Theorem convert_leaves_a_document_without_markup_unchanged
    (html : list ascii) :
  lacks "~" html ->
  occurs "<blockquote>" html = false ->
  occurs "<!--" html = false ->
  occurs "-->" html = false ->
  occurs "<pre><code" html = false ->
  occurs "[^" html = false ->
  Transformer.convert_info_macros html = Ok html
  /\ Transformer.convert_comment_block html = html
  /\ Transformer.convert_code_block html = Ok html
  /\ Transformer.process_refs html = Ok html
  /\ Transformer.convert html = Ok html.
Proof.
  intros Htilde Hquote Hopen Hclose Hpre Href.
  assert (E1 : Transformer.convert_info_macros html = Ok html).
  { unfold Transformer.convert_info_macros. cbv zeta.
    rewrite (replace_absent "<p>~?") by (done || by apply (occurs_lacks "<p>" "~" "?")).
    rewrite (replace_absent "?~</p>") by (done || by apply (occurs_lacks "?" "~" "</p>")).
    rewrite (replace_absent "<p>~!") by (done || by apply (occurs_lacks "<p>" "~" "!")).
    rewrite (replace_absent "!~</p>") by (done || by apply (occurs_lacks "!" "~" "</p>")).
    rewrite (replace_absent "<p>~%") by (done || by apply (occurs_lacks "<p>" "~" "%")).
    rewrite (replace_absent "%~</p>") by (done || by apply (occurs_lacks "%" "~" "</p>")).
    unfold findall1. cbn [cat]. rewrite finditer_absent by done.
    cbn [map Transformer.convert_quotes mbind result_bind mret result_ret].
    f_equal. unfold Transformer.convert_doctoc, sub. cbn [cat].
    rewrite finditer_absent; [done|done|done|].
    by apply (occurs_app_l "<!--" " START doctoc"). }
  assert (E2 : Transformer.convert_comment_block html = html).
  { unfold Transformer.convert_comment_block.
    by rewrite (replace_absent "<!--"), (replace_absent "-->"). }
  assert (E3 : Transformer.convert_code_block html = Ok html).
  { unfold Transformer.convert_code_block, findall0, Transformer.code_block_re.
    cbn [cat]. by rewrite finditer_absent. }
  assert (E4 : Transformer.process_refs html = Ok html).
  { unfold Transformer.process_refs, findall_groups.
    by rewrite refs_finditer_absent. }
  repeat split; try done.
  unfold Transformer.convert. rewrite E1. cbn [mbind result_bind].
  rewrite E2, E3. cbn [mbind result_bind]. exact E4.
Qed.

Lemma convert_unchanged_witness :
  let html := "<h1>Title</h1>" ++ nl ++ "<p>Some <em>text</em>.</p>" in
  Transformer.convert_info_macros html = Ok html
  /\ Transformer.convert_comment_block html = html
  /\ Transformer.convert_code_block html = Ok html
  /\ Transformer.process_refs html = Ok html
  /\ Transformer.convert html = Ok html.
Proof.
  intros html.
  apply (convert_leaves_a_document_without_markup_unchanged html);
    [apply lacks_forallb; reflexivity|reflexivity..].
Defined.

(** ** Markers whose first character occurs once *)

(** A text that starts [t ++ Y] starts [t], or [t] is a proper start of it
    and the rest starts [Y]. *)
Lemma is_prefix_app_cases L t Y :
  Py.is_prefix L (t ++ Y) = true ->
  Py.is_prefix L t = true
  \/ exists L2, L = t ++ L2 /\ L2 <> [] /\ Py.is_prefix L2 Y = true.
Proof.
  revert t. induction L as [|a L IH]; intros t; [by left|].
  destruct t as [|c t].
  - intros H. right. by exists (a :: L).
  - cbn [app Py.is_prefix]. intros [Ea H]%andb_true_iff.
    apply eqc_true in Ea as ->. rewrite eqc_refl. cbn [andb].
    destruct (IH t H) as [?|(L2 & -> & ? & ?)]; [by left|].
    right. by exists L2.
Qed.

Lemma is_prefix_cons_head a Q t :
  Py.is_prefix (a :: Q) t = true -> exists t', t = a :: t'.
Proof.
  destruct t as [|c t]; [done|]. cbn [Py.is_prefix].
  intros [Ea _]%andb_true_iff. apply eqc_true in Ea as ->. by eexists.
Qed.

(** Before the marker: no occurrence starts in a text that holds none. *)
Lemma marker_tails_before a L' A Z :
  lacks a L' -> occurs (a :: L') A = false ->
  tails_fail (fun t => Py.is_prefix (a :: L') t = false) A ((a :: L') ++ Z).
Proof.
  intros HL HA u t -> Ht.
  destruct (Py.is_prefix (a :: L') (t ++ (a :: L') ++ Z)) eqn:E; [|done].
  exfalso. apply is_prefix_app_cases in E as [E|(L2 & E & HL2 & E2)].
  - apply occurs_false_tail in HA. congruence.
  - destruct t as [|c t]; [done|]. injection E as <- ->.
    destruct L2 as [|x L2]; [done|].
    apply is_prefix_cons_head in E2 as [? [= -> _]].
    apply Forall_app in HL as [_ HL]. by apply Forall_cons in HL as [? _].
Qed.

(** After the marker: no occurrence starts later in the marker or in a
    text that holds none. *)
Lemma marker_tails_after a Q L' B u t :
  lacks a L' -> occurs (a :: Q) B = false ->
  L' ++ B = u ++ t -> Py.is_prefix (a :: Q) t = false.
Proof.
  intros HL HB. revert u. induction HL as [|x L' Hx HL IH]; intros u E.
  - simpl in E. subst B. by apply (occurs_false_tail _ u).
  - destruct u as [|y u]; simpl in E.
    + subst t. by apply is_prefix_head.
    + injection E as _ E. by apply (IH u).
Qed.

(** A greedy star whose continuation fails at every later position stops
    where it starts. *)
Lemma star_greedy_first_only fl c (k : cont) i X cs :
  (forall u t j, X = u ++ t -> u <> [] -> k j t cs = None) ->
  star_match fl true c k i X cs = k i X cs.
Proof.
  revert i. induction X as [|x X IH]; intros i H; [done|].
  rewrite star_match_cons, IH.
  - rewrite (H [x] X (S i)) by done. by destruct (cls_ok fl c x).
  - intros u t j -> Hu. by apply (H (x :: u)).
Qed.

Lemma star_greedy_over fl c (k : cont) a X i cs r :
  Forall (fun y => cls_ok fl c y = true) a ->
  star_match fl true c k (i + length a) X cs = Some r ->
  star_match fl true c k i (a ++ X) cs = Some r.
Proof.
  intros Ha. revert i. induction Ha as [|y a Hy Ha IH]; intros i Hr.
  - simpl in *. by rewrite Nat.add_0_r in Hr.
  - simpl app. rewrite star_match_cons, Hy, IH; [done|].
    simpl in Hr. by rewrite Nat.add_succ_r in Hr.
Qed.

Lemma dotall_any a : Forall (fun y => cls_ok DOTALL CAny y = true) a.
Proof. by apply Forall_forall. Qed.

Lemma star_greedy_none_lit fl c L B i cs (k : cont) :
  ignorecase fl = false -> L <> [] -> occurs L B = false ->
  star_match fl true c (fun i' s' cs' => rmatch fl (Lit L) i' s' cs' k)
    i B cs = None.
Proof.
  intros Hfl HL HB.
  destruct (star_match _ _ _ _ i B cs) as [r|] eqn:E; [|done]. exfalso.
  assert (Hs : is_Some (star_match fl true c
    (fun i' s' cs' => rmatch fl (Lit L) i' s' cs' k) i B cs)) by by rewrite E.
  apply star_match_is_Some in Hs as (a & b & -> & _ & [r' Hr]).
  rewrite rmatch_lit_none in Hr; [done|done|].
  by apply (occurs_false_tail _ a).
Qed.

(** ** The table of contents *)


Lemma doctoc_absent j t :
  occurs "END doctoc -->" t = false -> match_at DOTALL doctoc_re j t = None.
Proof.
  intros H. unfold match_at, doctoc_re. rewrite rmatch_seq.
  destruct (Py.is_prefix "<!-- START doctoc" t) eqn:E;
    [|by rewrite rmatch_lit_none].
  apply is_prefix_spec in E as [k ->]. rewrite rmatch_lit by done.
  rewrite rmatch_seq, rmatch_star.
  rewrite star_greedy_none_lit; [done|done|done|].
  by apply (occurs_suffix _ "<!-- START doctoc").
Qed.

Lemma doctoc_match i M B :
  occurs "END doctoc -->" B = false ->
  match_at DOTALL doctoc_re i
    (("<!-- START doctoc" ++ M ++ "END doctoc -->") ++ B)
  = Some {| m_start := i;
            m_end := i + length ("<!-- START doctoc" ++ M ++ "END doctoc -->");
            m_caps := [] |}.
Proof.
  intros HB. unfold match_at, doctoc_re. rewrite <-!app_assoc.
  rewrite rmatch_seq, rmatch_lit by done. rewrite rmatch_seq, rmatch_star.
  rewrite (star_greedy_over DOTALL CAny _ M _ _ _
             (i + length ("<!-- START doctoc" ++ M ++ "END doctoc -->"), []));
    [done|apply dotall_any|].
  rewrite star_greedy_first_only.
  - rewrite rmatch_lit by done. unfold accept. f_equal. f_equal.
    rewrite !length_app. lia.
  - intros u t j E Hu. apply rmatch_lit_none; [done|].
    destruct u as [|x u]; [done|]. cbn [list_ascii_of_string app] in E.
    injection E as _ E.
    apply (marker_tails_after "E" _ "ND doctoc -->" B u t); [|done|done].
    by apply lacks_forallb.
Qed.

Lemma doctoc_replaced (A M B : list ascii) :
  occurs "<!-- START doctoc" A = false ->
  occurs "END doctoc -->" B = false ->
  Transformer.convert_doctoc
    (A ++ "<!-- START doctoc" ++ M ++ "END doctoc -->" ++ B)
  = A ++ Transformer.toc_tag ++ B.
Proof.
  intros HA HB. unfold Transformer.convert_doctoc, sub. cbn [cat].
  fold doctoc_re. unfold finditer.
  set (D := "<!-- START doctoc" ++ M ++ "END doctoc -->").
  replace (A ++ "<!-- START doctoc" ++ M ++ "END doctoc -->" ++ B)
    with (A ++ D ++ B) by (unfold D; by rewrite <-!app_assoc).
  rewrite matches_from_pass.
  2:{ intros j. unfold D. rewrite <-!app_assoc.
      eapply tails_fail_impl;
        [|apply (marker_tails_before "<" "!-- START doctoc");
          [by apply lacks_forallb|exact HA]].
      intros t Ht. by apply match_at_lit_fail. }
  assert (HD : D <> []) by done.
  rewrite (matches_from_hit _ _ _ _ _ _ HD (doctoc_match _ M B HB) eq_refl).
  rewrite matches_from_none.
  2:{ intros j u t -> Ht. rewrite app_nil_r. apply doctoc_absent.
      by apply (occurs_suffix _ u). }
  2:{ intros j. by apply doctoc_absent. }
  cbn [sub_matches m_start m_end]. rewrite !Nat.sub_0_r, Nat.add_0_l.
  rewrite take_app_length. f_equal. f_equal.
  fold D. rewrite <-length_app, app_assoc. apply drop_app_length.
Qed.

(** X13.  [convert_doctoc] replaces, by one table-of-contents macro, all
    the text from the first [<!-- START doctoc] to the last
    [END doctoc -->], whatever lies between them (other end markers
    included). *)
Theorem convert_doctoc_replaces_from_the_first_start_to_the_last_end
    (A M B : list ascii) :
  occurs "<!-- START doctoc" A = false ->
  occurs "END doctoc -->" B = false ->
  Transformer.convert_doctoc
    (A ++ "<!-- START doctoc" ++ M ++ "END doctoc -->" ++ B)
  = A ++ Transformer.toc_tag ++ B.
Proof. apply doctoc_replaced. Qed.

Lemma convert_doctoc_witness :
  Transformer.convert_doctoc
    ("<h1>T</h1>" ++ "<!-- START doctoc" ++ " -->one<!-- END doctoc -->two<!-- "
       ++ "END doctoc -->" ++ "<p>x</p>")
  = "<h1>T</h1>" ++ Transformer.toc_tag ++ "<p>x</p>".
Proof.
  apply (convert_doctoc_replaces_from_the_first_start_to_the_last_end
           "<h1>T</h1>" " -->one<!-- END doctoc -->two<!-- " "<p>x</p>");
    reflexivity.
Defined.

(** ** What a match of the code pattern looks like *)

Lemma star_match_Some fl g c (k : cont) i s cs r :
  star_match fl g c k i s cs = Some r ->
  exists a b, s = a ++ b /\ Forall (fun x => cls_ok fl c x = true) a
              /\ k (i + length a) b cs = Some r.
Proof.
  revert i. induction s as [|x s IH]; intros i.
  - simpl. intros H. exists [], []. simpl. by rewrite Nat.add_0_r.
  - rewrite star_match_cons.
    assert (Hnil : k i (x :: s) cs = Some r ->
      exists a b, x :: s = a ++ b /\ Forall (fun x => cls_ok fl c x = true) a
                  /\ k (i + length a) b cs = Some r).
    { intros H. exists [], (x :: s). simpl. by rewrite Nat.add_0_r. }
    assert (Hcons : star_match fl g c k (S i) s cs = Some r ->
      cls_ok fl c x = true ->
      exists a b, x :: s = a ++ b /\ Forall (fun x => cls_ok fl c x = true) a
                  /\ k (i + length a) b cs = Some r).
    { intros H Hx. apply IH in H as (a & b & -> & Ha & H).
      exists (x :: a), b. simpl. split; [done|]. split; [by constructor|].
      by rewrite Nat.add_succ_r. }
    destruct (cls_ok fl c x) eqn:Ex; [|done]. destruct g.
    + destruct (star_match fl true c k (S i) s cs) as [r'|] eqn:E; [|done].
      intros [= ->]. by apply Hcons.
    + destruct (k i (x :: s) cs) as [r'|] eqn:E.
      * intros [= ->]. by apply Hnil.
      * intros H. by apply Hcons.
Qed.

Lemma rmatch_lit_Some fl l i s cs (k : cont) r :
  ignorecase fl = false ->
  rmatch fl (Lit l) i s cs k = Some r ->
  exists s', s = l ++ s' /\ k (i + length l) s' cs = Some r.
Proof.
  intros Hfl. cbn [rmatch]. rewrite lit_match_case by done.
  destruct (Py.is_prefix l s) eqn:E; [|done].
  apply is_prefix_spec in E as [k' ->]. rewrite drop_app_length.
  intros H. by exists k'.
Qed.

(** Every match that the scan reports is a match at its position. *)
Lemma matches_from_elem fl r m s :
  forall skip i, m ∈ matches_from fl r skip i s ->
  exists u t, s = u ++ t /\ match_at fl r (i + length u) t = Some m.
Proof.
  induction s as [|c s IH]; intros skip i.
  - destruct skip; cbn [matches_from]; [|by intros ?%elem_of_nil].
    destruct (match_at fl r i []) as [m'|] eqn:E; [|by intros ?%elem_of_nil].
    intros ->%list_elem_of_singleton. exists [], []. simpl.
    by rewrite Nat.add_0_r.
  - assert (Hrest : forall k, m ∈ matches_from fl r k (S i) s ->
      exists u t, c :: s = u ++ t /\ match_at fl r (i + length u) t = Some m).
    { intros k Hm. apply IH in Hm as (u & t & -> & Hm).
      exists (c :: u), t. split; [done|]. simpl.
      by rewrite Nat.add_succ_r. }
    destruct skip; cbn [matches_from]; [|apply Hrest].
    destruct (match_at fl r i (c :: s)) as [m'|] eqn:E; [|apply Hrest].
    intros [->|Hm]%elem_of_cons; [|by apply (Hrest _ Hm)].
    exists [], (c :: s). simpl. by rewrite Nat.add_0_r.
Qed.

Lemma match_at_start fl r i s m : match_at fl r i s = Some m -> m_start m = i.
Proof.
  unfold match_at. destruct (rmatch fl r i s [] accept) as [[e cs]|]; [|done].
  by intros [= <-].
Qed.

Lemma code_block_shape j t m :
  match_at DOTALL Transformer.code_block_re j t = Some m ->
  exists a b rest,
    t = ("<pre><code" ++ a ++ ">" ++ b ++ "</code></pre>") ++ rest
    /\ m_end m
       = j + length ("<pre><code" ++ a ++ ">" ++ b ++ "</code></pre>").
Proof.
  unfold match_at, Transformer.code_block_re. cbn [cat].
  destruct (rmatch _ _ j t [] accept) as [[e cs]|] eqn:E; [|done].
  intros [= <-]. cbn [m_end]. revert E.
  rewrite rmatch_seq. intros (t1 & -> & E)%rmatch_lit_Some; [|done].
  rewrite rmatch_seq, rmatch_star in E.
  apply star_match_Some in E as (a & t2 & -> & _ & E).
  rewrite rmatch_seq in E. apply rmatch_lit_Some in E as (t3 & -> & E); [|done].
  rewrite rmatch_seq, rmatch_star in E.
  apply star_match_Some in E as (b & t4 & -> & _ & E).
  apply rmatch_lit_Some in E as (rest & -> & E); [|done].
  injection E as <- _. exists a, b, rest. split.
  - by rewrite <-!app_assoc.
  - rewrite !length_app. simpl. lia.
Qed.

Lemma code_content_found a b :
  is_Some (search DOTALL Transformer.code_content_re
             ("<pre><code" ++ a ++ ">" ++ b ++ "</code></pre>")).
Proof.
  assert (H : is_Some (match_at DOTALL Transformer.code_content_re 0
             ("<pre><code" ++ a ++ ">" ++ b ++ "</code></pre>"))).
  { unfold match_at, Transformer.code_content_re. cbn [cat].
    assert (Hr : is_Some (rmatch DOTALL
       (Seq (Lit "<pre><code")
          (Seq (Star false CAny)
             (Seq (Lit ">") (Seq (Grp 1 (Star false CAny))
                               (Lit "</code></pre>")))))
       0 ("<pre><code" ++ a ++ ">" ++ b ++ "</code></pre>") [] accept)).
    { rewrite rmatch_seq, rmatch_lit by done. rewrite rmatch_seq, rmatch_star.
      apply star_match_is_Some. exists a, (">" ++ b ++ "</code></pre>").
      split; [done|]. split; [apply dotall_any|].
      rewrite rmatch_seq, rmatch_lit by done.
      rewrite rmatch_seq, rmatch_grp, rmatch_star.
      apply star_match_is_Some. exists b, "</code></pre>".
      split; [done|]. split; [apply dotall_any|].
      rewrite <-(app_nil_r (list_ascii_of_string "</code></pre>")).
      by rewrite rmatch_lit. }
    destruct Hr as [[e cs] ->]. done. }
  destruct H as [m H]. unfold search. by rewrite (search_from_hit _ _ _ _ _ H).
Qed.

Lemma whole_at (u t x rest : list ascii) m :
  t = x ++ rest -> m_start m = length u -> m_end m = length u + length x ->
  whole (u ++ t) m = x.
Proof.
  intros -> Hs He. unfold whole. rewrite Hs, He. apply slice_app.
Qed.

Lemma code_blocks_shape html tag :
  tag ∈ findall0 DOTALL Transformer.code_block_re html ->
  exists a b, tag = "<pre><code" ++ a ++ ">" ++ b ++ "</code></pre>".
Proof.
  unfold findall0, finditer.
  intros (m & -> & Hm)%list_elem_of_fmap.
  apply matches_from_elem in Hm as (u & t & -> & Hm). simpl in Hm.
  pose proof (match_at_start _ _ _ _ _ Hm) as Hs.
  apply code_block_shape in Hm as (a & b & rest & Ht & He).
  exists a, b. by apply (whole_at u t _ rest).
Qed.

Lemma code_macro_Ok tag :
  is_Some (search DOTALL Transformer.code_content_re tag) ->
  exists conf_ml, Transformer.code_macro tag = Ok conf_ml.
Proof.
  intros [m Hm]. unfold Transformer.code_macro. cbv zeta. rewrite Hm.
  cbn [of_option mbind result_bind]. by eexists.
Qed.

Lemma convert_code_tags_Ok tags :
  Forall (fun tag => is_Some (search DOTALL Transformer.code_content_re tag))
         tags ->
  forall html, exists out, Transformer.convert_code_tags html tags = Ok out.
Proof.
  induction 1 as [|tag tags Htag _ IH]; intros html; [by eexists|].
  cbn [Transformer.convert_code_tags].
  destruct (code_macro_Ok tag Htag) as [conf_ml ->]. cbn [mbind result_bind].
  apply IH.
Qed.

Lemma convert_code_block_Ok (html : list ascii) :
  exists out, Transformer.convert_code_block html = Ok out.
Proof.
  unfold Transformer.convert_code_block. cbv zeta.
  apply convert_code_tags_Ok. apply Forall_forall. intros tag Htag.
  apply code_blocks_shape in Htag as (a & b & ->). apply code_content_found.
Qed.

(** X15.  [convert_code_block] never raises: every region that its first
    pattern finds is matched by the pattern with which it extracts the
    content. *)
Theorem convert_code_block_never_raises (html : list ascii) :
  exists out, Transformer.convert_code_block html = Ok out.
Proof. destruct (convert_code_block_Ok html) as [out E]. by exists out. Qed.

(** ** One line of an index *)

Lemma process_line_resolved W rec fs fp line md :
  Planner.resolve W fs line = Some md ->
  Planner.process_line W rec fs fp line
  = (index ← Planner.is_index_file fs md;
     if index : bool then
       rec fs (Fs.os_path_join fp (Planner.get_subfolder_name (Fs.basename md)))
           (Fs.basename md)
     else Fs.copy fs md (Fs.os_path_join (Planner.PLAN_FOLDER W) fp)).
Proof.
  unfold Planner.resolve, Planner.process_line.
  destruct (Re.search Re.no_flags Planner.index_entry line) as [m|]; [|done].
  cbn [of_option mbind result_bind].
  destruct (Fs.isfile fs _); [by intros [= <-]|].
  destruct (Fs.isfile fs _); [by intros [= <-]|done].
Qed.

(** [shutil.copy]: the destination holds the content of the source. *)
Lemma copy_content fs src dst fs' :
  Fs.copy fs src dst = Ok fs' ->
  exists c, Fs.read_file fs src = Ok c
    /\ Fs.read_file fs'
         (if Fs.isdir fs dst then Fs.os_path_join dst (Fs.basename src)
          else dst) = Ok c.
Proof.
  unfold Fs.copy. set (dst' := if Fs.isdir fs dst then _ else _).
  destruct (bool_decide _); [done|].
  destruct (Fs.read_file fs src) as [c| | |]; try done. cbn [mbind result_bind].
  unfold Fs.write_file, Fs.read_file.
  destruct (Fs.dir_only dst'); [done|].
  destruct (Fs.write_at _ c fs) as [n|] eqn:E; [|done]. intros [= <-].
  exists c. split; [done|].
  by rewrite (proj1 (write_at_files _ _ _ _ E)).
Qed.

(** X7.  For a line whose file is found and is not an index, with the
    target folder in place, the loop body of [process_index] leaves a file
    of the same content in that folder, under the base name of the file. *)
Theorem leaf_entry_is_copied_under_its_base_name
    (W : list ascii) (rec : Fs.node -> list ascii -> list ascii -> result Fs.node)
    (fs fs' : Fs.node) (fp line md : list ascii) :
  Planner.resolve W fs line = Some md ->
  Planner.is_index_file fs md = Ok false ->
  Fs.isdir fs (Fs.os_path_join (Planner.PLAN_FOLDER W) fp) = true ->
  Planner.process_line W rec fs fp line = Ok fs' ->
  exists c, Fs.read_file fs md = Ok c
    /\ Fs.read_file fs'
         (Fs.os_path_join (Fs.os_path_join (Planner.PLAN_FOLDER W) fp)
                          (Fs.basename md)) = Ok c.
Proof.
  intros Hres Hidx Hdir. rewrite (process_line_resolved _ _ _ _ _ _ Hres), Hidx.
  cbn [mbind result_bind]. intros Hc. apply copy_content in Hc.
  by rewrite Hdir in Hc.
Qed.

Lemma leaf_entry_witness :
  exists c, Fs.read_file headed_workspace "ws/a.md" = Ok c
    /\ Fs.read_file headed_workspace_copied
         (Fs.os_path_join (Fs.os_path_join (Planner.PLAN_FOLDER "ws") "")
                          (Fs.basename "ws/a.md")) = Ok c.
Proof.
  apply (leaf_entry_is_copied_under_its_base_name "ws"
           (Planner.process_index "ws" 0) headed_workspace
           headed_workspace_copied "" ("* [A](a.md)" ++ nl) "ws/a.md");
    vm_compute; reflexivity.
Defined.

(** X8.  An entry whose file is empty is not copied: the empty file counts
    as an index, and the loop body of [process_index] calls itself for it,
    with the subfolder named after the file. *)
Theorem empty_file_is_planned_as_an_index
    (W : list ascii) (rec : Fs.node -> list ascii -> list ascii -> result Fs.node)
    (fs : Fs.node) (fp line md : list ascii) :
  Planner.resolve W fs line = Some md ->
  Fs.read_file fs md = Ok [] ->
  Planner.process_line W rec fs fp line
  = rec fs (Fs.os_path_join fp (Planner.get_subfolder_name (Fs.basename md)))
        (Fs.basename md).
Proof.
  intros Hres Hread. rewrite (process_line_resolved _ _ _ _ _ _ Hres).
  unfold Planner.is_index_file. rewrite Hread. done.
Qed.

Lemma empty_file_witness :
  Planner.process_line "ws" (Planner.process_index "ws" 1)
    empty_leaf_workspace "" ("* [E](e.md)" ++ nl)
  = Planner.process_index "ws" 1 empty_leaf_workspace
      (Fs.os_path_join "" (Planner.get_subfolder_name (Fs.basename "ws/e.md")))
      (Fs.basename "ws/e.md").
Proof.
  apply (empty_file_is_planned_as_an_index "ws" (Planner.process_index "ws" 1)
           empty_leaf_workspace "" ("* [E](e.md)" ++ nl) "ws/e.md");
    vm_compute; reflexivity.
Defined.

(** ** A table of contents through all the passes *)

(** X14.  Through all the passes of [get_body], a document with one doctoc
    block and no other markup becomes the text before the block, the
    table-of-contents macro and the text after it: the block is converted
    before the comment pass could turn its delimiters into placeholders. *)
Theorem convert_turns_a_doctoc_block_into_the_toc_macro
    (A M B : list ascii) :
  let html := A ++ "<!-- START doctoc" ++ M ++ "END doctoc -->" ++ B in
  let out := A ++ Transformer.toc_tag ++ B in
  lacks "~" html ->
  occurs "<blockquote>" html = false ->
  occurs "<!-- START doctoc" A = false ->
  occurs "END doctoc -->" B = false ->
  occurs "<!--" out = false ->
  occurs "-->" out = false ->
  occurs "<pre><code" out = false ->
  occurs "[^" out = false ->
  Transformer.convert html = Ok out.
Proof.
  intros html out Htilde Hquote HA HB Hopen Hclose Hpre Href.
  assert (E1 : Transformer.convert_info_macros html = Ok out).
  { unfold Transformer.convert_info_macros. cbv zeta.
    rewrite (replace_absent "<p>~?") by (done || by apply (occurs_lacks "<p>" "~" "?")).
    rewrite (replace_absent "?~</p>") by (done || by apply (occurs_lacks "?" "~" "</p>")).
    rewrite (replace_absent "<p>~!") by (done || by apply (occurs_lacks "<p>" "~" "!")).
    rewrite (replace_absent "!~</p>") by (done || by apply (occurs_lacks "!" "~" "</p>")).
    rewrite (replace_absent "<p>~%") by (done || by apply (occurs_lacks "<p>" "~" "%")).
    rewrite (replace_absent "%~</p>") by (done || by apply (occurs_lacks "%" "~" "</p>")).
    unfold findall1. cbn [cat]. rewrite finditer_absent by done.
    cbn [map Transformer.convert_quotes mbind result_bind mret result_ret].
    f_equal.
    by apply doctoc_replaced. }
  unfold Transformer.convert. rewrite E1. cbn [mbind result_bind].
  unfold Transformer.convert_comment_block.
  rewrite (replace_absent "<!--"), (replace_absent "-->") by done.
  unfold Transformer.convert_code_block, findall0, Transformer.code_block_re.
  cbn [cat]. rewrite finditer_absent by done.
  cbn [map Transformer.convert_code_tags mbind result_bind].
  unfold Transformer.process_refs, findall_groups.
  by rewrite refs_finditer_absent.
Qed.

Lemma convert_doctoc_block_witness :
  Transformer.convert
    ("<h1>T</h1>" ++ "<!-- START doctoc" ++ " x " ++ "END doctoc -->"
       ++ "<p>x</p>")
  = Ok ("<h1>T</h1>" ++ Transformer.toc_tag ++ "<p>x</p>").
Proof.
  apply (convert_turns_a_doctoc_block_into_the_toc_macro
           "<h1>T</h1>" " x " "<p>x</p>");
    [apply lacks_forallb; reflexivity|reflexivity..].
Defined.

Lemma lookup_app q r n :
  Fs.lookup (q ++ r) n
  = match Fs.lookup q n with Some m => Fs.lookup r m | None => None end.
Proof.
  revert n. induction q as [|x q IH]; intros n; [done|]. simpl.
  destruct n as [c|es]; [done|]. destruct (Fs.assoc x es); [apply IH|done].
Qed.

Lemma check_plan_requirements_fresh W fs fs1 :
  Planner.check_plan_requirements W fs = Ok fs1 ->
  Fs.isdir fs (Planner.PLAN_FOLDER W) = false.
Proof.
  unfold Planner.check_plan_requirements.
  destruct (negb _); [done|]. by destruct (Fs.isdir fs _).
Qed.

(** X16.  After a successful [plan_import] no file below the plan folder
    is an index file: each holds a line that is not an entry (so none is
    empty), as [is_index_file] answered for it before it was copied. *)
Theorem plan_import_puts_no_index_file_in_the_plan
    (W : list ascii) (fuel : nat) (fs fs' : Fs.node)
    (p : Fs.path) (c : list ascii) :
  Planner.plan_import W fuel fs = Ok fs' ->
  under (Fs.comps (Planner.PLAN_FOLDER W)) p ->
  Fs.lookup p fs' = Some (Fs.File c) ->
  Planner.all_lines_match (Py.readlines c) = false.
Proof.
  unfold Planner.plan_import.
  destruct (Planner.check_plan_requirements W fs) as [fs1| | |] eqn:E;
    cbn [mbind result_bind]; try done.
  pose proof (check_plan_requirements_fresh _ _ _ E) as Hfresh.
  apply check_plan_requirements_Ok in E. intros H Hp Hl.
  assert (Hk : kept (Fs.comps (Planner.PLAN_FOLDER W)) fs fs').
  { apply (process_index_kept W fs fuel fs1 [] "index.md"); [|done|done].
    apply (kept_makedirs W fs fs _ _ (kept_refl W fs) E). }
  destruct Hk as [H1 _]. destruct (H1 _ _ Hl) as [Hold|[_ Hn]]; [|done].
  exfalso. destruct Hp as (r & Hr & ->). rewrite lookup_app in Hold.
  revert Hfresh. unfold Fs.isdir.
  rewrite bool_decide_false by apply PLAN_nonempty. cbn [negb andb].
  destruct (Fs.lookup (Fs.comps (Planner.PLAN_FOLDER W)) fs) as [[c0|es]|];
    [|done|done].
  by destruct r.
Qed.

Lemma plan_import_no_index_witness :
  Planner.all_lines_match (Py.readlines ("World" ++ nl)) = false.
Proof.
  apply (plan_import_puts_no_index_file_in_the_plan "ws" 2
           Scenario.flat_workspace Scenario.flat_workspace_planned
           ["ws" : list ascii; "plan" : list ascii; "B" : list ascii;
            "c.md" : list ascii]).
  - vm_compute. reflexivity.
  - exists ["B" : list ascii; "c.md" : list ascii]. split; [done|].
    vm_compute. reflexivity.
  - vm_compute. reflexivity.
Defined.

Section Root.
Context {R : Type}.
Variable GET_by_title : R -> list ascii -> option (list (list ascii)).
Variable GET_ancestors : R -> list ascii -> option (list (list ascii)).
Variable POST_content :
  R -> list ascii -> list ascii -> list ascii -> option (list ascii * R).
Variable WORK_FOLDER : list ascii.

(** X18.  For the plan folder itself the loop of [execute_import] creates
    no page and records none: the files that lie directly in the plan
    folder are uploaded as children of the base page of the space. *)
Theorem plan_root_gets_no_page_and_its_files_go_under_the_base_page
    (body_of : list ascii -> result (list ascii)) (base_id : list ascii)
    (r : R) (confluence_pages : gmap (list ascii) (list ascii))
    (dirs files : list (list ascii)) :
  Builder.visit GET_by_title GET_ancestors POST_content WORK_FOLDER body_of
    base_id (r, confluence_pages)
    (Builder.PLAN_FOLDER WORK_FOLDER, dirs, files)
  = (r' ← Builder.upload_files GET_by_title GET_ancestors POST_content
            WORK_FOLDER body_of r base_id files;
     mret (r', confluence_pages)).
Proof.
  unfold Builder.visit.
  pose proof (split_nth1 (Builder.PLAN_FOLDER WORK_FOLDER) []
                (PLAN_nonempty WORK_FOLDER)) as E.
  rewrite app_nil_r in E. rewrite E. cbn [of_option mbind result_bind].
  reflexivity.
Qed.

End Root.
